(** * AutoWeave UI agent: template-driven AG-UI event generation

    A shallow embedding of [UIAgent] (src/agui/ui-agent.js): the template
    registry, the per-client session tracker, placeholder substitution and
    the specialised flows that hand events to the injected AutoWeave
    instance. *)

From Stdlib Require Import Ascii.
From stdpp Require Import base option list strings gmap pretty.

Set Warnings "-register-all".

Open Scope string_scope.
Open Scope Z_scope.
Open Scope list_scope.

(** ** JavaScript values

    Templates, variables and provider results are plain data.  A number is
    an integer in the range where its decimal numeral is what [String(n)]
    prints; an object is the list of its own enumerable properties, in
    property order, with pairwise distinct keys, and has [Object.prototype]
    as its prototype. *)

Inductive value :=
| VUndef
| VNull
| VBool (b : bool)
| VNum (n : Z)
| VStr (s : string)
| VArr (elems : list value)
| VObj (props : list (string * value)).

Abbreviation obj := (list (string * value)).

(** Whatever a [throw] (or a rejected promise) carries. *)
Inductive exn :=
| Error (message : string)
| TypeError (message : string)
| RangeError (message : string)
| Thrown (v : value).

Inductive outcome (A : Type) :=
| Returns (a : A)
| Throws (e : exn).
Arguments Returns {A} a.
Arguments Throws {A} e.

Definition obind {A B} (m : outcome A) (k : A → outcome B) : outcome B :=
  match m with
  | Returns a => k a
  | Throws e => Throws e
  end.

Definition omap_outcome {A B} (f : A → B) (m : outcome A) : outcome B :=
  obind m (λ a, Returns (f a)).

Notation "'let!' x ':=' m 'in' k" := (obind m (λ x, k))
  (at level 10, x name, m at level 100, k at level 200,
   format "'[v' 'let!'  x  ':='  m  'in' '/' k ']'").

(** ** Own properties *)

Fixpoint obj_get (o : obj) (key : string) : option value :=
  match o with
  | [] => None
  | (k, v) :: o' => if String.eqb k key then Some v else obj_get o' key
  end.

(** [o[key] = v]: an existing property keeps its place. *)
Fixpoint obj_set (o : obj) (key : string) (v : value) : obj :=
  match o with
  | [] => [(key, v)]
  | (k, x) :: o' =>
      if String.eqb k key then (k, v) :: o' else (k, x) :: obj_set o' key v
  end.

Definition hasOwnProperty (o : obj) (key : string) : bool :=
  match obj_get o key with Some _ => true | None => false end.

(** ** [ToString]

    An array prints as its elements joined by commas, [null] and
    [undefined] elements as the empty string.  An ordinary object prints
    through [Object.prototype.toString]; when an own property shadows
    [toString] with data, [OrdinaryToPrimitive] finds nothing callable that
    returns a primitive and raises. *)

Definition cannot_convert : exn :=
  TypeError "Cannot convert object to primitive value".

(** [Array.prototype.join] with the default separator. *)
Definition join_with (show : value → outcome string)
  : list value → outcome string :=
  fix join (l : list value) : outcome string :=
    match l with
    | [] => Returns ""
    | x :: l' =>
        let! sx := show x in
        match l' with
        | [] => Returns sx
        | _ => let! rest := join l' in Returns (sx +:+ "," +:+ rest)
        end
    end.

Fixpoint ToString (v : value) : outcome string :=
  match v with
  | VUndef => Returns "undefined"
  | VNull => Returns "null"
  | VBool true => Returns "true"
  | VBool false => Returns "false"
  | VNum n => Returns (pretty n)
  | VStr s => Returns s
  | VArr elems =>
      join_with (λ x, match x with
                      | VUndef | VNull => Returns ""
                      | _ => ToString x
                      end) elems
  | VObj props =>
      if hasOwnProperty props "toString" then Throws cannot_convert
      else Returns "[object Object]"
  end.

(** ** The placeholder pattern [/\{\{(\w+)\}\}/g] *)

Definition is_word_char (c : Ascii.ascii) : bool :=
  let n := Ascii.nat_of_ascii c in
  ((48 <=? n) && (n <=? 57) || (65 <=? n) && (n <=? 90)
   || (97 <=? n) && (n <=? 122) || (n =? 95))%nat.

(** Greedy [\w*]: the longest prefix of word characters, and what follows. *)
Fixpoint scan_word (s : string) : string * string :=
  match s with
  | String c s' =>
      if is_word_char c
      then let '(w, r) := scan_word s' in (String c w, r)
      else ("", s)
  | "" => ("", "")
  end.

Fixpoint is_word (s : string) : bool :=
  match s with
  | "" => true
  | String c s' => is_word_char c && is_word s'
  end.

(** What [\w+] can capture. *)
Definition is_identifier (s : string) : bool :=
  match s with
  | "" => false
  | _ => is_word s
  end.

(** [s] with the literal [p] taken off its front. *)
Fixpoint strip_prefix (p s : string) : option string :=
  match p, s with
  | "", _ => Some s
  | String a p', String b s' => if Ascii.eqb a b then strip_prefix p' s' else None
  | String _ _, "" => None
  end.

(** The pattern anchored at the start of [s]: the captured name.  After
    the greedy run of word characters only ["}}"] can follow, so there is
    nothing to backtrack into. *)
Definition match_placeholder (s : string) : option string :=
  t ← strip_prefix "{{" s;
  let '(w, r) := scan_word t in
  if is_identifier w then _ ← strip_prefix "}}" r; Some w else None.

(** ** Reading [variables[variableName]]

    The merged variables are an ordinary object, so a name that is not an
    own key is looked up on [Object.prototype].  What is found there is a
    built-in function, or for [__proto__] the prototype object itself; only
    its rendering by [ToString] matters to the caller. *)

Definition Object_prototype_methods : list (string * string) :=
  [ ("constructor", "Object");
    ("__defineGetter__", "__defineGetter__");
    ("__defineSetter__", "__defineSetter__");
    ("hasOwnProperty", "hasOwnProperty");
    ("__lookupGetter__", "__lookupGetter__");
    ("__lookupSetter__", "__lookupSetter__");
    ("isPrototypeOf", "isPrototypeOf");
    ("propertyIsEnumerable", "propertyIsEnumerable");
    ("toString", "toString");
    ("valueOf", "valueOf");
    ("toLocaleString", "toLocaleString") ].

Definition Object_prototype_lookup (key : string) : option string :=
  if String.eqb key "__proto__" then Some "[object Object]"
  else
    match list_find (λ p, p.1 = key) Object_prototype_methods with
    | Some (_, (_, fname)) => Some ("function " +:+ fname +:+ "() { [native code] }")
    | None => None
    end.

(** The replacer callback of [replaceStringVariables]:
    [variables[variableName] !== undefined ? variables[variableName] : match],
    followed by the [ToString] that [String.prototype.replace] applies to
    what the callback returns. *)
Definition replacer (variables : gmap string value) (variableName : string)
  : outcome string :=
  let matched := "{{" +:+ variableName +:+ "}}" in
  match variables !! variableName with
  | Some VUndef => Returns matched
  | Some v => ToString v
  | None =>
      match Object_prototype_lookup variableName with
      | Some rendering => Returns rendering
      | None => Returns matched
      end
  end.

(** [str.replace(/\{\{(\w+)\}\}/g, replacer)].  The scan goes left to
    right; [skip] counts the characters of the current match that are still
    to be passed over before the search resumes. *)
Fixpoint replace_scan (variables : gmap string value) (skip : nat) (s : string)
  : outcome string :=
  match s with
  | "" => Returns ""
  | String c s' =>
      match skip with
      | S k => replace_scan variables k s'
      | O =>
          match match_placeholder s with
          | Some name =>
              let! r := replacer variables name in
              let! rest := replace_scan variables (String.length name + 3) s' in
              Returns (r +:+ rest)
          | None =>
              let! rest := replace_scan variables 0 s' in
              Returns (String c rest)
          end
      end
  end.

Definition replaceStringVariables (str : string) (variables : gmap string value)
  : outcome string :=
  replace_scan variables 0 str.

Fixpoint has_char (c : Ascii.ascii) (s : string) : bool :=
  match s with
  | "" => false
  | String c' s' => Ascii.eqb c c' || has_char c s'
  end.

Definition has_brace (s : string) : bool :=
  has_char "{"%char s || has_char "}"%char s.

(** ** Deep clone and the recursive walk *)

Definition for_each {A B} (f : A → outcome B) : list A → outcome (list B) :=
  fix go (l : list A) : outcome (list B) :=
    match l with
    | [] => Returns []
    | x :: l' =>
        let! y := f x in
        let! ys := go l' in
        Returns (y :: ys)
    end.

(** [JSON.parse(JSON.stringify(v))] for a value other than [undefined]:
    a property holding [undefined] is dropped, an array element holding
    [undefined] becomes [null]. *)
Fixpoint json_clone (v : value) : value :=
  match v with
  | VArr elems =>
      VArr (map (λ x, match x with VUndef => VNull | _ => json_clone x end) elems)
  | VObj props =>
      VObj (omap (λ '(key, x), match x with
                               | VUndef => None
                               | _ => Some (key, json_clone x)
                               end) props)
  | _ => v
  end.

(** [replaceVariables(obj, variables)], as the value [obj] has after the
    walk.  [for (const key in obj)] visits the own properties of an object
    and the indices of an array alike, and [typeof x === 'object'] holds of
    both. *)
Fixpoint replaceVariables (variables : gmap string value) (o : value)
  : outcome value :=
  let visit (x : value) : outcome value :=
    match x with
    | VStr str => omap_outcome VStr (replaceStringVariables str variables)
    | VObj _ | VArr _ => replaceVariables variables x
    | _ => Returns x
    end in
  match o with
  | VObj props =>
      omap_outcome VObj
        (for_each (λ '(key, x), omap_outcome (pair key) (visit x)) props)
  | VArr elems => omap_outcome VArr (for_each visit elems)
  | _ => Returns o
  end.

(** What the walk does to [obj[key]]. *)
Definition visit (variables : gmap string value) (x : value) : outcome value :=
  match x with
  | VStr str => omap_outcome VStr (replaceStringVariables str variables)
  | VObj _ | VArr _ => replaceVariables variables x
  | _ => Returns x
  end.

Definition processTemplate (template : obj) (variables : gmap string value)
  : outcome value :=
  let processedTemplate := json_clone (VObj template) in
  replaceVariables variables processedTemplate.

(** ** The agent *)

Record session := {
  session_id : string;
  created_at : string;
  last_activity : string;
}.

Inductive level := Debug | Info | Warn | Success.

(** [T] is how a registered template is held: by value in this part, by
    reference in the part on sharing below.  [clock] counts the readings of
    the system clock taken so far, [logger] keeps what was logged, oldest
    first. *)
Record UIAgent (T : Type) := {
  eventTemplates : gmap string T;
  activeSessions : gmap string session;
  uiStates : gmap string (gmap string value);
  logger : list (level * string);
  clock : nat;
}.
Arguments eventTemplates {T} _.
Arguments activeSessions {T} _.
Arguments uiStates {T} _.
Arguments logger {T} _.
Arguments clock {T} _.

Definition with_templates {T U} (a : UIAgent T) (m : gmap string U) : UIAgent U :=
  {| eventTemplates := m; activeSessions := activeSessions a;
     uiStates := uiStates a; logger := logger a; clock := clock a |}.

Definition with_sessions {T} (a : UIAgent T) (m : gmap string session) : UIAgent T :=
  {| eventTemplates := eventTemplates a; activeSessions := m;
     uiStates := uiStates a; logger := logger a; clock := clock a |}.

Definition with_uiStates {T} (a : UIAgent T) (m : gmap string (gmap string value))
  : UIAgent T :=
  {| eventTemplates := eventTemplates a; activeSessions := activeSessions a;
     uiStates := m; logger := logger a; clock := clock a |}.

Definition log {T} (lv : level) (line : string) (a : UIAgent T) : UIAgent T :=
  {| eventTemplates := eventTemplates a; activeSessions := activeSessions a;
     uiStates := uiStates a; logger := logger a ++ [(lv, line)];
     clock := clock a |}.

Definition tick {T} (a : UIAgent T) : UIAgent T :=
  {| eventTemplates := eventTemplates a; activeSessions := activeSessions a;
     uiStates := uiStates a; logger := logger a; clock := S (clock a) |}.

(** [!clientId]: [null] and the empty string are both falsy. *)
Definition absent (clientId : option string) : bool :=
  match clientId with
  | None | Some "" => true
  | Some _ => false
  end.

(** [clientId] inside a template literal or as a JSON value. *)
Definition show_client (clientId : option string) : string :=
  match clientId with Some c => c | None => "null" end.

Definition client_value (clientId : option string) : value :=
  match clientId with Some c => VStr c | None => VNull end.

Section Host.

  (** The system clock: [Date_now k] is what the [k]-th reading returns, in
      milliseconds; [toISOString] prints an instant. *)
Variable Date_now : nat → Z.
Variable toISOString : Z → string.

Section Agent.
Context {T : Type}.

Definition now (a : UIAgent T) : Z * UIAgent T :=
    (Date_now (clock a), tick a).

Definition new_Date_toISOString (a : UIAgent T) : string * UIAgent T :=
    let '(t, a) := now a in (toISOString t, a).

Definition getSessionId (clientId : option string) (a : UIAgent T)
    : string * UIAgent T :=
    match clientId with
    | Some (String _ _ as c) =>
        let a :=
          match activeSessions a !! c with
          | Some _ => a
          | None =>
              let '(t, a) := now a in
              let '(created, a) := new_Date_toISOString a in
              let '(active, a) := new_Date_toISOString a in
              with_sessions a
                (<[c := {| session_id := "session-" +:+ c +:+ "-" +:+ pretty t;
                           created_at := created;
                           last_activity := active |}]> (activeSessions a))
          end in
        let '(active, a) := new_Date_toISOString a in
        let a :=
          with_sessions a
            (alter (λ s, {| session_id := session_id s;
                            created_at := created_at s;
                            last_activity := active |}) c (activeSessions a)) in
        (default "" (session_id <$> activeSessions a !! c), a)
    | _ => let '(t, a) := now a in ("session-" +:+ pretty t, a)
    end.

Definition updateUIState (clientId stateKey : string) (stateValue : value)
      (a : UIAgent T) : outcome () * UIAgent T :=
    let states := default ∅ (uiStates a !! clientId) in
    let a := with_uiStates a (<[clientId := <[stateKey := stateValue]> states]> (uiStates a)) in
    match ToString stateValue with
    | Returns shown =>
        (Returns (),
         log Debug ("UI state updated for " +:+ clientId +:+ ": " +:+ stateKey
                    +:+ " = " +:+ shown) a)
    | Throws e => (Throws e, a)
    end.

Definition getUIState (clientId stateKey : string) (a : UIAgent T) : value :=
    default VUndef (uiStates a !! clientId ≫= λ states, states !! stateKey).

Definition shutdown (a : UIAgent T) : UIAgent T :=
    let a := log Info "Shutting down UI Agent..." a in
    let a := with_sessions a ∅ in
    let a := with_uiStates a ∅ in
    log Success "UI Agent shutdown complete" a.

End Agent.

  (** *** Event generation *)

Definition defaultVariables (timestamp sessionId : string) : gmap string value :=
    {[ "timestamp" := VStr timestamp;
       "agent_name" := VStr "AutoWeave";
       "session_id" := VStr sessionId ]}.

  (** [{ ...defaultVariables, ...variables }] *)
Definition mergedVariables (defaults variables : gmap string value)
    : gmap string value :=
    variables ∪ defaults.

Definition agui_metadata (templateId generated_at : string)
      (clientId : option string) : value :=
    VObj [ ("generated_by", VStr "ui-agent");
           ("template_id", VStr templateId);
           ("generated_at", VStr generated_at);
           ("client_id", client_value clientId) ].

  (** [event.key = v] on the processed template, which is an object. *)
Definition set_property (event : value) (key : string) (v : value) : value :=
    match event with
    | VObj props => VObj (obj_set props key v)
    | _ => event
    end.

Definition generateEvent (templateId : string) (variables : gmap string value)
      (clientId : option string) (a : UIAgent obj) : outcome value * UIAgent obj :=
    match eventTemplates a !! templateId with
    | None => (Throws (Error ("Template '" +:+ templateId +:+ "' not found")), a)
    | Some template =>
        let '(timestamp, a) := new_Date_toISOString a in
        let '(sessionId, a) := getSessionId clientId a in
        let merged := mergedVariables (defaultVariables timestamp sessionId) variables in
        match processTemplate template merged with
        | Throws e => (Throws e, a)
        | Returns event =>
            let '(generated_at, a) := new_Date_toISOString a in
            (Returns (set_property event "agui_metadata"
                        (agui_metadata templateId generated_at clientId)), a)
        end
    end.

Definition generateChatEvent := generateEvent.
Definition generateDisplayEvent := generateEvent.
Definition generateInputEvent := generateEvent.
Definition generateStatusEvent := generateEvent.

End Host.

(** ** The built-in registry *)

Definition chat_welcome : obj :=
  [ ("type", VStr "chat");
    ("template", VObj
       [ ("text", VStr "Welcome to {{agent_name}}! I'm ready to help you with {{capabilities}}.");
         ("sender", VStr "{{agent_name}}");
         ("timestamp", VStr "{{timestamp}}");
         ("metadata", VObj [ ("event_type", VStr "welcome");
                             ("session_id", VStr "{{session_id}}") ]) ]) ].

Definition chat_response : obj :=
  [ ("type", VStr "chat");
    ("template", VObj
       [ ("text", VStr "{{message}}");
         ("sender", VStr "{{agent_name}}");
         ("timestamp", VStr "{{timestamp}}");
         ("metadata", VObj [ ("event_type", VStr "response");
                             ("session_id", VStr "{{session_id}}");
                             ("tokens", VStr "{{tokens}}") ]) ]) ].

Definition chat_error : obj :=
  [ ("type", VStr "chat");
    ("template", VObj
       [ ("text", VStr "âŒ {{error_message}}");
         ("sender", VStr "{{agent_name}}");
         ("timestamp", VStr "{{timestamp}}");
         ("error", VBool true);
         ("metadata", VObj [ ("event_type", VStr "error");
                             ("session_id", VStr "{{session_id}}") ]) ]) ].

Definition display_agent_list : obj :=
  [ ("type", VStr "display");
    ("template", VObj
       [ ("type", VStr "table");
         ("title", VStr "Active Agents");
         ("columns", VArr [VStr "id"; VStr "name"; VStr "status"; VStr "created_at"]);
         ("data", VStr "{{agents_data}}");
         ("timestamp", VStr "{{timestamp}}");
         ("metadata", VObj [ ("event_type", VStr "agent_list");
                             ("total_agents", VStr "{{total_agents}}") ]) ]) ].

Definition display_metrics : obj :=
  [ ("type", VStr "display");
    ("template", VObj
       [ ("type", VStr "metrics");
         ("title", VStr "System Metrics");
         ("data", VStr "{{metrics_data}}");
         ("timestamp", VStr "{{timestamp}}");
         ("metadata", VObj [ ("event_type", VStr "metrics");
                             ("refresh_rate", VStr "{{refresh_rate}}") ]) ]) ].

Definition display_form : obj :=
  [ ("type", VStr "display");
    ("template", VObj
       [ ("type", VStr "form");
         ("title", VStr "{{form_title}}");
         ("description", VStr "{{form_description}}");
         ("schema", VStr "{{form_schema}}");
         ("action", VStr "{{form_action}}");
         ("timestamp", VStr "{{timestamp}}");
         ("metadata", VObj [ ("event_type", VStr "form");
                             ("form_id", VStr "{{form_id}}") ]) ]) ].

Definition display_success : obj :=
  [ ("type", VStr "display");
    ("template", VObj
       [ ("type", VStr "success");
         ("title", VStr "âœ… {{success_title}}");
         ("message", VStr "{{success_message}}");
         ("data", VStr "{{success_data}}");
         ("timestamp", VStr "{{timestamp}}");
         ("metadata", VObj [ ("event_type", VStr "success");
                             ("operation", VStr "{{operation}}") ]) ]) ].

Definition display_error : obj :=
  [ ("type", VStr "display");
    ("template", VObj
       [ ("type", VStr "error");
         ("title", VStr "âŒ {{error_title}}");
         ("message", VStr "{{error_message}}");
         ("details", VStr "{{error_details}}");
         ("timestamp", VStr "{{timestamp}}");
         ("metadata", VObj [ ("event_type", VStr "error");
                             ("error_code", VStr "{{error_code}}") ]) ]) ].

Definition input_text : obj :=
  [ ("type", VStr "input");
    ("template", VObj
       [ ("input_type", VStr "text");
         ("label", VStr "{{label}}");
         ("placeholder", VStr "{{placeholder}}");
         ("required", VStr "{{required}}");
         ("validation", VStr "{{validation}}");
         ("timestamp", VStr "{{timestamp}}");
         ("metadata", VObj [ ("event_type", VStr "input_request");
                             ("input_id", VStr "{{input_id}}") ]) ]) ].

Definition input_choice : obj :=
  [ ("type", VStr "input");
    ("template", VObj
       [ ("input_type", VStr "choice");
         ("label", VStr "{{label}}");
         ("options", VStr "{{options}}");
         ("multiple", VStr "{{multiple}}");
         ("timestamp", VStr "{{timestamp}}");
         ("metadata", VObj [ ("event_type", VStr "input_request");
                             ("input_id", VStr "{{input_id}}") ]) ]) ].

Definition status_update : obj :=
  [ ("type", VStr "status");
    ("template", VObj
       [ ("status", VStr "{{status}}");
         ("message", VStr "{{message}}");
         ("progress", VStr "{{progress}}");
         ("timestamp", VStr "{{timestamp}}");
         ("metadata", VObj [ ("event_type", VStr "status_update");
                             ("operation_id", VStr "{{operation_id}}") ]) ]) ].

Definition initializeEventTemplates : gmap string obj :=
  <["status-update" := status_update]>
  (<["input-choice" := input_choice]>
  (<["input-text" := input_text]>
  (<["display-error" := display_error]>
  (<["display-success" := display_success]>
  (<["display-form" := display_form]>
  (<["display-metrics" := display_metrics]>
  (<["display-agent-list" := display_agent_list]>
  (<["chat-error" := chat_error]>
  (<["chat-response" := chat_response]>
  (<["chat-welcome" := chat_welcome]> ∅)))))))))).

(** [new UIAgent(config, autoweaveInstance)] *)
Definition UIAgent_new : UIAgent obj :=
  {| eventTemplates := initializeEventTemplates;
     activeSessions := ∅;
     uiStates := ∅;
     logger := [(Debug, "Initialized 11 event templates")];
     clock := 0 |}.

(** *** Template management *)

Definition addCustomTemplate {T} (templateId : string) (template : T)
    (a : UIAgent T) : UIAgent T :=
  log Debug ("Custom template added: " +:+ templateId)
    (with_templates a (<[templateId := template]> (eventTemplates a))).

Definition removeTemplate {T} (templateId : string) (a : UIAgent T)
  : bool * UIAgent T :=
  match eventTemplates a !! templateId with
  | Some _ =>
      (true, log Debug ("Template removed: " +:+ templateId)
               (with_templates a (delete templateId (eventTemplates a))))
  | None => (false, a)
  end.

Definition getTemplate {T} (templateId : string) (a : UIAgent T) : option T :=
  eventTemplates a !! templateId.

(** ** Reading a member of a provider result or of a thrown value

    [v.key] for a key that no built-in prototype defines ([message],
    [agents], [type]): reading from [undefined] or [null] raises, an object
    answers with its own property, every other value with [undefined]. *)
Definition member (v : value) (key : string) : outcome value :=
  match v with
  | VUndef =>
      Throws (TypeError ("Cannot read properties of undefined (reading '"
                         +:+ key +:+ "')"))
  | VNull =>
      Throws (TypeError ("Cannot read properties of null (reading '"
                         +:+ key +:+ "')"))
  | VObj props => Returns (default VUndef (obj_get props key))
  | _ => Returns VUndef
  end.

(** [error.message] in a [catch] block. *)
Definition error_message (error : exn) : outcome value :=
  match error with
  | Error message | TypeError message | RangeError message =>
      Returns (VStr message)
  | Thrown v => member v "message"
  end.

Definition truthy (v : value) : bool :=
  match v with
  | VUndef | VNull | VBool false | VNum 0 | VStr "" => false
  | _ => true
  end.

(** [v.length] for a truthy [v]; a string counts its characters. *)
Definition length_of (v : value) : value :=
  match v with
  | VArr elems => VNum (Z.of_nat (length elems))
  | VStr s => VNum (Z.of_nat (String.length s))
  | VObj props => default VUndef (obj_get props "length")
  | _ => VUndef
  end.

Definition dquote : string := String (Ascii.ascii_of_nat 34) "".

(** ** The injected AutoWeave instance

    Its methods act on a world [W] of their own and may throw (reject).  A
    method that the instance does not have is [None]. *)
Record AutoWeave (W : Type) := {
  getSystemHealth : option (W → outcome value * W);
  getMetrics : option (W → outcome value * W);
  listAgents : option (W → outcome value * W);
  sendAGUIEvent : option (value → option string → W → outcome () * W);
}.
Arguments getSystemHealth {W} _.
Arguments getMetrics {W} _.
Arguments listAgents {W} _.
Arguments sendAGUIEvent {W} _.

Section Flows.

Variable Date_now : nat → Z.
Variable toISOString : Z → string.
Context {W : Type}.
Variable autoweaveInstance : option (AutoWeave W).

  (** An asynchronous method of the agent: it threads the agent and the
      world, and either returns or throws.  A throw keeps the state reached
      so far. *)
Definition flow (A : Type) : Type :=
    UIAgent obj * W → outcome A * (UIAgent obj * W).

Definition ret {A} (x : A) : flow A := λ st, (Returns x, st).

Definition throw {A} (e : exn) : flow A := λ st, (Throws e, st).

Definition bind {A B} (m : flow A) (k : A → flow B) : flow B :=
    λ st, match m st with
          | (Returns x, st') => k x st'
          | (Throws e, st') => (Throws e, st')
          end.

Definition try_catch {A} (body : flow A) (handler : exn → flow A) : flow A :=
    λ st, match body st with
          | (Returns x, st') => (Returns x, st')
          | (Throws e, st') => handler e st'
          end.

Notation "x ⇐ m ; k" := (bind m (λ x, k))
    (at level 100, m at next level, k at level 200, right associativity,
     format "'[v' x  ⇐  m ; '/' k ']'").
Notation "m ;; k" := (bind m (λ _, k))
    (at level 100, k at level 200, right associativity).

Definition on_agent {A} (f : UIAgent obj → A * UIAgent obj) : flow A :=
    λ '(a, w), let '(x, a') := f a in (Returns x, (a', w)).

Definition on_agent_try {A} (f : UIAgent obj → outcome A * UIAgent obj) : flow A :=
    λ '(a, w), let '(r, a') := f a in (r, (a', w)).

Definition pure_try {A} (r : outcome A) : flow A := λ st, (r, st).

Definition logging (lv : level) (line : string) : flow () :=
    λ '(a, w), (Returns (), (log lv line a, w)).

  (** [await this.autoweaveInstance.method()] *)
Definition call (name : string)
      (method : AutoWeave W → option (W → outcome value * W)) : flow value :=
    match autoweaveInstance with
    | None =>
        throw (TypeError ("Cannot read properties of undefined (reading '"
                          +:+ name +:+ "')"))
    | Some instance =>
        match method instance with
        | None =>
            throw (TypeError ("this.autoweaveInstance." +:+ name
                              +:+ " is not a function"))
        | Some f => λ '(a, w), let '(r, w') := f w in (r, (a, w'))
        end
    end.

Definition sendEvent (event : value) (clientId : option string) : flow () :=
    match autoweaveInstance ≫= sendAGUIEvent with
    | Some send =>
        (λ '(a, w), let '(r, w') := send event clientId w in (r, (a, w')));;
        type ⇐ pure_try (member event "type");
        shown ⇐ pure_try (ToString type);
        logging Debug ("Event sent to " +:+ show_client clientId +:+ ": " +:+ shown)
    | None => logging Warn "AutoWeave instance not available for sending events"
    end.

  (** [for (const event of events) await this.sendEvent(event, clientId)] *)
Fixpoint sendEvents (events : list value) (clientId : option string) : flow () :=
    match events with
    | [] => ret ()
    | event :: events' => sendEvent event clientId;; sendEvents events' clientId
    end.

Definition agent_form_schema : value :=
    VObj [ ("type", VStr "object");
           ("properties", VObj
              [ ("name", VObj [ ("type", VStr "string");
                                ("title", VStr "Agent Name");
                                ("description", VStr "Give your agent a name") ]);
                ("priority", VObj [ ("type", VStr "string");
                                    ("title", VStr "Priority Level");
                                    ("enum", VArr [VStr "low"; VStr "medium"; VStr "high"]);
                                    ("default", VStr "medium") ]);
                ("environment", VObj [ ("type", VStr "string");
                                       ("title", VStr "Environment");
                                       ("enum", VArr [VStr "development"; VStr "staging";
                                                      VStr "production"]);
                                       ("default", VStr "development") ]) ]);
           ("required", VArr [VStr "name"]) ].

Definition generateAgentCreationFlow (clientId : option string)
      (agentDescription : string) : flow (list value) :=
    sessionId ⇐ on_agent (getSessionId Date_now toISOString clientId);
    processing ⇐ on_agent_try
      (generateChatEvent Date_now toISOString "chat-response"
         {[ "message" := VStr ("ðŸ¤– Creating agent: " +:+ dquote
                               +:+ agentDescription +:+ dquote);
            "session_id" := VStr sessionId ]} clientId);
    t ⇐ on_agent (now Date_now);
    form ⇐ on_agent_try
      (generateDisplayEvent Date_now toISOString "display-form"
         {[ "form_title" := VStr "Agent Configuration";
            "form_description" := VStr "Provide additional details for your agent";
            "form_schema" := agent_form_schema;
            "form_action" := VStr "create-agent-confirm";
            "form_id" := VStr ("agent-form-" +:+ pretty t) ]} clientId);
    let events := [processing; form] in
    sendEvents events clientId;;
    ret events.

Definition generateSystemHealthDisplay (clientId : option string) : flow value :=
    try_catch
      (health ⇐ call "getSystemHealth" getSystemHealth;
       metrics ⇐ call "getMetrics" getMetrics;
       event ⇐ on_agent_try
         (generateDisplayEvent Date_now toISOString "display-metrics"
            {[ "metrics_data" := VObj [ ("system_health", health);
                                        ("metrics", metrics) ];
               "refresh_rate" := VStr "30s" ]} clientId);
       sendEvent event clientId;;
       ret event)
      (λ error,
         details ⇐ pure_try (error_message error);
         errorEvent ⇐ on_agent_try
           (generateDisplayEvent Date_now toISOString "display-error"
              {[ "error_title" := VStr "Health Check Failed";
                 "error_message" := VStr "Unable to retrieve system health";
                 "error_details" := details;
                 "error_code" := VStr "HEALTH_CHECK_ERROR" ]} clientId);
         sendEvent errorEvent clientId;;
         ret errorEvent).

Definition generateAgentListDisplay (clientId : option string) : flow value :=
    try_catch
      (agents ⇐ call "listAgents" listAgents;
       listed ⇐ pure_try (member agents "agents");
       event ⇐ on_agent_try
         (generateDisplayEvent Date_now toISOString "display-agent-list"
            {[ "agents_data" := (if truthy listed then listed else VArr []);
               "total_agents" := (if truthy listed then length_of listed else VNum 0) ]}
            clientId);
       sendEvent event clientId;;
       ret event)
      (λ error,
         details ⇐ pure_try (error_message error);
         errorEvent ⇐ on_agent_try
           (generateDisplayEvent Date_now toISOString "display-error"
              {[ "error_title" := VStr "Agent List Failed";
                 "error_message" := VStr "Unable to retrieve agent list";
                 "error_details" := details;
                 "error_code" := VStr "AGENT_LIST_ERROR" ]} clientId);
         sendEvent errorEvent clientId;;
         ret errorEvent).

Definition generateOperationStatus (clientId : option string)
      (operationId status message progress : value) : flow value :=
    event ⇐ on_agent_try
      (generateStatusEvent Date_now toISOString "status-update"
         {[ "status" := status;
            "message" := message;
            "progress" := (if truthy progress then progress else VNum 0);
            "operation_id" := operationId ]} clientId);
    sendEvent event clientId;;
    ret event.

Definition welcome_form_schema : value :=
    VObj [ ("type", VStr "object");
           ("properties", VObj
              [ ("action", VObj
                   [ ("type", VStr "string");
                     ("title", VStr "Choose an action");
                     ("enum", VArr [VStr "create-agent"; VStr "list-agents";
                                    VStr "system-health"; VStr "chat"]);
                     ("enumNames", VArr [VStr "Create Agent"; VStr "List Agents";
                                         VStr "System Health";
                                         VStr "Chat with AutoWeave"]) ]) ]);
           ("required", VArr [VStr "action"]) ].

Definition generateWelcomeSequence (clientId : option string) : flow (list value) :=
    sessionId ⇐ on_agent (getSessionId Date_now toISOString clientId);
    welcome ⇐ on_agent_try
      (generateChatEvent Date_now toISOString "chat-welcome"
         {[ "capabilities" :=
              VStr "agent creation, system monitoring, and workflow orchestration";
            "session_id" := VStr sessionId ]} clientId);
    t ⇐ on_agent (now Date_now);
    actions ⇐ on_agent_try
      (generateDisplayEvent Date_now toISOString "display-form"
         {[ "form_title" := VStr "Quick Actions";
            "form_description" := VStr "What would you like to do?";
            "form_schema" := welcome_form_schema;
            "form_action" := VStr "quick-action";
            "form_id" := VStr ("welcome-actions-" +:+ pretty t) ]} clientId);
    let events := [welcome; actions] in
    sendEvents events clientId;;
    ret events.

End Flows.

(** ** Paths into a value *)

Inductive step :=
| Key (key : string)
| Index (i : nat).

Fixpoint get_path (v : value) (p : list step) : option value :=
  match p with
  | [] => Some v
  | Key key :: p' =>
      match v with
      | VObj props => x ← obj_get props key; get_path x p'
      | _ => None
      end
  | Index i :: p' =>
      match v with
      | VArr elems => x ← elems !! i; get_path x p'
      | _ => None
      end
  end.

(** Every value a variable holds can be printed. *)
Definition printable (variables : gmap string value) : Prop :=
  ∀ key v, variables !! key = Some v → ∃ s, ToString v = Returns s.

(** ** A concrete host for the examples

    The clock starts at a fixed instant and advances by a millisecond per
    reading; an instant is printed by its millisecond count. *)

Definition sample_clock (k : nat) : Z := 1700000000000 + Z.of_nat k.

Definition sample_iso (t : Z) : string := "T" +:+ pretty t.

Definition refreshed (s : session) (active : string) : session :=
  {| session_id := session_id s;
     created_at := created_at s;
     last_activity := active |}.

(** What sits at path [p] of the event an outcome carries. *)
Definition event_field (r : outcome value) (p : list step) : option value :=
  match r with
  | Returns event => get_path event p
  | Throws _ => None
  end.

(** Custom templates and agents used by the examples. *)
Definition greeting_template : obj :=
  [ ("type", VStr "chat");
    ("template", VObj [ ("text", VStr "Hi {{user-name}}");
                        ("sender", VStr "{{nick}}") ]) ].

Definition columns_template : obj :=
  [ ("type", VStr "display");
    ("template", VObj [ ("columns", VArr [VStr "{{first}}"; VStr "name"]) ]) ].

Definition braces_template : obj :=
  [ ("type", VStr "chat");
    ("template", VObj [ ("text", VStr "{{{agent_name}}") ]) ].

Definition sample_agent : UIAgent obj :=
  addCustomTemplate "braces" braces_template
    (addCustomTemplate "columns" columns_template
       (addCustomTemplate "greeting" greeting_template UIAgent_new)).

Definition tracked_agent : UIAgent obj :=
  (getSessionId sample_clock sample_iso (Some "c1") UIAgent_new).2.

(** ** Instances used by the examples

    The world is the list of events delivered so far. *)

Definition agent_record : value :=
  VObj [ ("id", VStr "a1"); ("name", VStr "builder"); ("status", VStr "running") ].

Definition working_instance : AutoWeave (list value) :=
  {| getSystemHealth := Some (λ w, (Returns (VObj [ ("status", VStr "healthy") ]), w));
     getMetrics := Some (λ w, (Returns (VObj [ ("cpu", VNum 12) ]), w));
     listAgents := Some (λ w, (Returns (VObj [ ("agents", VArr [agent_record]) ]), w));
     sendAGUIEvent := Some (λ event _ (w : list value), (Returns (), w ++ [event])) |}.

(** The providers fail, the sink works. *)
Definition failing_providers : AutoWeave (list value) :=
  {| getSystemHealth := Some (λ w, (Throws (Error "health service down"), w));
     getMetrics := Some (λ w, (Returns (VObj [ ("cpu", VNum 12) ]), w));
     listAgents := Some (λ w, (Throws (Error "agent manager down"), w));
     sendAGUIEvent := Some (λ event _ (w : list value), (Returns (), w ++ [event])) |}.

(** The providers work, the sink fails. *)
Definition failing_sink : AutoWeave (list value) :=
  {| getSystemHealth := getSystemHealth working_instance;
     getMetrics := getMetrics working_instance;
     listAgents := listAgents working_instance;
     sendAGUIEvent := Some (λ _ _ w, (Throws (Error "socket closed"), w)) |}.

(** Providers and sink both fail. *)
Definition failing_instance : AutoWeave (list value) :=
  {| getSystemHealth := getSystemHealth failing_providers;
     getMetrics := getMetrics failing_providers;
     listAgents := listAgents failing_providers;
     sendAGUIEvent := sendAGUIEvent failing_sink |}.

(** The providers reject without a reason: [Promise.reject()]. *)
Definition rejecting_providers : AutoWeave (list value) :=
  {| getSystemHealth := Some (λ w, (Throws (Thrown VUndef), w));
     getMetrics := getMetrics working_instance;
     listAgents := Some (λ w, (Throws (Thrown VUndef), w));
     sendAGUIEvent := sendAGUIEvent working_instance |}.

(** ** Specifications of flows *)

(** [post m st R E]: run from [st], the flow [m] returns a result and a
    state that satisfy [R], or throws an error in a state that satisfy [E]. *)
Definition post {W A} (m : flow A) (st : UIAgent obj * W)
    (R : A → UIAgent obj * W → Prop) (E : exn → UIAgent obj * W → Prop) : Prop :=
  match m st with
  | (Returns x, st') => R x st'
  | (Throws e, st') => E e st'
  end.

(** An error whose [message] can be read and printed. *)
Definition decent (e : exn) : Prop :=
  ∃ details s, error_message e = Returns details ∧ ToString details = Returns s.

(** The sink, if there is one, accepts every event. *)
Definition sink_accepts {W} (instance : option (AutoWeave W)) : Prop :=
  ∀ send event clientId w,
    instance ≫= sendAGUIEvent = Some send →
    ∃ w', send event clientId w = (Returns (), w').

(** The sink is there and refuses every event. *)
Definition sink_refuses {W} (instance : option (AutoWeave W)) : Prop :=
  ∃ send, instance ≫= sendAGUIEvent = Some send
          ∧ ∀ event clientId w, ∃ e w', send event clientId w = (Throws e, w').

(** What the providers throw is decent. *)
Definition throws_decent {W} (method : option (W → outcome value * W)) : Prop :=
  ∀ f w e w', method = Some f → f w = (Throws e, w') → decent e.

Definition providers_decent {W} (instance : option (AutoWeave W)) : Prop :=
  ∀ i, instance = Some i →
       throws_decent (getSystemHealth i)
       ∧ throws_decent (getMetrics i)
       ∧ throws_decent (listAgents i).

Definition has_display_error {W} (st : UIAgent obj * W) : Prop :=
  eventTemplates st.1 !! "display-error" = Some display_error.

(** [event] is the error display generated for [error]. *)
Definition error_display_of (error : exn) (event : value) : Prop :=
  get_path event [Key "type"] = Some (VStr "display")
  ∧ get_path event [Key "template"; Key "type"] = Some (VStr "error")
  ∧ get_path event [Key "agui_metadata"; Key "template_id"]
    = Some (VStr "display-error")
  ∧ ∀ message, error_message error = Returns (VStr message) →
      get_path event [Key "template"; Key "details"] = Some (VStr message).

(** ** Objects in a store

    To speak of sharing, objects live in a store and are held by
    reference.  A store is the list of the objects allocated so far, an
    object's address is its position, and allocation appends.  An array is an
    object whose keys are its indices. *)

Inductive hval :=
| HUndef
| HNull
| HBool (b : bool)
| HNum (n : Z)
| HStr (s : string)
| HRef (l : nat).

Record node := Node {
  is_array : bool;
  fields : list (string * hval);
}.

Abbreviation heap := (list node).

(** The value of an object with the members [props]: an array lists
    them, in the order of its indices. *)
Definition node_value (array : bool) (props : obj) : value :=
  if array then VArr props.*2 else VObj props.

(** The value that the store holds at [x], read down to depth [fuel]. *)
Fixpoint reify (fuel : nat) (h : heap) (x : hval) : option value :=
  match x with
  | HUndef => Some VUndef
  | HNull => Some VNull
  | HBool b => Some (VBool b)
  | HNum n => Some (VNum n)
  | HStr s => Some (VStr s)
  | HRef l =>
      match fuel with
      | O => None
      | S fuel' =>
          n ← h !! l;
          props ← mapM (λ '(key, y), pair key <$> reify fuel' h y) (fields n);
          Some (node_value (is_array n) props)
      end
  end.

(** [JSON.stringify(x)], as the value its text denotes.  A chain of more
    references than the store has objects passes through some object twice,
    so running out of fuel means a circular structure. *)
Definition JSON_stringify (h : heap) (x : hval) : outcome value :=
  match reify (S (length h)) h x with
  | Some v => Returns v
  | None => Throws (TypeError "Converting circular structure to JSON")
  end.

(** The objects that make up a value, allocated from address [base] on:
    those of the members first, the object itself last. *)
Definition build_fields {A} (key_of : nat → A → string) (val_of : A → value)
    (build : nat → value → hval * list node)
  : nat → nat → list A → list (string * hval) * list node :=
  fix go (i base : nat) (l : list A) : list (string * hval) * list node :=
    match l with
    | [] => ([], [])
    | x :: l' =>
        let '(r, nodes) := build base (val_of x) in
        let '(rs, nodes') := go (S i) (base + length nodes)%nat l' in
        ((key_of i x, r) :: rs, nodes ++ nodes')
    end.

Fixpoint build (base : nat) (v : value) : hval * list node :=
  match v with
  | VUndef => (HUndef, [])
  | VNull => (HNull, [])
  | VBool b => (HBool b, [])
  | VNum n => (HNum n, [])
  | VStr s => (HStr s, [])
  | VArr elems =>
      let '(fs, nodes) := build_fields (λ i _, pretty i) id build 0 base elems in
      (HRef (base + length nodes), nodes ++ [Node true fs])
  | VObj props =>
      let '(fs, nodes) := build_fields (λ _, fst) snd build 0 base props in
      (HRef (base + length nodes), nodes ++ [Node false fs])
  end.

(** A literal, or the result of [JSON.parse]: fresh objects. *)
Definition allocate (v : value) (h : heap) : hval * heap :=
  let '(x, nodes) := build (length h) v in (x, h ++ nodes).

Definition get_field (h : heap) (l i : nat) : option hval :=
  n ← h !! l; snd <$> fields n !! i.

Definition set_field (h : heap) (l i : nat) (y : hval) : heap :=
  alter (λ n, Node (is_array n) (alter (λ kv, (kv.1, y)) i (fields n))) l h.

(** [replaceVariables(obj, variables)] on the object at [l], in place.
    The keys are fixed when the loop starts; each value is read when its
    turn comes.  [walk_keys] is the loop, [visit_ref] the recursive call;
    recursion deeper than [fuel] overflows the stack. *)
Definition walk_keys (visit_ref : nat → heap → outcome heap)
    (variables : gmap string value) (l : nat)
  : list nat → heap → outcome heap :=
  fix loop (keys : list nat) (h : heap) : outcome heap :=
    match keys with
    | [] => Returns h
    | i :: keys' =>
        let! h' :=
          match get_field h l i with
          | Some (HStr str) =>
              let! str' := replaceStringVariables str variables in
              Returns (set_field h l i (HStr str'))
          | Some (HRef l') => visit_ref l' h
          | _ => Returns h
          end in
        loop keys' h'
    end.

Fixpoint replaceVariablesH (fuel : nat) (variables : gmap string value)
    (l : nat) (h : heap) : outcome heap :=
  match fuel with
  | O => Throws (RangeError "Maximum call stack size exceeded")
  | S fuel' =>
      walk_keys (replaceVariablesH fuel' variables) variables l
        (seq 0 (length (default [] (fields <$> h !! l)))) h
  end.

Definition processTemplateH (template : nat) (variables : gmap string value)
    (h : heap) : outcome (hval * heap) :=
  let! v := JSON_stringify h (HRef template) in
  let '(processedTemplate, h) := allocate (json_clone v) h in
  let! h :=
    match processedTemplate with
    | HRef l => replaceVariablesH (S (length h)) variables l h
    | _ => Returns h
    end in
  Returns (processedTemplate, h).

Fixpoint fields_set (fs : list (string * hval)) (key : string) (y : hval)
  : list (string * hval) :=
  match fs with
  | [] => [(key, y)]
  | (k, x) :: fs' =>
      if String.eqb k key then (k, y) :: fs' else (k, x) :: fields_set fs' key y
  end.

(** [event.key = y] *)
Definition set_propertyH (event : hval) (key : string) (y : hval) (h : heap) : heap :=
  match event with
  | HRef l => alter (λ n, Node (is_array n) (fields_set (fields n) key y)) l h
  | _ => h
  end.

Section Host_store.
Variable Date_now : nat → Z.
Variable toISOString : Z → string.

(** [generateEvent] with the registry holding its templates by reference. *)
Definition generateEventH (templateId : string) (variables : gmap string value)
    (clientId : option string) (st : UIAgent nat * heap)
  : outcome hval * (UIAgent nat * heap) :=
  let '(a, h) := st in
  match eventTemplates a !! templateId with
  | None => (Throws (Error ("Template '" +:+ templateId +:+ "' not found")), st)
  | Some template =>
      let '(timestamp, a) := new_Date_toISOString Date_now toISOString a in
      let '(sessionId, a) := getSessionId Date_now toISOString clientId a in
      let merged := mergedVariables (defaultVariables timestamp sessionId) variables in
      match processTemplateH template merged h with
      | Throws e => (Throws e, (a, h))
      | Returns (event, h) =>
          let '(generated_at, a) := new_Date_toISOString Date_now toISOString a in
          let '(metadata, h) :=
            allocate (agui_metadata templateId generated_at clientId) h in
          (Returns event, (a, set_propertyH event "agui_metadata" metadata h))
      end
  end.

End Host_store.

(** [addCustomTemplate(templateId, template)] with a template literal. *)
Definition addCustomTemplateH (templateId : string) (template : obj)
    (st : UIAgent nat * heap) : UIAgent nat * heap :=
  let '(a, h) := st in
  match allocate (VObj template) h with
  | (HRef l, h') => (addCustomTemplate templateId l a, h')
  | (_, h') => (a, h')
  end.

(** An agent whose store holds the greeting template and nothing else. *)
Definition stored_agent : UIAgent nat * heap :=
  addCustomTemplateH "greeting" greeting_template
    ({| eventTemplates := ∅; activeSessions := ∅; uiStates := ∅;
        logger := []; clock := 0 |}, []).

(** The locations that can be reached from [x]. *)
Inductive reach (h : heap) : hval → nat → Prop :=
| reach_here l : reach h (HRef l) l
| reach_field l n key y l' :
    h !! l = Some n →
    (key, y) ∈ fields n →
    reach h y l' →
    reach h (HRef l) l'.

(** Nesting depth of objects and arrays, and the number of objects. *)
Fixpoint depth (v : value) : nat :=
  match v with
  | VArr elems => S (foldr (λ x d, Nat.max (depth x) d) 0%nat elems)
  | VObj props => S (foldr (λ kv d, Nat.max (depth kv.2) d) 0%nat props)
  | _ => 0%nat
  end.

Fixpoint objects (v : value) : nat :=
  match v with
  | VArr elems => S (foldr (λ x n, objects x + n)%nat 0%nat elems)
  | VObj props => S (foldr (λ kv n, objects kv.2 + n)%nat 0%nat props)
  | _ => 0%nat
  end.

(** The elements of an array under their index keys, counting from [i]. *)
Fixpoint keyed (i : nat) (elems : list value) : obj :=
  match elems with
  | [] => []
  | x :: elems' => (pretty i, x) :: keyed (S i) elems'
  end.

(** The members of an array are under the keys 0, 1, 2, ... *)
Definition well_keyed (array : bool) (props : obj) : Prop :=
  if array then props = keyed 0 props.*2 else True.

(** The objects of the properties [props], allocated from [base] on. *)
Definition build_props (base : nat) (props : obj)
  : list (string * hval) * list node :=
  build_fields (λ _, fst) snd build 0 base props.

(** [mutated n h h']: [h'] comes from [h] by changing objects at addresses
    from [n] on, and by allocating. *)
Inductive mutated (n : nat) : heap → heap → Prop :=
| mutated_refl h : mutated n h h
| mutated_write h h' l o : mutated n h h' → (n ≤ l)%nat → mutated n h (<[l := o]> h')
| mutated_alloc h h' o : mutated n h h' → mutated n h (h' ++ [o]).

(** What a caller can see of a generation: the event as a value, or the
    error, and the agent. *)
Definition observe (res : outcome hval * (UIAgent nat * heap))
  : outcome value * UIAgent nat :=
  (match res.1 with
   | Returns event => JSON_stringify res.2.2 event
   | Throws e => Throws e
   end, res.2.1).

(** A store in which the object with the members [props] has just been
    allocated after [pre], and its address. *)
Definition store_of (pre : heap) (array : bool) (props : obj) (post : heap) : heap :=
  pre ++ (build_props (length pre) props).2
      ++ Node array (build_props (length pre) props).1 :: post.

Definition addr_of (pre : heap) (props : obj) : nat :=
  length pre + length (build_props (length pre) props).2.

(** The in-place walk from the root of [v] does to the store what [visit]
    does to [v]. *)
Definition walk_correct (variables : gmap string value) (fuel : nat) (v : value)
  : Prop :=
  ∀ pre post l,
    (build (length pre) v).1 = HRef l →
    replaceVariablesH fuel variables l (pre ++ (build (length pre) v).2 ++ post)
    = omap_outcome (λ v', pre ++ (build (length pre) v').2 ++ post)
        (visit variables v).

(** Every reference held by the object [o] is to an address from [n] on. *)
Definition refs_from (n : nat) (o : node) : Prop :=
  ∀ key l, (key, HRef l) ∈ fields o → (n ≤ l)%nat.

(** A reference to an address from [n] on, or no reference. *)
Definition fresh_root (n : nat) (x : hval) : Prop :=
  match x with HRef l => (n ≤ l)%nat | _ => True end.

(** ** Start-up and analytics *)

(** [loadCustomTemplates()] loads nothing yet. *)
Definition loadCustomTemplates {T} (a : UIAgent T) : UIAgent T :=
  log Debug "Custom templates loading skipped (not implemented)" a.

Definition initialize {T} (a : UIAgent T) : UIAgent T :=
  let a := log Info "Initializing UI Agent for AG-UI event generation..." a in
  let a := loadCustomTemplates a in
  log Success "UI Agent initialized successfully" a.

(** [k.startsWith(p)] *)
Definition startsWith (k p : string) : bool := String.prefix p k.

(** [Array.from(this.eventTemplates.keys())].  A [Map] lists its keys in
    insertion order, which the registry of this model does not keep; the
    analytics below only count keys, so the order does not show there. *)
Definition template_keys {T} (a : UIAgent T) : list string :=
  (map_to_list (eventTemplates a)).*1.

(** [keys.filter(k => k.startsWith(p)).length] *)
Definition count_prefixed (p : string) (keys : list string) : nat :=
  length (List.filter (λ k, startsWith k p) keys).

Module Stats.

Record event_types := {
  chat : nat;
  display : nat;
  input : nat;
  status : nat;
}.

Record t := {
  templates_available : nat;
  active_sessions : nat;
  ui_states : nat;
  types : event_types;
}.

End Stats.

Definition getEventGenerationStats {T} (a : UIAgent T) : Stats.t :=
  {| Stats.templates_available := size (eventTemplates a);
     Stats.active_sessions := size (activeSessions a);
     Stats.ui_states := size (uiStates a);
     Stats.types :=
       {| Stats.chat := count_prefixed "chat-" (template_keys a);
          Stats.display := count_prefixed "display-" (template_keys a);
          Stats.input := count_prefixed "input-" (template_keys a);
          Stats.status := count_prefixed "status-" (template_keys a) |} |}.

(** No [undefined] anywhere inside: what [JSON.stringify] keeps as it is. *)
Fixpoint no_undefined (v : value) : bool :=
  match v with
  | VUndef => false
  | VArr elems => forallb no_undefined elems
  | VObj props => forallb (λ kv, no_undefined kv.2) props
  | _ => true
  end.

(** No string inside holds an opening brace, so none holds a placeholder. *)
Fixpoint no_open_brace (v : value) : bool :=
  match v with
  | VStr s => negb (has_char "{" s)
  | VArr elems => forallb no_open_brace elems
  | VObj props => forallb (λ kv, no_open_brace kv.2) props
  | _ => true
  end.


(** The providers throw a string: [throw 'backend down']. *)
Definition text_throwing_providers : AutoWeave (list value) :=
  {| getSystemHealth := Some (λ w, (Throws (Thrown (VStr "backend down")), w));
     getMetrics := getMetrics working_instance;
     listAgents := Some (λ w, (Throws (Thrown (VStr "backend down")), w));
     sendAGUIEvent := sendAGUIEvent working_instance |}.

(** A template without placeholders, and a variable that cannot be printed. *)
Definition notice_template : obj :=
  [ ("type", VStr "chat");
    ("template", VObj [ ("text", VStr "Maintenance at noon");
                        ("tags", VArr [VStr "notice"; VUndef]) ]) ].

Definition unprintable : value := VObj [ ("toString", VNum 1) ].

(** * Properties *)

Example replace_ex1 :
  replaceStringVariables "Hi {{name}}, {{x-y}} {{__proto__}} {{n}}!"
    {[ "name" := VStr "Ann"; "x-y" := VStr "no"; "n" := VNum 42 ]}
  = Returns "Hi Ann, {{x-y}} [object Object] 42!".
Proof. vm_compute. reflexivity. Qed.

Example registry_size : size initializeEventTemplates = 11%nat.
Proof. vm_compute. reflexivity. Qed.

(** ** Facts about the scan *)

#[local] Arguments Ascii.eqb : simpl never.

Lemma obind_Returns_r {A} (m : outcome A) : obind m Returns = m.
Proof. by destruct m. Qed.

Lemma obind_assoc {A B C} (m : outcome A) (f : A → outcome B) (g : B → outcome C) :
  obind (obind m f) g = obind m (λ a, obind (f a) g).
Proof. by destruct m. Qed.

Lemma app_String c (s t : string) : String c s +:+ t = String c (s +:+ t).
Proof. reflexivity. Qed.

Lemma app_empty_l (s : string) : "" +:+ s = s.
Proof. reflexivity. Qed.

Lemma app_empty_r (s : string) : s +:+ "" = s.
Proof. induction s as [|c s IH]; [done | by rewrite app_String, IH]. Qed.

Lemma app_assoc_s (s t u : string) : (s +:+ t) +:+ u = s +:+ (t +:+ u).
Proof. induction s as [|c s IH]; [done | by rewrite !app_String, IH]. Qed.

Lemma length_app_s (s t : string) :
  String.length (s +:+ t) = (String.length s + String.length t)%nat.
Proof. induction s as [|c s IH]; [done | rewrite app_String; simpl; by rewrite IH]. Qed.

Lemma scan_word_spec (s : string) :
  let '(w, r) := scan_word s in
  s = w +:+ r ∧ is_word w = true
  ∧ match r with String c _ => is_word_char c = false | "" => True end.
Proof.
  induction s as [|c s IH]; simpl; [done |].
  destruct (is_word_char c) eqn:Hc.
  - destruct (scan_word s) as [w r]. destruct IH as (-> & Hw & Hr).
    rewrite app_String. simpl. by rewrite Hc, Hw.
  - done.
Qed.

(** The greedy run stops at the first character that is not a word
    character, whatever comes after it. *)
Lemma scan_word_app (w r : string) :
  is_word w = true →
  match r with String c _ => is_word_char c = false | "" => True end →
  scan_word (w +:+ r) = (w, r).
Proof.
  intros Hw Hr. induction w as [|c w IH].
  - rewrite app_empty_l. destruct r as [|c r]; [done |]. simpl. by rewrite Hr.
  - rewrite app_String. simpl in *. apply andb_prop in Hw as [Hc Hw].
    by rewrite Hc, IH.
Qed.

Lemma strip_prefix_Some (p s r : string) :
  strip_prefix p s = Some r ↔ s = p +:+ r.
Proof.
  revert s. induction p as [|a p IH]; intros s.
  - rewrite app_empty_l. simpl. split; congruence.
  - rewrite app_String. destruct s as [|b s]; simpl; [split; congruence |].
    destruct (Ascii.eqb_spec a b) as [->|Hab].
    + rewrite IH. split; congruence.
    + split; congruence.
Qed.

Lemma strip_prefix_app (p r : string) : strip_prefix p (p +:+ r) = Some r.
Proof. by apply strip_prefix_Some. Qed.

Lemma match_placeholder_Some (s name : string) :
  match_placeholder s = Some name →
  is_identifier name = true
  ∧ ∃ rest, s = "{{" +:+ name +:+ "}}" +:+ rest.
Proof.
  unfold match_placeholder. intros Hm.
  apply bind_Some in Hm as (t & Ht & Hm).
  apply strip_prefix_Some in Ht as ->.
  pose proof (scan_word_spec t) as Hspec.
  destruct (scan_word t) as [w r]. destruct Hspec as (-> & _ & _).
  destruct (is_identifier w) eqn:Hid; [|done].
  apply bind_Some in Hm as (rest & Hr & [= <-]).
  apply strip_prefix_Some in Hr as ->.
  split; [done |]. by exists rest.
Qed.

Lemma match_placeholder_exact (name post : string) :
  is_identifier name = true →
  match_placeholder ("{{" +:+ name +:+ "}}" +:+ post) = Some name.
Proof.
  intros Hid. unfold match_placeholder.
  rewrite strip_prefix_app. cbn [mbind option_bind].
  rewrite scan_word_app; [| by destruct name | done].
  by rewrite Hid, strip_prefix_app.
Qed.

(** Passing over the rest of a match. *)
Lemma replace_scan_skip vars (s1 s2 : string) :
  replace_scan vars (String.length s1) (s1 +:+ s2) = replace_scan vars 0 s2.
Proof. induction s1 as [|c s1 IH]; [done | rewrite app_String; apply IH]. Qed.

(** At a placeholder the callback is consulted and the scan resumes
    right after the closing braces. *)
Lemma replaceStringVariables_placeholder vars (name post : string) :
  is_identifier name = true →
  replaceStringVariables ("{{" +:+ name +:+ "}}" +:+ post) vars
  = let! r := replacer vars name in
    let! rest := replaceStringVariables post vars in
    Returns (r +:+ rest).
Proof.
  intros Hid. unfold replaceStringVariables.
  pose proof (match_placeholder_exact name post Hid) as Hm.
  change ("{{" +:+ name +:+ "}}" +:+ post)
    with (String "{" ("{" +:+ name +:+ "}}" +:+ post)) in *.
  cbn [replace_scan]. rewrite Hm.
  replace ("{" +:+ name +:+ "}}" +:+ post) with (("{" +:+ name +:+ "}}") +:+ post)
    by (by rewrite !app_assoc_s).
  replace (String.length name + 3)%nat with (String.length ("{" +:+ name +:+ "}}")).
  - by rewrite replace_scan_skip.
  - rewrite app_String, app_empty_l. simpl. rewrite length_app_s. simpl. lia.
Qed.

Lemma strip_close_before_open (r X : string) :
  is_Some (strip_prefix "}}" (r +:+ "{{" +:+ X)) ↔ is_Some (strip_prefix "}}" r).
Proof.
  destruct r as [|c1 [|c2 r]]; rewrite ?app_String, ?app_empty_l; simpl.
  - split; intros [? ?]; done.
  - destruct (Ascii.eqb "}" c1); split; intros [? ?]; done.
  - destruct (Ascii.eqb "}" c1), (Ascii.eqb "}" c2); split; intros [? ?]; eauto; done.
Qed.

Lemma strip_open_before_open (pre X : string) :
  strip_prefix "{{" pre = None →
  pre ≠ "" →
  match strip_prefix "{{" (pre +:+ "{{" +:+ X) with
  | Some t => ∃ r, scan_word t = ("", r)
  | None => True
  end.
Proof.
  intros Hnone Hne.
  destruct pre as [|c1 [|c2 pre]]; [done | |];
    rewrite ?app_String, ?app_empty_l; simpl in *.
  - destruct (Ascii.eqb "{" c1); [|done]. simpl. eauto.
  - destruct (Ascii.eqb "{" c1); [|done].
    destruct (Ascii.eqb "{" c2); done.
Qed.

(** No match straddles the start of a later ["{{"]: a match that begins
    before it also ends before it. *)
Lemma match_placeholder_before_open (pre X : string) :
  pre ≠ "" →
  match_placeholder (pre +:+ "{{" +:+ X) = match_placeholder pre.
Proof.
  intros Hne. unfold match_placeholder.
  destruct (strip_prefix "{{" pre) as [t|] eqn:Ht.
  - apply strip_prefix_Some in Ht as ->.
    rewrite app_assoc_s, strip_prefix_app. cbn [mbind option_bind].
    pose proof (scan_word_spec t) as Hspec.
    destruct (scan_word t) as [w r]. destruct Hspec as (-> & Hw & Hr).
    rewrite app_assoc_s, scan_word_app; [| done |].
    + destruct (is_identifier w); [|done].
      pose proof (strip_close_before_open r X) as Hiff.
      destruct (strip_prefix "}}" (r +:+ "{{" +:+ X)) as [?|] eqn:H1,
               (strip_prefix "}}" r) as [?|] eqn:H2; try done.
      * destruct Hiff as [Hiff _]. destruct Hiff as [? ?]; [eauto | done].
      * destruct Hiff as [_ Hiff]. destruct Hiff as [? ?]; [eauto | done].
    + destruct r; [done |]. by rewrite app_String.
  - pose proof (strip_open_before_open pre X Ht Hne) as H.
    destruct (strip_prefix "{{" (pre +:+ "{{" +:+ X)) as [t|]; [|done].
    destruct H as [r Hr]. cbn [mbind option_bind]. by rewrite Hr.
Qed.

Lemma match_placeholder_length (s name : string) :
  match_placeholder s = Some name →
  (String.length name + 4 ≤ String.length s)%nat.
Proof.
  intros (_ & rest & ->)%match_placeholder_Some.
  rewrite !length_app_s. simpl. lia.
Qed.

(** The scan of what precedes a ["{{"] does not depend on what follows. *)
Lemma replace_scan_before_open vars (pre X : string) (k : nat) :
  (k ≤ String.length pre)%nat →
  replace_scan vars k (pre +:+ "{{" +:+ X)
  = let! a := replace_scan vars k pre in
    let! b := replace_scan vars 0 ("{{" +:+ X) in
    Returns (a +:+ b).
Proof.
  pose proof (λ p, match_placeholder_before_open p X) as Hm.
  remember ("{{" +:+ X) as Y eqn:HY. clear HY.
  revert k. induction pre as [|c pre IH]; intros k Hk.
  - simpl in Hk. replace k with 0%nat by lia.
    rewrite app_empty_l. cbn [replace_scan obind].
    by destruct (replace_scan vars 0 Y).
  - destruct k as [|k].
    + specialize (Hm (String c pre)).
      rewrite app_String in *. cbn [replace_scan]. rewrite Hm by done.
      destruct (match_placeholder (String c pre)) as [name|] eqn:Hname.
      * apply match_placeholder_length in Hname. simpl in Hname.
        rewrite IH by lia.
        destruct (replacer vars name); [|done]. cbn [obind].
        destruct (replace_scan vars _ pre); [|done]. cbn [obind].
        destruct (replace_scan vars 0 Y); [|done]. cbn [obind].
        by rewrite app_assoc_s.
      * rewrite IH by lia.
        destruct (replace_scan vars 0 pre); [|done]. cbn [obind].
        by destruct (replace_scan vars 0 Y).
    + rewrite app_String. cbn [replace_scan]. apply IH. simpl in Hk. lia.
Qed.

(** Text without an opening brace is copied. *)
Lemma replace_scan_no_open vars (s post : string) :
  has_char "{" s = false →
  replace_scan vars 0 (s +:+ post)
  = let! b := replace_scan vars 0 post in Returns (s +:+ b).
Proof.
  induction s as [|c s IH]; intros Hs.
  - rewrite app_empty_l. by destruct (replace_scan vars 0 post).
  - simpl in Hs. apply orb_false_elim in Hs as [Hc Hs].
    rewrite app_String. cbn [replace_scan].
    unfold match_placeholder. cbn [strip_prefix]. rewrite Hc.
    cbn [mbind option_bind].
    rewrite IH by done. by destruct (replace_scan vars 0 post).
Qed.

(** An occurrence of a placeholder, anywhere in a string. *)
Lemma replaceStringVariables_occurrence vars (pre name post : string) :
  is_identifier name = true →
  replaceStringVariables (pre +:+ "{{" +:+ name +:+ "}}" +:+ post) vars
  = let! a := replaceStringVariables pre vars in
    let! r := replacer vars name in
    let! b := replaceStringVariables post vars in
    Returns (a +:+ r +:+ b).
Proof.
  intros Hid. unfold replaceStringVariables at 1 2.
  rewrite replace_scan_before_open by lia.
  pose proof (replaceStringVariables_placeholder vars name post Hid) as Hp.
  unfold replaceStringVariables at 1 in Hp. rewrite Hp.
  destruct (replace_scan vars 0 pre); [|done]. cbn [obind].
  destruct (replacer vars name); [|done]. cbn [obind].
  by destruct (replaceStringVariables post vars).
Qed.

(** Only identifiers are ever looked up, so binding any other name
    changes nothing. *)
Lemma is_identifier_word (s : string) : is_identifier s = true → is_word s = true.
Proof. by destruct s. Qed.

Lemma replace_scan_insert_other vars (name : string) (v : value) (k : nat) (s : string) :
  is_word name = false →
  replace_scan (<[name:=v]> vars) k s = replace_scan vars k s.
Proof.
  intros Hname. revert k. induction s as [|c s IH]; intros k; [done |].
  destruct k as [|k]; cbn [replace_scan]; [|apply IH].
  destruct (match_placeholder (String c s)) as [n|] eqn:Hn.
  - apply match_placeholder_Some in Hn as [Hid%is_identifier_word _].
    unfold replacer. rewrite lookup_insert_ne by congruence.
    by rewrite IH.
  - by rewrite IH.
Qed.

Section value_induction.
Variable P : value → Prop.
Hypothesis Hundef : P VUndef.
Hypothesis Hnull : P VNull.
Hypothesis Hbool : ∀ b, P (VBool b).
Hypothesis Hnum : ∀ n, P (VNum n).
Hypothesis Hstr : ∀ s, P (VStr s).
Hypothesis Harr : ∀ elems, Forall P elems → P (VArr elems).
Hypothesis Hobj : ∀ props, Forall (λ kv, P kv.2) props → P (VObj props).

Fixpoint value_induction (v : value) : P v :=
    match v with
    | VUndef => Hundef
    | VNull => Hnull
    | VBool b => Hbool b
    | VNum n => Hnum n
    | VStr s => Hstr s
    | VArr elems =>
        Harr elems
          ((fix go (l : list value) : Forall P l :=
              match l with
              | [] => Forall_nil_2 P
              | x :: l' => Forall_cons_2 P x l' (value_induction x) (go l')
              end) elems)
    | VObj props =>
        Hobj props
          ((fix go (l : obj) : Forall (λ kv, P kv.2) l :=
              match l with
              | [] => Forall_nil_2 _
              | kv :: l' => Forall_cons_2 _ kv l' (value_induction kv.2) (go l')
              end) props)
    end.
End value_induction.

Lemma for_each_Returns {A B} (f : A → outcome B) (l : list A) (l' : list B) :
  for_each f l = Returns l' ↔ Forall2 (λ x y, f x = Returns y) l l'.
Proof.
  revert l'. induction l as [|x l IH]; intros l'; simpl.
  - split; [intros [= <-]; constructor | by inversion 1].
  - split.
    + destruct (f x) as [y|] eqn:Hx; [|done]. simpl.
      destruct (for_each f l) as [ys|] eqn:Hl; [|done]. simpl.
      intros [= <-]. constructor; [done | by apply IH].
    + inversion 1 as [|? y ? ys Hx Hl]; subst. rewrite Hx. simpl.
      apply IH in Hl. by rewrite Hl.
Qed.

Lemma for_each_total {A B} (f : A → outcome B) (l : list A) :
  Forall (λ x, ∃ y, f x = Returns y) l → ∃ l', for_each f l = Returns l'.
Proof.
  induction 1 as [|x l [y Hy] _ [ys Hys]]; simpl; [by eexists |].
  rewrite Hy. simpl. rewrite Hys. simpl. by eexists.
Qed.

Lemma replaceVariables_obj vars (props : obj) :
  replaceVariables vars (VObj props)
  = omap_outcome VObj
      (for_each (λ '(key, x), omap_outcome (pair key) (visit vars x)) props).
Proof. reflexivity. Qed.

Lemma replaceVariables_arr vars (elems : list value) :
  replaceVariables vars (VArr elems) = omap_outcome VArr (for_each (visit vars) elems).
Proof. reflexivity. Qed.

Lemma omap_outcome_Returns {A B} (f : A → B) (m : outcome A) (y : B) :
  omap_outcome f m = Returns y ↔ ∃ x, m = Returns x ∧ y = f x.
Proof.
  destruct m as [x|e]; simpl; split.
  - intros [= <-]. eauto.
  - by intros (? & [= <-] & ->).
  - done.
  - by intros (? & ? & _).
Qed.

(** The walk keeps keys and positions: what sits under a key afterwards is
    the visited version of what sat there before. *)
Lemma obj_get_visited vars (props props' : obj) (key : string) (x : value) :
  Forall2 (λ kv kv', (let '(key, x) := kv in omap_outcome (pair key) (visit vars x))
                     = Returns kv') props props' →
  obj_get props key = Some x →
  ∃ x', visit vars x = Returns x' ∧ obj_get props' key = Some x'.
Proof.
  induction 1 as [|[k y] [k' y'] props props' Hkv _ IH]; simpl; [done |].
  apply omap_outcome_Returns in Hkv as (z & Hz & [= -> ->]).
  destruct (String.eqb k key); [intros [= <-]; eauto | done].
Qed.

Lemma visit_path_node vars (x x' : value) (p : list step) (y : value) :
  visit vars x = Returns x' →
  get_path x p = Some y →
  ∃ y', visit vars y = Returns y' ∧ get_path x' p = Some y'.
Proof.
  revert x x'. induction p as [|[key|i] p IH]; intros x x' Hv Hp.
  - injection Hp as <-. eauto.
  - destruct x as [| | | | |?|props]; try done. simpl in Hp.
    apply bind_Some in Hp as (x0 & Hx0 & Hp).
    cbn [visit] in Hv. rewrite replaceVariables_obj in Hv.
    apply omap_outcome_Returns in Hv as (props' & Hm & ->).
    apply for_each_Returns in Hm.
    destruct (obj_get_visited _ _ _ _ _ Hm Hx0) as (x0' & Hv0 & Hx0').
    destruct (IH _ _ Hv0 Hp) as (y' & Hy' & Hp').
    exists y'. split; [done |]. simpl. by rewrite Hx0'.
  - destruct x as [| | | | |elems|?]; try done. simpl in Hp.
    apply bind_Some in Hp as (x0 & Hx0 & Hp).
    cbn [visit] in Hv. rewrite replaceVariables_arr in Hv.
    apply omap_outcome_Returns in Hv as (elems' & Hm & ->).
    apply for_each_Returns in Hm.
    destruct (Forall2_lookup_l _ _ _ _ _ Hm Hx0) as (x0' & Hx0' & Hv0).
    destruct (IH _ _ Hv0 Hp) as (y' & Hy' & Hp').
    exists y'. split; [done |]. simpl. by rewrite Hx0'.
Qed.

Lemma visit_path vars (x x' : value) (p : list step) (s : string) :
  visit vars x = Returns x' →
  get_path x p = Some (VStr s) →
  ∃ s', replaceStringVariables s vars = Returns s' ∧ get_path x' p = Some (VStr s').
Proof.
  intros Hv Hp. destruct (visit_path_node _ _ _ _ _ Hv Hp) as (y' & Hy' & Hp').
  simpl in Hy'. apply omap_outcome_Returns in Hy' as (s' & Hs & ->). eauto.
Qed.

(** *** The walk returns when every variable prints *)

Lemma replacer_total vars (name : string) :
  printable vars → ∃ r, replacer vars name = Returns r.
Proof.
  intros Hp. unfold replacer.
  destruct (vars !! name) as [v|] eqn:Hv.
  - destruct (Hp _ _ Hv) as [s Hs]. destruct v; eauto.
  - destruct (Object_prototype_lookup name); eauto.
Qed.

Lemma replace_scan_total vars (k : nat) (s : string) :
  printable vars → ∃ s', replace_scan vars k s = Returns s'.
Proof.
  intros Hp. revert k. induction s as [|c s IH]; intros k; [by eexists |].
  destruct k as [|k]; cbn [replace_scan]; [|apply IH].
  destruct (match_placeholder (String c s)) as [name|].
  - destruct (replacer_total vars name Hp) as [r ->].
    destruct (IH (String.length name + 3)%nat) as [rest ->]. by eexists.
  - destruct (IH 0%nat) as [rest ->]. by eexists.
Qed.

Lemma visit_total vars (x : value) :
  printable vars → ∃ x', visit vars x = Returns x'.
Proof.
  intros Hp. induction x as [| | | | s | elems IH | props IH] using value_induction;
    try (by eexists).
  - simpl. unfold replaceStringVariables.
    destruct (replace_scan_total vars 0 s Hp) as [s' ->]. by eexists.
  - cbn [visit]. rewrite replaceVariables_arr.
    destruct (for_each_total (visit vars) elems IH) as [l' ->]. by eexists.
  - cbn [visit]. rewrite replaceVariables_obj.
    destruct (for_each_total (λ '(key, x), omap_outcome (pair key) (visit vars x)) props)
      as [l' ->]; [|by eexists].
    eapply Forall_impl; [exact IH |].
    intros [k y] [y' Hy]. simpl in *. rewrite Hy. by eexists.
Qed.

(** *** Cloning keeps every string where it is *)

Lemma obj_get_clone (props : obj) (key : string) (x : value) :
  obj_get props key = Some x →
  x ≠ VUndef →
  obj_get (omap (λ '(key, x), match x with
                              | VUndef => None
                              | _ => Some (key, json_clone x)
                              end) props) key = Some (json_clone x).
Proof.
  intros Hget Hx. induction props as [|[k y] props IH]; simpl in *; [done |].
  destruct (String.eqb k key) eqn:Hk.
  - injection Hget as ->. destruct x; try done; simpl; by rewrite Hk.
  - destruct y; simpl; rewrite ?Hk; by apply IH.
Qed.

Lemma json_clone_path_node (v : value) (p : list step) (y : value) :
  get_path v p = Some y →
  y ≠ VUndef →
  get_path (json_clone v) p = Some (json_clone y).
Proof.
  intros Hp Hy. revert v Hp. induction p as [|[key|i] p IH]; intros v Hp.
  - by injection Hp as ->.
  - destruct v; try done. simpl in *.
    apply bind_Some in Hp as (x & Hx & Hp).
    rewrite (obj_get_clone _ _ x Hx); [by apply IH |].
    intros ->. destruct p as [|[] ?]; [|done..]. by injection Hp as <-.
  - destruct v; try done. simpl in *.
    apply bind_Some in Hp as (x & Hx & Hp).
    rewrite list_lookup_fmap, Hx. simpl.
    destruct x; try (by apply IH).
    destruct p as [|[] ?]; [|done..]. by injection Hp as <-.
Qed.

Lemma json_clone_path (v : value) (p : list step) (s : string) :
  get_path v p = Some (VStr s) →
  get_path (json_clone v) p = Some (VStr s).
Proof. intros Hp. by apply (json_clone_path_node v p (VStr s)). Qed.


(** ** Event generation *)

Section Generation.
Variable Date_now : nat → Z.
Variable toISOString : Z → string.


(** What a tracked client gets: the stored id and a refreshed record on a
    hit; on a miss a record created from three clock readings and then
    refreshed by a fourth. *)
Lemma getSessionId_tracked {T} (c : string) (a : UIAgent T) :
  c ≠ "" →
  getSessionId Date_now toISOString (Some c) a
  = match activeSessions a !! c with
    | Some s =>
        (session_id s,
         with_sessions (tick a)
           (<[c := refreshed s (toISOString (Date_now (clock a)))]>
              (activeSessions a)))
    | None =>
        let sid := "session-" +:+ c +:+ "-" +:+ pretty (Date_now (clock a)) in
        (sid,
         with_sessions (tick (tick (tick (tick a))))
           (<[c := {| session_id := sid;
                      created_at := toISOString (Date_now (S (clock a)));
                      last_activity := toISOString (Date_now (S (S (S (clock a))))) |}]>
              (activeSessions a)))
    end.
Proof.
  intros Hc. destruct c as [|c0 c]; [done |].
  unfold getSessionId, new_Date_toISOString, now.
  destruct (activeSessions a !! String c0 c) as [s|] eqn:Hs; simpl.
  - rewrite (alter_alt_Some _ _ _ _ Hs). by rewrite lookup_insert_eq.
  - rewrite alter_insert_eq, lookup_insert_eq. done.
Qed.

Lemma getSessionId_templates {T} (clientId : option string) (a : UIAgent T) :
  eventTemplates (getSessionId Date_now toISOString clientId a).2 = eventTemplates a.
Proof.
  destruct clientId as [[|c0 c]|]; try done.
  rewrite getSessionId_tracked by done.
  by destruct (activeSessions a !! String c0 c).
Qed.

(** A registered template: the defaults are computed, merged under the
    caller's variables, and the processed template is stamped. *)
Lemma generateEvent_registered templateId variables clientId (a : UIAgent obj)
    (template : obj) :
  eventTemplates a !! templateId = Some template →
  generateEvent Date_now toISOString templateId variables clientId a
  = let timestamp := toISOString (Date_now (clock a)) in
    let '(sessionId, a1) := getSessionId Date_now toISOString clientId (tick a) in
    let merged := mergedVariables (defaultVariables timestamp sessionId) variables in
    match processTemplate template merged with
    | Throws e => (Throws e, a1)
    | Returns event =>
        (Returns (set_property event "agui_metadata"
                    (agui_metadata templateId (toISOString (Date_now (clock a1)))
                       clientId)), tick a1)
    end.
Proof.
  intros Ht. unfold generateEvent. rewrite Ht.
  unfold new_Date_toISOString, now. simpl.
  destruct (getSessionId Date_now toISOString clientId (tick a)) as [sid a1].
  by destruct (processTemplate _ _).
Qed.

Lemma defaultVariables_dom (timestamp sessionId : string) :
  dom (defaultVariables timestamp sessionId)
  = {[ "timestamp"; "agent_name"; "session_id" ]}.
Proof.
  unfold defaultVariables. rewrite !dom_insert_L, dom_singleton_L. set_solver.
Qed.

(** C1.  A template id that the registry does not hold makes
    [generateEvent] throw the template-not-found error before anything else
    happens: no event comes back, and the agent is exactly as it was, so the
    session map and the UI-state map are unchanged and no session record was
    created for the client. *)
Theorem generateEvent_unknown_template templateId variables clientId
    (a : UIAgent obj) :
  eventTemplates a !! templateId = None →
  generateEvent Date_now toISOString templateId variables clientId a
  = (Throws (Error ("Template '" +:+ templateId +:+ "' not found")), a).
Proof. intros Ht. unfold generateEvent. by rewrite Ht. Qed.

(** C3.  The variable set handed to [processTemplate] is the defaults
    [timestamp], [agent_name] and [session_id] merged under the caller's
    variables: a key the caller supplies has the caller's value, any other
    key has its default. *)
Theorem generateEvent_merge_caller_wins templateId variables clientId
    (a : UIAgent obj) (template : obj) :
  eventTemplates a !! templateId = Some template →
  ∃ timestamp sessionId generated_at,
    let defaults := defaultVariables timestamp sessionId in
    let merged := mergedVariables defaults variables in
    timestamp = toISOString (Date_now (clock a))
    ∧ sessionId = (getSessionId Date_now toISOString clientId (tick a)).1
    ∧ dom defaults = {[ "timestamp"; "agent_name"; "session_id" ]}
    ∧ (generateEvent Date_now toISOString templateId variables clientId a).1
      = omap_outcome
          (λ event, set_property event "agui_metadata"
                      (agui_metadata templateId generated_at clientId))
          (processTemplate template merged)
    ∧ (∀ key v, variables !! key = Some v → merged !! key = Some v)
    ∧ (∀ key, variables !! key = None → merged !! key = defaults !! key).
Proof.
  intros Ht. rewrite (generateEvent_registered _ _ _ _ _ Ht). simpl.
  destruct (getSessionId Date_now toISOString clientId (tick a)) as [sid a1] eqn:Hsid.
  exists (toISOString (Date_now (clock a))), sid, (toISOString (Date_now (clock a1))).
  cbn zeta. split_and!.
  - done.
  - done.
  - apply defaultVariables_dom.
  - by destruct (processTemplate _ _).
  - intros key v Hv. unfold mergedVariables. by apply lookup_union_Some_l.
  - intros key Hv. unfold mergedVariables. by apply lookup_union_r.
Qed.

Lemma getSessionId_hit {T} (c : string) (a : UIAgent T) (s : session) :
  c ≠ "" →
  activeSessions a !! c = Some s →
  (getSessionId Date_now toISOString (Some c) a).1 = session_id s.
Proof. intros Hc Hs. rewrite getSessionId_tracked by done. by rewrite Hs. Qed.

Lemma getSessionId_stored {T} (c : string) (a : UIAgent T) :
  c ≠ "" →
  ∃ s, activeSessions (getSessionId Date_now toISOString (Some c) a).2 !! c = Some s
       ∧ session_id s = (getSessionId Date_now toISOString (Some c) a).1.
Proof.
  intros Hc. rewrite getSessionId_tracked by done.
  destruct (activeSessions a !! c) as [s|]; simpl;
    rewrite lookup_insert_eq; by eexists.
Qed.

(** C4, as the code has it.  For a non-empty connection identifier,
    [getSessionId] returns the stored session id when a record exists and
    otherwise creates one whose id is [session-{connectionId}-{now}]; either
    way the record's last-activity time is set from the latest clock
    reading; and two [generateEvent] calls in a row for that identifier
    use the same [session_id] in their defaults. *)
Theorem getSessionId_stable (c : string) (a : UIAgent obj) :
  c ≠ "" →
  (∀ s, activeSessions a !! c = Some s →
     (getSessionId Date_now toISOString (Some c) a).1 = session_id s
     ∧ activeSessions (getSessionId Date_now toISOString (Some c) a).2
       = <[c := refreshed s (toISOString (Date_now (clock a)))]> (activeSessions a))
  ∧ (activeSessions a !! c = None →
     let sid := "session-" +:+ c +:+ "-" +:+ pretty (Date_now (clock a)) in
     (getSessionId Date_now toISOString (Some c) a).1 = sid
     ∧ activeSessions (getSessionId Date_now toISOString (Some c) a).2
       = <[c := {| session_id := sid;
                   created_at := toISOString (Date_now (S (clock a)));
                   last_activity := toISOString (Date_now (S (S (S (clock a))))) |}]>
           (activeSessions a))
  ∧ (∀ id1 id2 vars1 vars2 template1 template2,
       eventTemplates a !! id1 = Some template1 →
       eventTemplates a !! id2 = Some template2 →
       let '(r1, a1) := generateEvent Date_now toISOString id1 vars1 (Some c) a in
       let '(r2, _) := generateEvent Date_now toISOString id2 vars2 (Some c) a1 in
       ∃ sessionId timestamp1 timestamp2 generated1 generated2,
         r1 = omap_outcome
                (λ event, set_property event "agui_metadata"
                            (agui_metadata id1 generated1 (Some c)))
                (processTemplate template1
                   (mergedVariables (defaultVariables timestamp1 sessionId) vars1))
         ∧ r2 = omap_outcome
                  (λ event, set_property event "agui_metadata"
                              (agui_metadata id2 generated2 (Some c)))
                  (processTemplate template2
                     (mergedVariables (defaultVariables timestamp2 sessionId) vars2))).
Proof.
  intros Hc. split_and!.
  - intros s Hs. rewrite getSessionId_tracked by done. by rewrite Hs.
  - intros Hs. rewrite getSessionId_tracked by done. by rewrite Hs.
  - intros id1 id2 vars1 vars2 template1 template2 Ht1 Ht2.
    rewrite (generateEvent_registered _ _ _ _ _ Ht1). cbn zeta.
    destruct (getSessionId_stored c (tick a) Hc) as (s & Hs & Hid).
    pose proof (getSessionId_templates (Some c) (tick a)) as Htpl.
    destruct (getSessionId Date_now toISOString (Some c) (tick a)) as [sid a1]. simpl in *. subst sid.
    set (merged1 := mergedVariables _ vars1).
    assert (∀ a' : UIAgent obj,
              eventTemplates a' = eventTemplates a →
              activeSessions a' = activeSessions a1 →
              ∃ timestamp2 generated2,
                (generateEvent Date_now toISOString id2 vars2 (Some c) a').1
                = omap_outcome
                    (λ event, set_property event "agui_metadata"
                                (agui_metadata id2 generated2 (Some c)))
                    (processTemplate template2
                       (mergedVariables (defaultVariables timestamp2 (session_id s))
                          vars2))) as Hsecond.
    { intros a' Het Has.
      rewrite (generateEvent_registered _ _ _ a' template2) by (by rewrite Het).
      cbn zeta.
      assert ((getSessionId Date_now toISOString (Some c) (tick a')).1 = session_id s) as Hsid.
      { apply getSessionId_hit; [done |]. simpl. by rewrite Has. }
      destruct (getSessionId Date_now toISOString (Some c) (tick a')) as [sid' a2]. simpl in Hsid. subst sid'.
      exists (toISOString (Date_now (clock a'))), (toISOString (Date_now (clock a2))).
      by destruct (processTemplate template2 _). }
    destruct (processTemplate template1 merged1) as [event|e] eqn:Hp.
    + destruct (Hsecond (tick a1)) as (ts2 & g2 & Hr2); [done | done |].
      destruct (generateEvent Date_now toISOString id2 vars2 (Some c) (tick a1)) as [r2 a2].
      exists (session_id s), (toISOString (Date_now (clock a))), ts2,
        (toISOString (Date_now (clock a1))), g2.
      subst merged1. rewrite Hp. done.
    + destruct (Hsecond a1) as (ts2 & g2 & Hr2); [done | done |].
      destruct (generateEvent Date_now toISOString id2 vars2 (Some c) a1) as [r2 a2].
      exists (session_id s), (toISOString (Date_now (clock a))), ts2, "", g2.
      subst merged1. rewrite Hp. done.
Qed.

End Generation.

Lemma generateEvent_unknown_template_witness :
  eventTemplates UIAgent_new !! "nonexistent-template" = None
  ∧ generateEvent sample_clock sample_iso "nonexistent-template" ∅ (Some "c1")
      UIAgent_new
    = (Throws (Error "Template 'nonexistent-template' not found"), UIAgent_new).
Proof.
  split; [vm_compute; reflexivity |].
  apply (generateEvent_unknown_template sample_clock sample_iso
           "nonexistent-template" ∅ (Some "c1") UIAgent_new).
  vm_compute; reflexivity.
Defined.

Lemma generateEvent_merge_caller_wins_witness :
  ∃ timestamp sessionId generated_at,
    let defaults := defaultVariables timestamp sessionId in
    let merged := mergedVariables defaults {[ "agent_name" := VStr "Weaver" ]} in
    timestamp = sample_iso (sample_clock 0)
    ∧ sessionId = (getSessionId sample_clock sample_iso (Some "c1")
                     (tick UIAgent_new)).1
    ∧ dom defaults = {[ "timestamp"; "agent_name"; "session_id" ]}
    ∧ (generateEvent sample_clock sample_iso "chat-welcome"
         {[ "agent_name" := VStr "Weaver" ]} (Some "c1") UIAgent_new).1
      = omap_outcome
          (λ event, set_property event "agui_metadata"
                      (agui_metadata "chat-welcome" generated_at (Some "c1")))
          (processTemplate chat_welcome merged)
    ∧ (∀ key v, ({[ "agent_name" := VStr "Weaver" ]} : gmap string value) !! key = Some v →
         merged !! key = Some v)
    ∧ (∀ key, ({[ "agent_name" := VStr "Weaver" ]} : gmap string value) !! key = None →
         merged !! key = defaults !! key).
Proof.
  apply (generateEvent_merge_caller_wins sample_clock sample_iso "chat-welcome"
           {[ "agent_name" := VStr "Weaver" ]} (Some "c1") UIAgent_new chat_welcome).
  vm_compute; reflexivity.
Defined.

Example generateEvent_caller_wins_ex :
  (λ r, match r with
        | Returns event => get_path event [Key "template"; Key "sender"]
        | Throws _ => None
        end)
    (generateEvent sample_clock sample_iso "chat-welcome"
       {[ "agent_name" := VStr "Weaver" ]} (Some "c1") UIAgent_new).1
  = Some (VStr "Weaver").
Proof. vm_compute. reflexivity. Qed.

Lemma getSessionId_stable_witness :
  "c1" ≠ ""
  ∧ activeSessions UIAgent_new !! "c1" = None
  ∧ (getSessionId sample_clock sample_iso (Some "c1") UIAgent_new).1
    = "session-c1-1700000000000"
  ∧ activeSessions (getSessionId sample_clock sample_iso (Some "c1") UIAgent_new).2
    = <["c1" := {| session_id := "session-c1-1700000000000";
                   created_at := sample_iso (sample_clock 1);
                   last_activity := sample_iso (sample_clock 3) |}]> ∅
  ∧ activeSessions tracked_agent !! "c1"
    = Some {| session_id := "session-c1-1700000000000";
              created_at := sample_iso (sample_clock 1);
              last_activity := sample_iso (sample_clock 3) |}
  ∧ (getSessionId sample_clock sample_iso (Some "c1") tracked_agent).1
    = "session-c1-1700000000000"
  ∧ eventTemplates UIAgent_new !! "chat-welcome" = Some chat_welcome
  ∧ eventTemplates UIAgent_new !! "chat-response" = Some chat_response
  ∧ (let '(r1, a1) := generateEvent sample_clock sample_iso "chat-welcome" ∅
                        (Some "c1") UIAgent_new in
     let '(r2, _) := generateEvent sample_clock sample_iso "chat-response" ∅
                       (Some "c1") a1 in
     ∃ sessionId timestamp1 timestamp2 generated1 generated2,
       r1 = omap_outcome
              (λ event, set_property event "agui_metadata"
                          (agui_metadata "chat-welcome" generated1 (Some "c1")))
              (processTemplate chat_welcome
                 (mergedVariables (defaultVariables timestamp1 sessionId) ∅))
       ∧ r2 = omap_outcome
                (λ event, set_property event "agui_metadata"
                            (agui_metadata "chat-response" generated2 (Some "c1")))
                (processTemplate chat_response
                   (mergedVariables (defaultVariables timestamp2 sessionId) ∅))).
Proof.
  assert ("c1" ≠ "") as Hc by done.
  assert (activeSessions UIAgent_new !! "c1" = None) as Hnone
    by (vm_compute; reflexivity).
  assert (activeSessions tracked_agent !! "c1"
          = Some {| session_id := "session-c1-1700000000000";
                    created_at := sample_iso (sample_clock 1);
                    last_activity := sample_iso (sample_clock 3) |}) as Hsome
    by (vm_compute; reflexivity).
  assert (eventTemplates UIAgent_new !! "chat-welcome" = Some chat_welcome) as Hw
    by (vm_compute; reflexivity).
  assert (eventTemplates UIAgent_new !! "chat-response" = Some chat_response) as Hr
    by (vm_compute; reflexivity).
  destruct (getSessionId_stable sample_clock sample_iso "c1" UIAgent_new Hc)
    as (_ & Hmiss & Htwice).
  destruct (getSessionId_stable sample_clock sample_iso "c1" tracked_agent Hc)
    as (Hhit & _ & _).
  destruct (Hmiss Hnone) as [Hid Hstored].
  destruct (Hhit _ Hsome) as [Hid' _].
  split_and!; try done.
  exact (Htwice "chat-welcome" "chat-response" ∅ ∅ chat_welcome chat_response Hw Hr).
Defined.

(** C4 fails for the empty connection identifier: [!clientId] holds of it,
    so the id is [session-{now}], nothing is stored, and two events
    generated for it in a row carry different session ids. *)
Lemma getSessionId_empty_identifier :
  (getSessionId sample_clock sample_iso (Some "") UIAgent_new).1
  = "session-1700000000000"
  ∧ (getSessionId sample_clock sample_iso (Some "") UIAgent_new).1
    ≠ "session-" +:+ "" +:+ "-" +:+ pretty (sample_clock 0)
  ∧ activeSessions (getSessionId sample_clock sample_iso (Some "") UIAgent_new).2 !! ""
    = None
  ∧ (let '(r1, a1) := generateEvent sample_clock sample_iso "chat-welcome" ∅ (Some "")
                        UIAgent_new in
     let '(r2, _) := generateEvent sample_clock sample_iso "chat-welcome" ∅ (Some "") a1 in
     event_field r1 [Key "template"; Key "metadata"; Key "session_id"]
     = Some (VStr "session-1700000000001")
     ∧ event_field r2 [Key "template"; Key "metadata"; Key "session_id"]
       = Some (VStr "session-1700000000004")).
Proof. vm_compute. split_and!; done. Qed.

(** ** Substitution *)

Lemma processTemplate_visit (template : obj) vars :
  processTemplate template vars = visit vars (json_clone (VObj template)).
Proof. reflexivity. Qed.

(** Every node of the template has its visited clone at the same path of
    the processed template. *)
Lemma processTemplate_path (template : obj) vars (p : list step) (y : value) :
  printable vars →
  get_path (VObj template) p = Some y →
  y ≠ VUndef →
  ∃ out y', processTemplate template vars = Returns out
            ∧ visit vars (json_clone y) = Returns y'
            ∧ get_path out p = Some y'.
Proof.
  intros Hpr Hp Hy. rewrite processTemplate_visit.
  destruct (visit_total vars (json_clone (VObj template)) Hpr) as [out Hout].
  apply json_clone_path_node in Hp; [|done].
  destruct (visit_path_node _ _ _ _ _ Hout Hp) as (y' & Hy' & Hp').
  eauto.
Qed.

Lemma replacer_bound vars (name : string) (v : value) :
  vars !! name = Some v → v ≠ VUndef → replacer vars name = ToString v.
Proof. intros Hv Hne. unfold replacer. rewrite Hv. by destruct v. Qed.

Lemma replacer_undefined vars (name : string) :
  vars !! name = Some VUndef → replacer vars name = Returns ("{{" +:+ name +:+ "}}").
Proof. intros Hv. unfold replacer. by rewrite Hv. Qed.

Lemma replacer_unbound vars (name : string) :
  vars !! name = None →
  Object_prototype_lookup name = None →
  replacer vars name = Returns ("{{" +:+ name +:+ "}}").
Proof. intros Hv Hp. unfold replacer. by rewrite Hv, Hp. Qed.

(** C2, as the code has it.  Take a template, variables whose values all
    print, and a string field reachable through nested objects and arrays
    that contains [{{name}}] for an identifier [name].  The template is
    processed without error; in the field, what precedes and what follows
    the occurrence are processed on their own, and the occurrence itself
    - becomes the printed value when [name] is bound to a value other than
      [undefined],
    - stays [{{name}}] when [name] is bound to [undefined],
    - stays [{{name}}] when [name] is not bound and [Object.prototype] has
      no property of that name. *)
Theorem processTemplate_occurrence (template : obj) vars (p : list step)
    (pre name post : string) :
  printable vars →
  is_identifier name = true →
  get_path (VObj template) p = Some (VStr (pre +:+ "{{" +:+ name +:+ "}}" +:+ post)) →
  ∃ out a b,
    processTemplate template vars = Returns out
    ∧ replaceStringVariables pre vars = Returns a
    ∧ replaceStringVariables post vars = Returns b
    ∧ (∀ v, vars !! name = Some v → v ≠ VUndef →
         ∃ r, ToString v = Returns r
              ∧ get_path out p = Some (VStr (a +:+ r +:+ b)))
    ∧ (vars !! name = Some VUndef →
         get_path out p = Some (VStr (a +:+ "{{" +:+ name +:+ "}}" +:+ b)))
    ∧ (vars !! name = None → Object_prototype_lookup name = None →
         get_path out p = Some (VStr (a +:+ "{{" +:+ name +:+ "}}" +:+ b))).
Proof.
  intros Hpr Hid Hp.
  destruct (processTemplate_path template vars p _ Hpr Hp) as (out & y' & Hout & Hy' & Hp');
    [done |].
  simpl in Hy'. apply omap_outcome_Returns in Hy' as (s' & Hs & ->).
  rewrite replaceStringVariables_occurrence in Hs by done.
  destruct (replace_scan_total vars 0 pre Hpr) as [a Ha].
  destruct (replace_scan_total vars 0 post Hpr) as [b Hb].
  destruct (replacer_total vars name Hpr) as [r Hr].
  unfold replaceStringVariables in *. rewrite Ha, Hr, Hb in Hs. simpl in Hs.
  injection Hs as <-.
  exists out, a, b. split_and!; try done.
  - intros v Hv Hne. exists r. by rewrite <- (replacer_bound _ _ _ Hv Hne).
  - intros Hv. rewrite (replacer_undefined _ _ Hv) in Hr. injection Hr as <-.
    by rewrite !app_assoc_s in Hp'.
  - intros Hv Hproto. rewrite (replacer_unbound _ _ Hv Hproto) in Hr.
    injection Hr as <-. by rewrite !app_assoc_s in Hp'.
Qed.

Lemma processTemplate_occurrence_witness :
  printable {[ "name" := VStr "Ann" ]}
  ∧ is_identifier "name" = true
  ∧ get_path (VObj [ ("type", VStr "chat");
                     ("template", VObj [ ("text", VStr "Hi {{name}}!") ]) ])
      [Key "template"; Key "text"]
    = Some (VStr ("Hi " +:+ "{{" +:+ "name" +:+ "}}" +:+ "!"))
  ∧ ∃ out,
      processTemplate [ ("type", VStr "chat");
                        ("template", VObj [ ("text", VStr "Hi {{name}}!") ]) ]
        {[ "name" := VStr "Ann" ]} = Returns out
      ∧ get_path out [Key "template"; Key "text"] = Some (VStr "Hi Ann!").
Proof.
  assert (printable {[ "name" := VStr "Ann" ]}) as Hpr.
  { intros key v [_ <-]%lookup_singleton_Some. by eexists. }
  split; [exact Hpr |]. split; [reflexivity |]. split; [reflexivity |].
  destruct (processTemplate_occurrence
              [ ("type", VStr "chat");
                ("template", VObj [ ("text", VStr "Hi {{name}}!") ]) ]
              {[ "name" := VStr "Ann" ]} [Key "template"; Key "text"]
              "Hi " "name" "!" Hpr eq_refl eq_refl)
    as (out & a & b & Hout & Ha & Hb & Hbound & _ & _).
  exists out. split; [exact Hout |].
  destruct (Hbound (VStr "Ann")) as (r & Hr & Hfield); [reflexivity | done |].
  vm_compute in Ha. vm_compute in Hb. vm_compute in Hr.
  injection Ha as <-. injection Hb as <-. injection Hr as <-.
  exact Hfield.
Defined.

(** C2 fails where the name is not an identifier, and where it is bound to
    [undefined]: both names below are present in the merged variables, and
    both placeholders come out untouched. *)
Lemma generateEvent_present_not_replaced :
  let variables : gmap string value :=
    {[ "user-name" := VStr "Ann"; "nick" := VUndef ]} in
  let merged :=
    mergedVariables (defaultVariables "T1700000000000" "session-1700000000001")
      variables in
  let r := (generateEvent sample_clock sample_iso "greeting" variables None
              sample_agent).1 in
  merged !! "user-name" = Some (VStr "Ann")
  ∧ merged !! "nick" = Some VUndef
  ∧ r = omap_outcome
          (λ event, set_property event "agui_metadata"
                      (agui_metadata "greeting" "T1700000000002" None))
          (processTemplate greeting_template merged)
  ∧ event_field r [Key "template"; Key "text"] = Some (VStr "Hi {{user-name}}")
  ∧ event_field r [Key "template"; Key "sender"] = Some (VStr "{{nick}}").
Proof. vm_compute. split_and!; reflexivity. Qed.

(** A name that is missing from the variables is still found when
    [Object.prototype] has it. *)
Example replaceStringVariables_inherited :
  replaceStringVariables "{{constructor}} {{__proto__}} {{missing}}" ∅
  = Returns "function Object() { [native code] } [object Object] {{missing}}".
Proof. vm_compute. reflexivity. Qed.

(** C9, as the code has it.  The walk enters arrays as it enters objects:
    a string element of an array, at any depth, comes out processed like any
    other string field.  The columns of the built-in agent list contain no
    placeholder and come out as they are. *)
Theorem processTemplate_array_element vars :
  printable vars →
  (∀ (template : obj) (p : list step) (i : nat) (s : string),
     get_path (VObj template) (p ++ [Index i]) = Some (VStr s) →
     ∃ out s',
       processTemplate template vars = Returns out
       ∧ replaceStringVariables s vars = Returns s'
       ∧ get_path out (p ++ [Index i]) = Some (VStr s'))
  ∧ (∃ out, processTemplate display_agent_list vars = Returns out
            ∧ get_path out [Key "template"; Key "columns"]
              = Some (VArr [VStr "id"; VStr "name"; VStr "status"; VStr "created_at"])).
Proof.
  intros Hpr. split.
  - intros template p i s Hp.
    destruct (processTemplate_path template vars _ _ Hpr Hp)
      as (out & y' & Hout & Hy' & Hp'); [done |].
    simpl in Hy'. apply omap_outcome_Returns in Hy' as (s' & Hs & ->).
    by exists out, s'.
  - destruct (processTemplate_path display_agent_list vars
                [Key "template"; Key "columns"]
                (VArr [VStr "id"; VStr "name"; VStr "status"; VStr "created_at"]) Hpr)
      as (out & cols & Hout & Hcols & Hp); [reflexivity | done |].
    exists out. split; [done |]. rewrite Hp. f_equal.
    cbv in Hcols. by injection Hcols as <-.
Qed.

Lemma processTemplate_array_element_witness :
  printable {[ "first" := VStr "id" ]}
  ∧ get_path (VObj columns_template) ([Key "template"; Key "columns"] ++ [Index 0%nat])
    = Some (VStr "{{first}}")
  ∧ ∃ out,
      processTemplate columns_template {[ "first" := VStr "id" ]} = Returns out
      ∧ get_path out ([Key "template"; Key "columns"] ++ [Index 0%nat])
        = Some (VStr "id").
Proof.
  assert (printable {[ "first" := VStr "id" ]}) as Hpr.
  { intros key v [_ <-]%lookup_singleton_Some. by eexists. }
  split; [exact Hpr |]. split; [reflexivity |].
  destruct (processTemplate_array_element {[ "first" := VStr "id" ]} Hpr)
    as [Helem _].
  destruct (Helem columns_template [Key "template"; Key "columns"] 0%nat
              "{{first}}" eq_refl)
    as (out & s' & Hout & Hs & Hfield).
  exists out. split; [exact Hout |].
  vm_compute in Hs. injection Hs as <-. exact Hfield.
Defined.

(** C9 fails on an array that holds a placeholder: its element is
    rewritten. *)
Lemma generateEvent_array_rewritten :
  eventTemplates sample_agent !! "columns" = Some columns_template
  ∧ get_path (VObj columns_template) [Key "template"; Key "columns"]
    = Some (VArr [VStr "{{first}}"; VStr "name"])
  ∧ event_field
      (generateEvent sample_clock sample_iso "columns" {[ "first" := VStr "id" ]}
         None sample_agent).1
      [Key "template"; Key "columns"]
    = Some (VArr [VStr "id"; VStr "name"]).
Proof. vm_compute. split_and!; reflexivity. Qed.

(** *** Names that are not identifiers *)

Lemma has_char_app (c : Ascii.ascii) (s t : string) :
  has_char c (s +:+ t) = has_char c s || has_char c t.
Proof.
  induction s as [|d s IH]; [done |].
  rewrite app_String. simpl. by rewrite IH, orb_assoc.
Qed.

Lemma is_word_char_open : is_word_char "{" = false.
Proof. reflexivity. Qed.

Lemma is_word_char_close : is_word_char "}" = false.
Proof. reflexivity. Qed.

(** The greedy run inside a name that is not a word stops at a character
    of that name. *)
Lemma scan_word_nonword (name X : string) :
  is_word name = false →
  ∃ w d r, scan_word (name +:+ X) = (w, String d (r +:+ X))
           ∧ has_char d name = true.
Proof.
  induction name as [|c name IH]; intros Hw; [done |].
  rewrite app_String. simpl in *.
  destruct (is_word_char c) eqn:Hc.
  - destruct (IH Hw) as (w & d & r & -> & Hd).
    exists (String c w), d, r. split; [done |]. by rewrite Hd, orb_true_r.
  - exists "", c, name. split; [done |]. by rewrite Ascii.eqb_refl.
Qed.

Lemma match_placeholder_nonword (name X : string) :
  is_word name = false →
  has_char "}" name = false →
  match_placeholder ("{{" +:+ name +:+ X) = None.
Proof.
  intros Hw Hclose. unfold match_placeholder.
  rewrite strip_prefix_app. cbn [mbind option_bind].
  destruct (scan_word_nonword name X Hw) as (w & d & r & -> & Hd).
  destruct (is_identifier w); [|done].
  cbn [strip_prefix].
  destruct (Ascii.eqb_spec "}" d) as [<-|_]; [congruence | done].
Qed.

(** C10, as the code has it.  A variable whose name contains a character
    other than a word character is never consulted: binding it changes no
    output.  When the name contains no brace either, its occurrence
    [{{name}}] stays as it is in every string field, whatever the variables
    hold. *)
Lemma replaceStringVariables_nonword vars (pre name post : string) :
  is_word name = false →
  has_brace name = false →
  replaceStringVariables (pre +:+ "{{" +:+ name +:+ "}}" +:+ post) vars
  = let! a := replaceStringVariables pre vars in
    let! b := replaceStringVariables post vars in
    Returns (a +:+ "{{" +:+ name +:+ "}}" +:+ b).
Proof.
  intros Hw [Hopen Hclose]%orb_false_elim. unfold replaceStringVariables.
  rewrite replace_scan_before_open by lia.
  destruct (replace_scan vars 0 pre) as [a|]; [|done]. cbn [obind].
  pose proof (match_placeholder_nonword name ("}}" +:+ post) Hw Hclose) as Hm.
  change ("{{" +:+ name +:+ "}}" +:+ post)
    with (String "{" (String "{" (name +:+ "}}" +:+ post))) in *.
  cbn [replace_scan]. rewrite Hm.
  assert (match_placeholder (String "{" (name +:+ "}}" +:+ post)) = None) as ->.
  { destruct name as [|c name]; [done |]. rewrite app_String.
    unfold match_placeholder. cbn [strip_prefix]. simpl in Hopen.
    apply orb_false_elim in Hopen as [Hc _].
    rewrite Ascii.eqb_refl, Hc. done. }
  replace (name +:+ "}}" +:+ post) with ((name +:+ "}}") +:+ post)
    by (by rewrite app_assoc_s).
  rewrite replace_scan_no_open by (by rewrite has_char_app, Hopen).
  destruct (replace_scan vars 0 post) as [b|]; [|done]. cbn [obind].
  by rewrite !app_assoc_s.
Qed.

Theorem processTemplate_nonword_name vars (name : string) (v : value) :
  is_word name = false →
  vars !! name = Some v →
  (∀ s, replaceStringVariables s vars = replaceStringVariables s (delete name vars))
  ∧ (has_brace name = false →
     printable vars →
     ∀ (template : obj) (p : list step) (pre post : string),
       get_path (VObj template) p
       = Some (VStr (pre +:+ "{{" +:+ name +:+ "}}" +:+ post)) →
       ∃ out a b,
         processTemplate template vars = Returns out
         ∧ replaceStringVariables pre vars = Returns a
         ∧ replaceStringVariables post vars = Returns b
         ∧ get_path out p = Some (VStr (a +:+ "{{" +:+ name +:+ "}}" +:+ b))).
Proof.
  intros Hw Hv. split.
  - intros s. unfold replaceStringVariables.
    rewrite <- (insert_id vars name v Hv) at 1.
    rewrite <- insert_delete_eq. by apply replace_scan_insert_other.
  - intros Hb Hpr template p pre post Hp.
    destruct (processTemplate_path template vars p _ Hpr Hp)
      as (out & y' & Hout & Hy' & Hp'); [done |].
    simpl in Hy'. apply omap_outcome_Returns in Hy' as (s' & Hs & ->).
    rewrite replaceStringVariables_nonword in Hs by done.
    destruct (replace_scan_total vars 0 pre Hpr) as [a Ha].
    destruct (replace_scan_total vars 0 post Hpr) as [b Hb'].
    unfold replaceStringVariables in *. rewrite Ha, Hb' in Hs. simpl in Hs.
    injection Hs as <-. by exists out, a, b.
Qed.

Lemma processTemplate_nonword_name_witness :
  is_word "user-name" = false
  ∧ ({[ "user-name" := VStr "Ann" ]} : gmap string value) !! "user-name"
    = Some (VStr "Ann")
  ∧ has_brace "user-name" = false
  ∧ printable {[ "user-name" := VStr "Ann" ]}
  ∧ get_path (VObj greeting_template) [Key "template"; Key "text"]
    = Some (VStr ("Hi " +:+ "{{" +:+ "user-name" +:+ "}}" +:+ ""))
  ∧ replaceStringVariables "{{user-name}}" {[ "user-name" := VStr "Ann" ]}
    = replaceStringVariables "{{user-name}}" (delete "user-name" {[ "user-name" := VStr "Ann" ]})
  ∧ ∃ out,
      processTemplate greeting_template {[ "user-name" := VStr "Ann" ]} = Returns out
      ∧ get_path out [Key "template"; Key "text"] = Some (VStr "Hi {{user-name}}").
Proof.
  assert (printable {[ "user-name" := VStr "Ann" ]}) as Hpr.
  { intros key v [_ <-]%lookup_singleton_Some. by eexists. }
  destruct (processTemplate_nonword_name {[ "user-name" := VStr "Ann" ]}
              "user-name" (VStr "Ann") eq_refl (lookup_singleton_eq _ _))
    as [Hindep Hverbatim].
  split; [reflexivity |]. split; [apply lookup_singleton_eq |].
  split; [reflexivity |]. split; [exact Hpr |]. split; [reflexivity |].
  split; [apply Hindep |].
  destruct (Hverbatim eq_refl Hpr greeting_template [Key "template"; Key "text"]
              "Hi " "" eq_refl)
    as (out & a & b & Hout & Ha & Hb & Hfield).
  exists out. split; [exact Hout |].
  vm_compute in Ha. vm_compute in Hb.
  injection Ha as <-. injection Hb as <-. exact Hfield.
Defined.

(** C10 fails for a name that contains a brace: [{{{agent_name}}] is the
    occurrence of a supplied variable named [{agent_name], yet the pattern
    finds [{{agent_name}}] inside it and rewrites it. *)
Lemma generateEvent_brace_name_rewritten :
  let variables : gmap string value := {[ "{agent_name" := VStr "x" ]} in
  let r := (generateEvent sample_clock sample_iso "braces" variables None
              sample_agent).1 in
  is_word "{agent_name" = false
  ∧ get_path (VObj braces_template) [Key "template"; Key "text"]
    = Some (VStr ("{{" +:+ "{agent_name" +:+ "}}"))
  ∧ event_field r [Key "template"; Key "text"] = Some (VStr "{AutoWeave")
  ∧ event_field r [Key "template"; Key "text"]
    ≠ Some (VStr ("{{" +:+ "{agent_name" +:+ "}}")).
Proof. vm_compute. split_and!; done. Qed.

(** ** What event generation can throw *)

Lemma join_with_throws (show : value → outcome string) (l : list value) (e : exn) :
  join_with show l = Throws e → ∃ x, x ∈ l ∧ show x = Throws e.
Proof.
  induction l as [|x l IH]; simpl; [done |].
  destruct (show x) as [sx|e'] eqn:Hx; cbn [obind].
  - destruct l as [|y l]; [done |].
    destruct (join_with show (y :: l)) eqn:Hj; [done |].
    cbn [obind]. intros [= <-].
    destruct (IH eq_refl) as (x' & Hin & Hx'). exists x'. split; [by right | done].
  - intros [= <-]. exists x. split; [by left | done].
Qed.

Lemma ToString_throws (v : value) (e : exn) :
  ToString v = Throws e → e = cannot_convert.
Proof.
  revert e. induction v as [| | [] | | | elems IH | props _] using value_induction;
    intros e; try done.
  - simpl. intros (x & Hin & Hx)%join_with_throws.
    rewrite Forall_forall in IH. destruct x; try done; by eapply IH.
  - simpl. destruct (hasOwnProperty props "toString"); [by intros [= <-] | done].
Qed.

Lemma decent_cannot_convert : decent cannot_convert.
Proof. by eexists _, _. Qed.

Lemma decent_Error (message : string) : decent (Error message).
Proof. by eexists _, _. Qed.

Lemma decent_TypeError (message : string) : decent (TypeError message).
Proof. by eexists _, _. Qed.

Lemma replace_scan_throws vars (k : nat) (s : string) (e : exn) :
  replace_scan vars k s = Throws e → e = cannot_convert.
Proof.
  revert k. induction s as [|c s IH]; intros k; [done |].
  destruct k as [|k]; cbn [replace_scan]; [|apply IH].
  destruct (match_placeholder (String c s)) as [name|].
  - destruct (replacer vars name) as [r|e'] eqn:Hr; cbn [obind].
    + destruct (replace_scan vars _ s) eqn:Hs; [done |].
      cbn [obind]. intros [= <-]. by eapply IH.
    + intros [= <-]. unfold replacer in Hr.
      destruct (vars !! name) as [v|].
      * destruct v; try done; by eapply ToString_throws.
      * by destruct (Object_prototype_lookup name).
  - destruct (replace_scan vars 0 s) eqn:Hs; [done |].
    cbn [obind]. intros [= <-]. by eapply IH.
Qed.

Lemma for_each_Throws {A B} (f : A → outcome B) (l : list A) (e : exn) :
  for_each f l = Throws e → ∃ x, x ∈ l ∧ f x = Throws e.
Proof.
  induction l as [|x l IH]; simpl; [done |].
  destruct (f x) as [y|e'] eqn:Hx; cbn [obind].
  - destruct (for_each f l) eqn:Hl; [done |]. cbn [obind]. intros [= <-].
    destruct (IH eq_refl) as (x' & Hin & Hx'). exists x'. split; [by right | done].
  - intros [= <-]. exists x. split; [by left | done].
Qed.

Lemma omap_outcome_Throws {A B} (f : A → B) (m : outcome A) (e : exn) :
  omap_outcome f m = Throws e → m = Throws e.
Proof. unfold omap_outcome. destruct m; simpl; congruence. Qed.

Lemma visit_throws vars (x : value) (e : exn) :
  visit vars x = Throws e → e = cannot_convert.
Proof.
  revert e. induction x as [| | | | s | elems IH | props IH] using value_induction;
    intros e; try done.
  - simpl. intros H%omap_outcome_Throws. by eapply replace_scan_throws.
  - cbn [visit]. rewrite replaceVariables_arr.
    intros (x & Hin & Hx)%omap_outcome_Throws%for_each_Throws.
    rewrite Forall_forall in IH. by eapply IH.
  - cbn [visit]. rewrite replaceVariables_obj.
    intros ([k x] & Hin & Hx)%omap_outcome_Throws%for_each_Throws.
    apply omap_outcome_Throws in Hx.
    rewrite Forall_forall in IH. by eapply (IH (k, x)).
Qed.

Lemma processTemplate_throws (template : obj) vars (e : exn) :
  processTemplate template vars = Throws e → e = cannot_convert.
Proof. rewrite processTemplate_visit. apply visit_throws. Qed.

Lemma processTemplate_obj (template : obj) vars (out : value) :
  processTemplate template vars = Returns out → ∃ props, out = VObj props.
Proof.
  unfold processTemplate. cbn [json_clone]. rewrite replaceVariables_obj.
  intros (props & _ & ->)%omap_outcome_Returns. eauto.
Qed.

Lemma obj_get_set_eq (o : obj) (key : string) (v : value) :
  obj_get (obj_set o key v) key = Some v.
Proof.
  induction o as [|[k x] o IH]; simpl.
  - by rewrite String.eqb_refl.
  - destruct (String.eqb k key) eqn:Hk; simpl; by rewrite Hk.
Qed.

Lemma obj_get_set_ne (o : obj) (key key' : string) (v : value) :
  key ≠ key' → obj_get (obj_set o key v) key' = obj_get o key'.
Proof.
  intros Hne. induction o as [|[k x] o IH]; simpl.
  - by apply String.eqb_neq in Hne as ->.
  - destruct (String.eqb_spec k key) as [->|Hk]; simpl.
    + by apply String.eqb_neq in Hne as ->.
    + by rewrite IH.
Qed.

Lemma printable_insert vars (key : string) (v : value) (s : string) :
  ToString v = Returns s → printable vars → printable (<[key := v]> vars).
Proof.
  intros Hv Hp k x. rewrite lookup_insert. case_decide.
  - intros [= <-]. eauto.
  - apply Hp.
Qed.

Lemma printable_empty : printable ∅.
Proof. intros k x. by rewrite lookup_empty. Qed.

Lemma printable_merged (timestamp sessionId : string) vars :
  printable vars →
  printable (mergedVariables (defaultVariables timestamp sessionId) vars).
Proof.
  intros Hp k x [Hx|[_ Hx]]%lookup_union_Some_raw; [by eapply Hp |].
  unfold defaultVariables in Hx.
  repeat (apply lookup_insert_Some in Hx as [[_ <-]|[_ Hx]]; [by eexists |]).
  apply lookup_singleton_Some in Hx as [_ <-]. by eexists.
Qed.

(** ** Flows *)

Section Flow_properties.
Variable Date_now : nat → Z.
Variable toISOString : Z → string.
Context {W : Type}.
Variable autoweaveInstance : option (AutoWeave W).

Implicit Types (st : UIAgent obj * W) (a : UIAgent obj) (w : W).

Lemma post_ret {A} (x : A) st (R : A → _ → Prop) E : R x st → post (ret x) st R E.
Proof. done. Qed.

Lemma post_bind {A B} (m : flow A) (k : A → flow B) st (R : B → _ → Prop) E :
  post m st (λ x st', post (k x) st' R E) E → post (bind m k) st R E.
Proof. unfold post, bind. by destruct (m st) as [[x|e] st']. Qed.

Lemma post_bind_any {A B} (m : flow A) (k : A → flow B) st (R : B → _ → Prop) E :
  (∀ x st', post (k x) st' R E) → (∀ e st', E e st') → post (bind m k) st R E.
Proof.
  intros Hk HE. apply post_bind. unfold post at 1.
  destruct (m st) as [[x|e] st']; [apply Hk | apply HE].
Qed.

Lemma post_try_catch {A} (body : flow A) (handler : exn → flow A) st
    (R : A → _ → Prop) E :
  post body st R (λ e st', post (handler e) st' R E) →
  post (try_catch body handler) st R E.
Proof. unfold post, try_catch. by destruct (body st) as [[x|e] st']. Qed.

Lemma post_mono {A} (m : flow A) st (R R' : A → _ → Prop) (E E' : exn → _ → Prop) :
  post m st R E →
  (∀ x st', R x st' → R' x st') →
  (∀ e st', E e st' → E' e st') →
  post m st R' E'.
Proof. unfold post. destruct (m st) as [[x|e] st']; eauto. Qed.

Lemma post_returns {A} (m : flow A) st (R : A → _ → Prop) :
  post m st R (λ _ _, False) → ∃ x st', m st = (Returns x, st') ∧ R x st'.
Proof. unfold post. destruct (m st) as [[x|e] st']; [eauto | done]. Qed.

Lemma post_throws {A} (m : flow A) st (E : exn → _ → Prop) :
  post m st (λ _ _, False) E → ∃ e st', m st = (Throws e, st') ∧ E e st'.
Proof. unfold post. destruct (m st) as [[x|e] st']; [done | eauto]. Qed.

(** *** The steps of a flow *)

Lemma generateEvent_not_registered templateId variables clientId a :
  eventTemplates a !! templateId = None →
  generateEvent Date_now toISOString templateId variables clientId a
  = (Throws (Error ("Template '" +:+ templateId +:+ "' not found")), a).
Proof. intros Ht. unfold generateEvent. by rewrite Ht. Qed.

Lemma generateEvent_templates templateId variables clientId a :
  eventTemplates (generateEvent Date_now toISOString templateId variables clientId a).2
  = eventTemplates a.
Proof.
  destruct (eventTemplates a !! templateId) as [template|] eqn:Ht.
  - rewrite (generateEvent_registered _ _ _ _ _ _ _ Ht). cbn zeta.
    pose proof (getSessionId_templates Date_now toISOString clientId (tick a)) as Hs.
    destruct (getSessionId _ _ clientId (tick a)) as [sid a1].
    by destruct (processTemplate _ _).
  - by rewrite generateEvent_not_registered.
Qed.

Lemma generateEvent_throws templateId variables clientId a (e : exn) :
  (generateEvent Date_now toISOString templateId variables clientId a).1 = Throws e →
  decent e.
Proof.
  destruct (eventTemplates a !! templateId) as [template|] eqn:Ht.
  - rewrite (generateEvent_registered _ _ _ _ _ _ _ Ht). cbn zeta.
    destruct (getSessionId _ _ clientId (tick a)) as [sid a1].
    destruct (processTemplate _ _) as [out|e'] eqn:Hp; [done |].
    simpl. intros [= <-]. apply processTemplate_throws in Hp as ->.
    apply decent_cannot_convert.
  - rewrite generateEvent_not_registered by done. simpl. intros [= <-].
    apply decent_Error.
Qed.

(** A registered template and printable variables: an event comes back,
    made of the processed template and the stamp. *)
Lemma generateEvent_returns templateId variables clientId a (template : obj) :
  eventTemplates a !! templateId = Some template →
  printable variables →
  ∃ out timestamp sessionId generated_at,
    (generateEvent Date_now toISOString templateId variables clientId a).1
    = Returns (set_property out "agui_metadata"
                 (agui_metadata templateId generated_at clientId))
    ∧ processTemplate template
        (mergedVariables (defaultVariables timestamp sessionId) variables)
      = Returns out.
Proof.
  intros Ht Hpr. rewrite (generateEvent_registered _ _ _ _ _ _ _ Ht). cbn zeta.
  destruct (getSessionId _ _ clientId (tick a)) as [sid a1].
  set (merged := mergedVariables _ variables).
  destruct (visit_total merged (json_clone (VObj template))) as [out Hout].
  { by apply printable_merged. }
  rewrite <- processTemplate_visit in Hout. rewrite Hout.
  by exists out, (toISOString (Date_now (clock a))), sid,
    (toISOString (Date_now (clock a1))).
Qed.

Lemma post_generateEvent templateId variables clientId st :
  has_display_error st →
  post (on_agent_try (generateEvent Date_now toISOString templateId variables clientId))
    st (λ _ st', has_display_error st') (λ e st', has_display_error st' ∧ decent e).
Proof.
  destruct st as [a w]. unfold has_display_error, post, on_agent_try. simpl.
  intros Hde.
  pose proof (generateEvent_templates templateId variables clientId a) as Ht.
  pose proof (generateEvent_throws templateId variables clientId a) as He.
  destruct (generateEvent _ _ templateId variables clientId a) as [[ev|e] a'];
    simpl in *; rewrite Ht; eauto.
Qed.

Lemma post_call (name : string) method st :
  (∀ i, autoweaveInstance = Some i → throws_decent (method i)) →
  has_display_error st →
  post (call autoweaveInstance name method) st
    (λ _ st', has_display_error st') (λ e st', has_display_error st' ∧ decent e).
Proof.
  intros Hdecent Hde. destruct st as [a w]. unfold post, call.
  destruct autoweaveInstance as [i|]; [|split; [done | apply decent_TypeError]].
  specialize (Hdecent i eq_refl).
  destruct (method i) as [f|]; [|split; [done | apply decent_TypeError]].
  destruct (f w) as [[x|e] w'] eqn:Hf; [done |].
  split; [done |]. by eapply Hdecent.
Qed.

Lemma post_member (v : value) (key : string) st (P : UIAgent obj * W → Prop) :
  P st →
  post (pure_try (member v key)) st (λ _ st', P st') (λ e st', P st' ∧ decent e).
Proof.
  intros HP. unfold post, pure_try.
  destruct v; simpl; try done; split; try done; apply decent_TypeError.
Qed.

(** With a sink that accepts everything, delivery can only fail on the log
    line, when the event's [type] does not print. *)
Lemma post_sendEvent (event : value) clientId st :
  sink_accepts autoweaveInstance →
  has_display_error st →
  post (sendEvent autoweaveInstance event clientId) st
    (λ _ st', has_display_error st') (λ e st', has_display_error st' ∧ decent e).
Proof.
  intros Hsink Hde. destruct st as [a w]. unfold sendEvent.
  destruct (autoweaveInstance ≫= sendAGUIEvent) as [send|] eqn:Hsend; [|done].
  destruct (Hsink send event clientId w Hsend) as [w' Hw].
  unfold post, bind, pure_try, logging. rewrite Hw.
  destruct (member event "type") as [type|e] eqn:Hm.
  - destruct (ToString type) as [shown|e] eqn:Hs; [done |].
    split; [done |]. apply ToString_throws in Hs as ->. apply decent_cannot_convert.
  - split; [done |]. destruct event; try done; injection Hm as <-;
      apply decent_TypeError.
Qed.

Lemma post_sendEvent_typed (event : value) (type : string) clientId st :
  sink_accepts autoweaveInstance →
  has_display_error st →
  member event "type" = Returns (VStr type) →
  post (sendEvent autoweaveInstance event clientId) st
    (λ _ st', has_display_error st') (λ _ _, False).
Proof.
  intros Hsink Hde Hm. destruct st as [a w]. unfold sendEvent.
  destruct (autoweaveInstance ≫= sendAGUIEvent) as [send|] eqn:Hsend; [|done].
  destruct (Hsink send event clientId w Hsend) as [w' Hw].
  unfold post, bind, pure_try, logging. by rewrite Hw, Hm.
Qed.

(** *** The error display *)

(** A field that is one placeholder, for a name bound to a value other
    than [undefined], holds the printed value afterwards. *)
Lemma processTemplate_bound_field (template : obj) vars (p : list step)
    (name : string) (v : value) :
  printable vars →
  is_identifier name = true →
  get_path (VObj template) p = Some (VStr ("{{" +:+ name +:+ "}}")) →
  vars !! name = Some v →
  v ≠ VUndef →
  ∃ out r, processTemplate template vars = Returns out
           ∧ ToString v = Returns r
           ∧ get_path out p = Some (VStr r).
Proof.
  intros Hpr Hid Hp Hv Hne.
  destruct (processTemplate_path template vars p _ Hpr Hp)
    as (out & y' & Hout & Hy' & Hp'); [done |].
  simpl in Hy'. apply omap_outcome_Returns in Hy' as (s' & Hs & ->).
  pose proof (replaceStringVariables_placeholder vars name "" Hid) as Hph.
  rewrite app_empty_r in Hph. rewrite Hph in Hs.
  rewrite (replacer_bound _ _ _ Hv Hne) in Hs.
  destruct (ToString v) as [r|] eqn:Hr; [|done].
  cbv in Hs. injection Hs as <-.
  exists out, r. by rewrite app_empty_r in Hp'.
Qed.

Lemma processTemplate_display_error vars :
  printable vars →
  ∃ props,
    processTemplate display_error vars = Returns (VObj props)
    ∧ obj_get props "type" = Some (VStr "display")
    ∧ get_path (VObj props) [Key "template"; Key "type"] = Some (VStr "error")
    ∧ ∀ message, vars !! "error_details" = Some (VStr message) →
        get_path (VObj props) [Key "template"; Key "details"] = Some (VStr message).
Proof.
  intros Hpr.
  destruct (processTemplate_path display_error vars [Key "type"] (VStr "display") Hpr)
    as (out & y1 & Hout & Hy1 & Hp1); [reflexivity | done |].
  destruct (processTemplate_obj _ _ _ Hout) as [props ->].
  exists props. split; [done |].
  cbv in Hy1. injection Hy1 as <-. split.
  { simpl in Hp1. by destruct (obj_get props "type"). }
  destruct (processTemplate_path display_error vars [Key "template"; Key "type"]
              (VStr "error") Hpr)
    as (out2 & y2 & Hout2 & Hy2 & Hp2); [reflexivity | done |].
  rewrite Hout in Hout2. injection Hout2 as <-.
  cbv in Hy2. injection Hy2 as <-. split; [done |].
  intros message Hv.
  destruct (processTemplate_bound_field display_error vars
              [Key "template"; Key "details"] "error_details" _ Hpr eq_refl eq_refl Hv)
    as (out3 & r & Hout3 & Hr & Hfield); [done |].
  rewrite Hout in Hout3. injection Hout3 as <-.
  by injection Hr as <-.
Qed.

Lemma post_error_display (title message code : string) clientId (error : exn) st :
  sink_accepts autoweaveInstance →
  has_display_error st →
  decent error →
  post
    (bind (pure_try (error_message error)) (λ details,
     bind (on_agent_try
             (generateDisplayEvent Date_now toISOString "display-error"
                {[ "error_title" := VStr title;
                   "error_message" := VStr message;
                   "error_details" := details;
                   "error_code" := VStr code ]} clientId)) (λ errorEvent,
     bind (sendEvent autoweaveInstance errorEvent clientId) (λ _,
     ret errorEvent))))
    st
    (λ event st', has_display_error st' ∧ error_display_of error event)
    (λ _ _, False).
Proof.
  intros Hsink Hde (details & shown & Hmsg & Hshown).
  apply post_bind. unfold post at 1, pure_try. rewrite Hmsg.
  set (variables := ({[ "error_title" := VStr title;
                        "error_message" := VStr message;
                        "error_details" := details;
                        "error_code" := VStr code ]} : gmap string value)).
  assert (printable variables) as Hpr.
  { subst variables.
    apply (printable_insert _ _ _ title); [done |].
    apply (printable_insert _ _ _ message); [done |].
    apply (printable_insert _ _ _ shown); [done |].
    intros k x [_ <-]%lookup_singleton_Some. by eexists. }
  destruct st as [a w]. apply post_bind. unfold post at 1, on_agent_try.
  unfold generateDisplayEvent.
  destruct (generateEvent_returns "display-error" variables clientId a display_error
              Hde Hpr) as (out & ts & sid & gen & Hev & Hout).
  pose proof (generateEvent_templates "display-error" variables clientId a) as Htpl.
  destruct (generateEvent _ _ "display-error" variables clientId a) as [r a'].
  simpl in Hev, Htpl. subst r.
  destruct (processTemplate_display_error _ (printable_merged ts sid _ Hpr))
    as (props & Hout' & Htype & Hkind & Hdetails).
  rewrite Hout in Hout'. injection Hout' as ->.
  assert (has_display_error (a', w)) as Hde'
    by (unfold has_display_error; simpl; by rewrite Htpl).
  apply post_bind.
  eapply post_mono.
  - apply (post_sendEvent_typed _ "display"); [done | done |].
    simpl. by rewrite obj_get_set_ne, Htype.
  - intros ? st' Hst'. apply post_ret. split; [done |].
    unfold error_display_of. split_and!.
    + simpl. by rewrite obj_get_set_ne, Htype.
    + simpl in *. by rewrite obj_get_set_ne.
    + simpl. by rewrite obj_get_set_eq.
    + intros msg Hm. rewrite Hmsg in Hm. injection Hm as ->.
      specialize (Hdetails msg). simpl in *. rewrite obj_get_set_ne by done.
      apply Hdetails. unfold mergedVariables. apply lookup_union_Some_l.
      subst variables. by rewrite lookup_insert_ne, lookup_insert_ne, lookup_insert_eq.
  - done.
Qed.

Lemma try_catch_throws {A} (body : flow A) (handler : exn → flow A) st st'
    (e : exn) :
  body st = (Throws e, st') → try_catch body handler st = handler e st'.
Proof. unfold try_catch. by intros ->. Qed.

(** C6, as the code has it.  With the built-in [display-error] template
    registered, a sink that accepts every event (or no sink), and providers
    that only throw errors whose message can be read and printed, the
    system-health flow and the agent-list flow always return an event; when
    a provider call throws, the error is caught inside the flow and the
    event returned is the error display generated from [display-error], with
    the error's message as its details. *)
Theorem display_flows_produce_event clientId st :
  sink_accepts autoweaveInstance →
  providers_decent autoweaveInstance →
  has_display_error st →
  (∃ event st',
     generateSystemHealthDisplay Date_now toISOString autoweaveInstance clientId st
     = (Returns event, st')
     ∧ (∀ i f e w', autoweaveInstance = Some i → getSystemHealth i = Some f →
          f st.2 = (Throws e, w') → error_display_of e event)
     ∧ (∀ i f g health w1 e w2,
          autoweaveInstance = Some i →
          getSystemHealth i = Some f → f st.2 = (Returns health, w1) →
          getMetrics i = Some g → g w1 = (Throws e, w2) →
          error_display_of e event))
  ∧ (∃ event st',
       generateAgentListDisplay Date_now toISOString autoweaveInstance clientId st
       = (Returns event, st')
       ∧ (∀ i f e w', autoweaveInstance = Some i → listAgents i = Some f →
            f st.2 = (Throws e, w') → error_display_of e event)).
Proof.
  intros Hsink Hprov Hde.
  assert (∀ method, method = getSystemHealth ∨ method = getMetrics ∨ method = listAgents →
            ∀ i, autoweaveInstance = Some i →
                 throws_decent (method i : option (W → outcome value * W))) as Hmethod.
  { intros method Hm i Hi. destruct (Hprov i Hi) as (H1 & H2 & H3).
    by destruct Hm as [-> | [-> | ->]]. }
  split.
  - assert (post (generateSystemHealthDisplay Date_now toISOString autoweaveInstance
                    clientId) st (λ _ _, True) (λ _ _, False)) as Hpost.
    { unfold generateSystemHealthDisplay. apply post_try_catch.
      eapply post_mono with (R := λ _ st', has_display_error st')
                            (E := λ e st', has_display_error st' ∧ decent e).
      - apply post_bind. eapply post_mono; [apply post_call; auto | | done].
        intros health st1 H1. cbv beta.
        apply post_bind. eapply post_mono; [apply post_call; auto | | done].
        intros metrics st2 H2. cbv beta.
        apply post_bind. eapply post_mono; [by apply post_generateEvent | | done].
        intros event st3 H3. cbv beta.
        apply post_bind. eapply post_mono; [by apply post_sendEvent | | done].
        intros ? st4 H4. by apply post_ret.
      - done.
      - intros e st' [Hde' Hdec]. cbv beta.
        eapply post_mono; [by apply post_error_display | done | done]. }
    apply post_returns in Hpost as (event & st' & Hrun & _).
    exists event, st'. split; [done |]. destruct st as [a w]. split.
    + intros i f e w' Hi Hf Hthrow. simpl in Hthrow.
      unfold generateSystemHealthDisplay in Hrun.
      erewrite try_catch_throws in Hrun; last first.
      { unfold bind, call. by rewrite Hi, Hf, Hthrow. }
      assert (decent e) as Hdec
        by (eapply (Hmethod getSystemHealth (or_introl eq_refl) i Hi); eauto).
      pose proof (post_error_display "Health Check Failed"
                    "Unable to retrieve system health" "HEALTH_CHECK_ERROR"
                    clientId e (a, w') Hsink Hde Hdec) as Hpost.
      unfold post in Hpost. rewrite Hrun in Hpost. tauto.
    + intros i f g health w1 e w2 Hi Hf Hhealth Hg Hthrow. simpl in Hhealth.
      unfold generateSystemHealthDisplay in Hrun.
      erewrite try_catch_throws in Hrun; last first.
      { unfold bind, call. by rewrite Hi, Hf, Hhealth, Hg, Hthrow. }
      assert (decent e) as Hdec
        by (eapply (Hmethod getMetrics (or_intror (or_introl eq_refl)) i Hi); eauto).
      pose proof (post_error_display "Health Check Failed"
                    "Unable to retrieve system health" "HEALTH_CHECK_ERROR"
                    clientId e (a, w2) Hsink Hde Hdec) as Hpost.
      unfold post in Hpost. rewrite Hrun in Hpost. tauto.
  - assert (post (generateAgentListDisplay Date_now toISOString autoweaveInstance
                    clientId) st (λ _ _, True) (λ _ _, False)) as Hpost.
    { unfold generateAgentListDisplay. apply post_try_catch.
      eapply post_mono with (R := λ _ st', has_display_error st')
                            (E := λ e st', has_display_error st' ∧ decent e).
      - apply post_bind. eapply post_mono; [apply post_call; auto | | done].
        intros agents st1 H1. cbv beta.
        apply post_bind. eapply post_mono; [by apply post_member | | done].
        intros listed st2 H2. cbv beta.
        apply post_bind. eapply post_mono; [by apply post_generateEvent | | done].
        intros event st3 H3. cbv beta.
        apply post_bind. eapply post_mono; [by apply post_sendEvent | | done].
        intros ? st4 H4. by apply post_ret.
      - done.
      - intros e st' [Hde' Hdec]. cbv beta.
        eapply post_mono; [by apply post_error_display | done | done]. }
    apply post_returns in Hpost as (event & st' & Hrun & _).
    exists event, st'. split; [done |]. destruct st as [a w].
    intros i f e w' Hi Hf Hthrow. simpl in Hthrow.
    unfold generateAgentListDisplay in Hrun.
    erewrite try_catch_throws in Hrun; last first.
    { unfold bind, call. by rewrite Hi, Hf, Hthrow. }
    assert (decent e) as Hdec
      by (eapply (Hmethod listAgents (or_intror (or_intror eq_refl)) i Hi); eauto).
    pose proof (post_error_display "Agent List Failed"
                  "Unable to retrieve agent list" "AGENT_LIST_ERROR"
                  clientId e (a, w') Hsink Hde Hdec) as Hpost.
    unfold post in Hpost. rewrite Hrun in Hpost. tauto.
Qed.

(** *** Delivery failures *)

Lemma post_sendEvent_refused (event : value) clientId st :
  sink_refuses autoweaveInstance →
  post (sendEvent autoweaveInstance event clientId) st (λ _ _, False) (λ _ _, True).
Proof.
  intros (send & Hsend & Hrefuse). destruct st as [a w].
  unfold sendEvent. rewrite Hsend.
  destruct (Hrefuse event clientId w) as (e & w' & Hw).
  unfold post, bind. by rewrite Hw.
Qed.

Lemma post_sendEvents_refused (event : value) (events : list value) clientId st :
  sink_refuses autoweaveInstance →
  post (sendEvents autoweaveInstance (event :: events) clientId) st
    (λ _ _, False) (λ _ _, True).
Proof.
  intros Hrefuse. cbn [sendEvents]. apply post_bind.
  eapply post_mono; [by apply post_sendEvent_refused | done | done].
Qed.

(** C7, as the code has it.  [sendEvent] does not catch: a failure of the
    sink leaves it as it came, with nothing logged.  So with a sink that
    refuses every event no flow returns an event: the failure, or one raised
    before it, reaches the caller of the flow.  Only a missing sink is logged
    and passed over. *)
Theorem sendEvent_failure_reaches_caller :
  (∀ send event clientId a w e w',
     autoweaveInstance ≫= sendAGUIEvent = Some send →
     send event clientId w = (Throws e, w') →
     sendEvent autoweaveInstance event clientId (a, w) = (Throws e, (a, w')))
  ∧ (autoweaveInstance ≫= sendAGUIEvent = None →
     ∀ event clientId a w,
       sendEvent autoweaveInstance event clientId (a, w)
       = (Returns (),
          (log Warn "AutoWeave instance not available for sending events" a, w)))
  ∧ (sink_refuses autoweaveInstance →
     ∀ clientId st,
       (∀ agentDescription, ∃ e st',
          generateAgentCreationFlow Date_now toISOString autoweaveInstance clientId
            agentDescription st = (Throws e, st'))
       ∧ (∃ e st',
            generateWelcomeSequence Date_now toISOString autoweaveInstance clientId st
            = (Throws e, st'))
       ∧ (∀ operationId status message progress, ∃ e st',
            generateOperationStatus Date_now toISOString autoweaveInstance clientId
              operationId status message progress st = (Throws e, st'))
       ∧ (∃ e st',
            generateSystemHealthDisplay Date_now toISOString autoweaveInstance clientId st
            = (Throws e, st'))
       ∧ (∃ e st',
            generateAgentListDisplay Date_now toISOString autoweaveInstance clientId st
            = (Throws e, st'))).
Proof.
  split_and!.
  - intros send event clientId a w e w' Hsend Hw.
    unfold sendEvent. rewrite Hsend. unfold bind. by rewrite Hw.
  - intros Hnone event clientId a w. unfold sendEvent. by rewrite Hnone.
  - intros Hrefuse clientId st.
    assert (∀ {A} (m : flow A) st0,
              post m st0 (λ _ _, False) (λ _ _, True) →
              ∃ e st', m st0 = (Throws e, st')) as Hthrows.
    { intros A m st0 (e & st' & Hrun & _)%post_throws. eauto. }
    assert (∀ title message code e st0,
              post
                (bind (pure_try (error_message e)) (λ details,
                 bind (on_agent_try
                         (generateDisplayEvent Date_now toISOString "display-error"
                            {[ "error_title" := VStr title;
                               "error_message" := VStr message;
                               "error_details" := details;
                               "error_code" := VStr code ]} clientId)) (λ errorEvent,
                 bind (sendEvent autoweaveInstance errorEvent clientId) (λ _,
                 ret errorEvent)))) st0 (λ _ _, False) (λ _ _, True)) as Hhandler.
    { intros title message code e st0.
      apply post_bind_any; [|done]. intros details st1.
      apply post_bind_any; [|done]. intros errorEvent st2.
      apply post_bind.
      eapply post_mono; [by apply post_sendEvent_refused | done | done]. }
    split_and!.
    + intros agentDescription. apply Hthrows. unfold generateAgentCreationFlow.
      apply post_bind_any; [|done]. intros sessionId st1.
      apply post_bind_any; [|done]. intros processing st2.
      apply post_bind_any; [|done]. intros t st3.
      apply post_bind_any; [|done]. intros form st4.
      cbv zeta. apply post_bind.
      eapply post_mono; [by apply post_sendEvents_refused | done | done].
    + apply Hthrows. unfold generateWelcomeSequence.
      apply post_bind_any; [|done]. intros sessionId st1.
      apply post_bind_any; [|done]. intros welcome st2.
      apply post_bind_any; [|done]. intros t st3.
      apply post_bind_any; [|done]. intros actions st4.
      cbv zeta. apply post_bind.
      eapply post_mono; [by apply post_sendEvents_refused | done | done].
    + intros operationId status message progress. apply Hthrows.
      unfold generateOperationStatus.
      apply post_bind_any; [|done]. intros event st1.
      apply post_bind.
      eapply post_mono; [by apply post_sendEvent_refused | done | done].
    + apply Hthrows. unfold generateSystemHealthDisplay. apply post_try_catch.
      apply post_bind_any; [|intros; apply Hhandler]. intros health st1.
      apply post_bind_any; [|intros; apply Hhandler]. intros metrics st2.
      apply post_bind_any; [|intros; apply Hhandler]. intros event st3.
      apply post_bind.
      eapply post_mono; [by apply post_sendEvent_refused | done |].
      intros; apply Hhandler.
    + apply Hthrows. unfold generateAgentListDisplay. apply post_try_catch.
      apply post_bind_any; [|intros; apply Hhandler]. intros agents st1.
      apply post_bind_any; [|intros; apply Hhandler]. intros listed st2.
      apply post_bind_any; [|intros; apply Hhandler]. intros event st3.
      apply post_bind.
      eapply post_mono; [by apply post_sendEvent_refused | done |].
      intros; apply Hhandler.
Qed.

End Flow_properties.

Lemma failing_providers_accepts : sink_accepts (Some failing_providers).
Proof. intros send event clientId w [= <-]. by eexists. Qed.

Lemma failing_providers_decent : providers_decent (Some failing_providers).
Proof.
  intros i [= <-]. split_and!; intros f w e w' [= <-]; intros [= <-];
    apply decent_Error.
Qed.

Lemma failing_sink_refuses : sink_refuses (Some failing_sink).
Proof. eexists. split; [reflexivity |]. intros event clientId w. by eexists _, _. Qed.

Lemma display_flows_produce_event_witness :
  sink_accepts (Some failing_providers)
  ∧ providers_decent (Some failing_providers)
  ∧ has_display_error (UIAgent_new, @nil value)
  ∧ (∃ event st',
       generateSystemHealthDisplay sample_clock sample_iso (Some failing_providers)
         (Some "c1") (UIAgent_new, []) = (Returns event, st')
       ∧ error_display_of (Error "health service down") event)
  ∧ (∃ event st',
       generateAgentListDisplay sample_clock sample_iso (Some failing_providers)
         (Some "c1") (UIAgent_new, []) = (Returns event, st')
       ∧ error_display_of (Error "agent manager down") event).
Proof.
  assert (has_display_error (UIAgent_new, @nil value)) as Hde
    by (vm_compute; reflexivity).
  split; [exact failing_providers_accepts |].
  split; [exact failing_providers_decent |].
  split; [exact Hde |].
  destruct (display_flows_produce_event sample_clock sample_iso
              (Some failing_providers) (Some "c1") (UIAgent_new, [])
              failing_providers_accepts failing_providers_decent Hde)
    as [(event & st' & Hrun & Hhealth & _) (event2 & st2 & Hrun2 & Hlist)].
  split.
  - exists event, st'. split; [exact Hrun |].
    exact (Hhealth failing_providers _ _ [] eq_refl eq_refl eq_refl).
  - exists event2, st2. split; [exact Hrun2 |].
    exact (Hlist failing_providers _ _ [] eq_refl eq_refl eq_refl).
Defined.

(** C6 fails when the sink fails too, when the provider rejects without a
    reason, and when [display-error] has been removed: in each case the
    provider's failure is followed by a throw, and no event comes back. *)
Lemma display_flow_yields_no_event :
  (generateSystemHealthDisplay sample_clock sample_iso (Some failing_instance)
     (Some "c1") (UIAgent_new, [])).1
  = Throws (Error "socket closed")
  ∧ (generateAgentListDisplay sample_clock sample_iso (Some failing_instance)
       (Some "c1") (UIAgent_new, [])).1
    = Throws (Error "socket closed")
  ∧ (generateSystemHealthDisplay sample_clock sample_iso (Some rejecting_providers)
       (Some "c1") (UIAgent_new, [])).1
    = Throws (TypeError "Cannot read properties of undefined (reading 'message')")
  ∧ (generateAgentListDisplay sample_clock sample_iso (Some failing_providers)
       (Some "c1") ((removeTemplate "display-error" UIAgent_new).2, [])).1
    = Throws (Error "Template 'display-error' not found").
Proof. vm_compute. split_and!; reflexivity. Qed.

Lemma sendEvent_failure_reaches_caller_witness :
  sink_refuses (Some failing_sink)
  ∧ sendEvent (Some failing_sink) (VObj [ ("type", VStr "chat") ]) (Some "c1")
      (UIAgent_new, [])
    = (Throws (Error "socket closed"), (UIAgent_new, []))
  ∧ ∃ e st',
      generateAgentCreationFlow sample_clock sample_iso (Some failing_sink)
        (Some "c1") "build me a bot" (UIAgent_new, []) = (Throws e, st').
Proof.
  destruct (sendEvent_failure_reaches_caller sample_clock sample_iso
              (Some failing_sink)) as (Hsend & _ & Hflows).
  split; [exact failing_sink_refuses |]. split.
  - exact (Hsend _ (VObj [ ("type", VStr "chat") ]) (Some "c1") UIAgent_new []
             (Error "socket closed") [] eq_refl eq_refl).
  - destruct (Hflows failing_sink_refuses (Some "c1") (UIAgent_new, []))
      as (Hcreate & _).
    exact (Hcreate "build me a bot").
Defined.

(** C7 fails with a sink that throws: the agent-creation flow and the
    system-health flow both throw the sink's error instead of returning
    their events, and nothing is logged about it. *)
Lemma delivery_failure_thrown :
  (generateAgentCreationFlow sample_clock sample_iso (Some failing_sink)
     (Some "c1") "build me a bot" (UIAgent_new, [])).1
  = Throws (Error "socket closed")
  ∧ logger (generateAgentCreationFlow sample_clock sample_iso (Some failing_sink)
              (Some "c1") "build me a bot" (UIAgent_new, [])).2.1
    = logger UIAgent_new
  ∧ (generateSystemHealthDisplay sample_clock sample_iso (Some failing_sink)
       (Some "c1") (UIAgent_new, [])).1
    = Throws (Error "socket closed").
Proof. vm_compute. split_and!; reflexivity. Qed.

(** ** Provider data in display events *)

(** C8 does not hold of the code: what the providers return reaches the
    template through [String.prototype.replace], which prints it.  The
    metrics display carries the text [[object Object]] whatever the health
    and the metrics are, and the agent list carries the printed array. *)
Theorem provider_data_stringified :
  (∀ Date_now toISOString clientId (health metrics : value),
     event_field
       (generateDisplayEvent Date_now toISOString "display-metrics"
          {[ "metrics_data" := VObj [ ("system_health", health); ("metrics", metrics) ];
             "refresh_rate" := VStr "30s" ]} clientId UIAgent_new).1
       [Key "template"; Key "data"]
     = Some (VStr "[object Object]"))
  ∧ (let r := (generateAgentListDisplay sample_clock sample_iso (Some working_instance)
                 (Some "c1") (UIAgent_new, [])).1 in
     event_field r [Key "template"; Key "data"] = Some (VStr "[object Object]")
     ∧ event_field r [Key "template"; Key "data"] ≠ Some (VArr [agent_record])
     ∧ event_field r [Key "template"; Key "metadata"; Key "total_agents"]
       = Some (VStr "1"))
  ∧ (let r := (generateSystemHealthDisplay sample_clock sample_iso
                 (Some working_instance) (Some "c1") (UIAgent_new, [])).1 in
     event_field r [Key "template"; Key "data"] = Some (VStr "[object Object]")).
Proof.
  split_and!.
  - intros Date_now toISOString clientId health metrics.
    unfold generateDisplayEvent.
    rewrite (generateEvent_registered _ _ _ _ _ _ display_metrics)
      by (vm_compute; reflexivity).
    cbn zeta. destruct (getSessionId _ _ clientId (tick UIAgent_new)) as [sid a1].
    vm_compute. reflexivity.
  - vm_compute. split_and!; done.
  - vm_compute. reflexivity.
Qed.

(** ** Objects in the store *)

Lemma build_fields_index (build' : nat → value → hval * list node)
    (i j base : nat) (props : obj) :
  build_fields (λ _, fst) snd build' i base props
  = build_fields (λ _, fst) snd build' j base props.
Proof.
  revert i j base. induction props as [|[k x] props IH]; intros i j base; [done |].
  simpl. destruct (build' base x) as [r nodes]. by rewrite (IH (S i) (S j)).
Qed.

Lemma build_fields_keyed (build' : nat → value → hval * list node)
    (i base : nat) (elems : list value) :
  build_fields (λ i _, pretty i) id build' i base elems
  = build_fields (λ _, fst) snd build' i base (keyed i elems).
Proof.
  revert i base. induction elems as [|x elems IH]; intros i base; [done |].
  simpl. destruct (build' base x) as [r nodes]. by rewrite IH.
Qed.

Lemma build_props_cons (base : nat) (k : string) (x : value) (props : obj) :
  build_props base ((k, x) :: props)
  = ((k, (build base x).1) :: (build_props (base + length (build base x).2) props).1,
     (build base x).2 ++ (build_props (base + length (build base x).2) props).2).
Proof.
  unfold build_props. simpl. destruct (build base x) as [r nodes]. simpl.
  rewrite (build_fields_index _ 1 0).
  by destruct (build_fields _ _ _ _ _ props).
Qed.

Lemma build_props_app (base : nat) (l1 l2 : obj) :
  build_props base (l1 ++ l2)
  = ((build_props base l1).1
     ++ (build_props (base + length (build_props base l1).2) l2).1,
     (build_props base l1).2
     ++ (build_props (base + length (build_props base l1).2) l2).2).
Proof.
  revert base. induction l1 as [|[k x] l1 IH]; intros base.
  - simpl. rewrite Nat.add_0_r. by destruct (build_props base l2).
  - rewrite <- app_comm_cons, !build_props_cons, IH. simpl.
    rewrite length_app, Nat.add_assoc, <- !app_assoc. done.
Qed.

Lemma build_props_roots_length (base : nat) (props : obj) :
  length (build_props base props).1 = length props.
Proof.
  revert base. induction props as [|[k x] props IH]; intros base; [done |].
  rewrite build_props_cons. simpl. by rewrite IH.
Qed.

Lemma build_obj (base : nat) (props : obj) :
  build base (VObj props)
  = (HRef (base + length (build_props base props).2),
     (build_props base props).2 ++ [Node false (build_props base props).1]).
Proof. simpl. fold (build_props base props). by destruct (build_props base props). Qed.

Lemma build_arr (base : nat) (elems : list value) :
  build base (VArr elems)
  = (HRef (base + length (build_props base (keyed 0 elems)).2),
     (build_props base (keyed 0 elems)).2
     ++ [Node true (build_props base (keyed 0 elems)).1]).
Proof.
  simpl. rewrite build_fields_keyed. fold (build_props base (keyed 0 elems)).
  by destruct (build_props base (keyed 0 elems)).
Qed.

(** Induction on values with the members of arrays under their keys. *)
Lemma Forall_keyed (P : value → Prop) (i : nat) (elems : list value) :
  Forall P elems → Forall (λ kv, P kv.2) (keyed i elems).
Proof.
  intros H. revert i. induction H as [|x l Hx _ IH]; intros i; simpl; constructor; auto.
Qed.

Lemma keyed_values (i : nat) (elems : list value) : (keyed i elems).*2 = elems.
Proof. revert i. induction elems as [|x l IH]; intros i; simpl; [done | by rewrite IH]. Qed.

Lemma keyed_length (i : nat) (elems : list value) : length (keyed i elems) = length elems.
Proof. revert i. induction elems as [|x l IH]; intros i; simpl; [done | by rewrite IH]. Qed.

Lemma objects_obj (props : obj) :
  objects (VObj props) = S (foldr (λ kv n, objects kv.2 + n)%nat 0%nat props).
Proof. reflexivity. Qed.

Lemma objects_arr (elems : list value) :
  objects (VArr elems)
  = S (foldr (λ kv n, objects kv.2 + n)%nat 0%nat (keyed 0 elems)).
Proof.
  simpl. f_equal.
  assert (∀ i, foldr (λ x n, objects x + n)%nat 0%nat elems
               = foldr (λ kv n, objects kv.2 + n)%nat 0%nat (keyed i elems)) as H;
    [|apply H].
  induction elems as [|x l IH]; intros i; simpl; [done | by rewrite (IH (S i))].
Qed.

Lemma depth_arr (elems : list value) :
  depth (VArr elems)
  = S (foldr (λ kv d, Nat.max (depth kv.2) d) 0%nat (keyed 0 elems)).
Proof.
  simpl. f_equal.
  assert (∀ i, foldr (λ x d, Nat.max (depth x) d) 0%nat elems
               = foldr (λ kv d, Nat.max (depth kv.2) d) 0%nat (keyed i elems)) as H;
    [|apply H].
  induction elems as [|x l IH]; intros i; simpl; [done | by rewrite (IH (S i))].
Qed.

Lemma build_props_length (base : nat) (props : obj) :
  Forall (λ kv, ∀ base, length (build base kv.2).2 = objects kv.2) props →
  length (build_props base props).2
  = foldr (λ kv n, objects kv.2 + n)%nat 0%nat props.
Proof.
  intros H. revert base. induction H as [|[k x] props Hx _ IH]; intros base; [done |].
  rewrite build_props_cons. simpl in *. by rewrite length_app, Hx, IH.
Qed.

(** A value takes as many addresses as it has objects. *)
Lemma build_length (base : nat) (v : value) : length (build base v).2 = objects v.
Proof.
  revert base. induction v as [| | | | | elems IH | props IH] using value_induction;
    intros base; try done.
  - rewrite build_arr, objects_arr. simpl. rewrite length_app. simpl.
    rewrite build_props_length; [lia |].
    by apply (Forall_keyed (λ v, ∀ base, length (build base v).2 = objects v)).
  - rewrite build_obj, objects_obj. simpl. rewrite length_app. simpl.
    rewrite build_props_length by done. lia.
Qed.

Lemma build_props_objects (base : nat) (props : obj) :
  length (build_props base props).2
  = foldr (λ kv n, objects kv.2 + n)%nat 0%nat props.
Proof.
  apply build_props_length, Forall_forall. intros kv _ b. apply build_length.
Qed.

Lemma node_induction (P : value → Prop) :
  P VUndef → P VNull → (∀ b, P (VBool b)) → (∀ n, P (VNum n)) → (∀ s, P (VStr s)) →
  (∀ array props, well_keyed array props → Forall (λ kv, P kv.2) props →
                  P (node_value array props)) →
  ∀ v, P v.
Proof.
  intros Hu Hn Hb Hz Hs Hnode v.
  induction v as [| | | | | elems IH | props IH] using value_induction; auto.
  - rewrite <- (keyed_values 0 elems). apply (Hnode true).
    + simpl. by rewrite keyed_values.
    + by apply (Forall_keyed P).
  - by apply (Hnode false).
Qed.

Lemma objects_node (array : bool) (props : obj) :
  objects (node_value array props)
  = S (foldr (λ kv n, objects kv.2 + n)%nat 0%nat props).
Proof.
  destruct array; [|done]. simpl. f_equal.
  induction props as [|[k x] props IH]; csimpl; [done | by rewrite IH].
Qed.

Lemma depth_node (array : bool) (props : obj) :
  depth (node_value array props)
  = S (foldr (λ kv d, Nat.max (depth kv.2) d) 0%nat props).
Proof.
  destruct array; [|done]. simpl. f_equal.
  induction props as [|[k x] props IH]; csimpl; [done | by rewrite IH].
Qed.

Lemma build_node (base : nat) (array : bool) (props : obj) :
  well_keyed array props →
  build base (node_value array props)
  = (HRef (base + length (build_props base props).2),
     (build_props base props).2 ++ [Node array (build_props base props).1]).
Proof.
  destruct array; intros Hk; unfold node_value, well_keyed in *.
  - rewrite build_arr. by rewrite <- Hk.
  - apply build_obj.
Qed.

Lemma for_each_keyed vars (i : nat) (elems : list value) :
  for_each (λ '(k, x), omap_outcome (pair k) (visit vars x)) (keyed i elems)
  = omap_outcome (keyed i) (for_each (visit vars) elems).
Proof.
  revert i. induction elems as [|x l IH]; intros i; [done |].
  simpl. destruct (visit vars x) as [x'|]; [|done]. simpl.
  rewrite IH. by destruct (for_each (visit vars) l).
Qed.

(** A visited object has the same kind and the same keys. *)
Lemma visit_node vars (array : bool) (props : obj) :
  well_keyed array props →
  visit vars (node_value array props)
  = omap_outcome (node_value array)
      (for_each (λ '(k, x), omap_outcome (pair k) (visit vars x)) props).
Proof.
  destruct array; intros Hk; unfold node_value, well_keyed in *;
    cbn [visit]; [|apply replaceVariables_obj].
  rewrite replaceVariables_arr. rewrite Hk at 2. rewrite for_each_keyed.
  destruct (for_each (visit vars) props.*2) as [l|]; [|done].
  simpl. by rewrite keyed_values.
Qed.

Lemma visited_props vars (props props' : obj) :
  for_each (λ '(k, x), omap_outcome (pair k) (visit vars x)) props = Returns props' →
  Forall2 (λ kv kv', kv'.1 = kv.1 ∧ visit vars kv.2 = Returns kv'.2) props props'.
Proof.
  intros H%for_each_Returns. eapply Forall2_impl; [exact H |].
  intros [k x] [k' x'] (y & Hy & [= -> ->])%omap_outcome_Returns. done.
Qed.

Lemma visited_well_keyed vars (array : bool) (props props' : obj) :
  well_keyed array props →
  Forall2 (λ kv kv', kv'.1 = kv.1 ∧ visit vars kv.2 = Returns kv'.2) props props' →
  well_keyed array props'.
Proof.
  destruct array; [|done]. simpl. generalize 0%nat at 1 2.
  intros i Hk H. revert i Hk.
  induction H as [|[k x] [k' x'] props props' [Hkey _] _ IH]; intros i Hk; [done |].
  simpl in *. injection Hk as -> Hk. subst k'. f_equal. by apply IH.
Qed.

Lemma visit_objects vars (v v' : value) :
  visit vars v = Returns v' → objects v' = objects v.
Proof.
  revert v'. induction v as [| | | | s | array props Hk IH] using node_induction;
    intros v'; try (by intros [= <-]).
  - simpl. by intros (s' & _ & ->)%omap_outcome_Returns.
  - rewrite visit_node by done.
    intros (props' & Hp%visited_props & ->)%omap_outcome_Returns.
    rewrite !objects_node. f_equal. clear Hk.
    induction Hp as [|[k x] [k' x'] props props' [_ Hx] _ IHp]; [done |].
    apply Forall_cons in IH as [IHx IH]. simpl in *.
    rewrite (IHx _ Hx). f_equal. by apply IHp.
Qed.

Lemma build_props_visited vars (base : nat) (props props' : obj) :
  Forall2 (λ kv kv', kv'.1 = kv.1 ∧ visit vars kv.2 = Returns kv'.2) props props' →
  length (build_props base props').2 = length (build_props base props).2.
Proof.
  intros H. rewrite !build_props_objects.
  induction H as [|[k x] [k' x'] props props' [_ Hx] _ IH]; [done |].
  simpl in *. by rewrite (visit_objects _ _ _ Hx), IH.
Qed.

Lemma build_props_middle (base : nat) (seen todo : obj) (k : string) (x : value) :
  let b1 := (base + length (build_props base seen).2)%nat in
  let b2 := (b1 + length (build b1 x).2)%nat in
  build_props base (seen ++ (k, x) :: todo)
  = ((build_props base seen).1 ++ (k, (build b1 x).1) :: (build_props b2 todo).1,
     (build_props base seen).2 ++ (build b1 x).2 ++ (build_props b2 todo).2).
Proof. intros b1 b2. by rewrite build_props_app, build_props_cons. Qed.

Lemma addr_of_visited (pre : heap) (seen todo : obj) (k : string) (x x' : value) :
  objects x' = objects x →
  addr_of pre (seen ++ (k, x') :: todo) = addr_of pre (seen ++ (k, x) :: todo).
Proof.
  intros Hx. unfold addr_of. rewrite !build_props_objects.
  rewrite !foldr_app. simpl. by rewrite Hx.
Qed.

Lemma store_of_lookup (pre post : heap) (array : bool) (props : obj) :
  store_of pre array props post !! addr_of pre props
  = Some (Node array (build_props (length pre) props).1).
Proof.
  unfold store_of, addr_of. rewrite app_assoc.
  apply list_lookup_middle. by rewrite length_app.
Qed.

Lemma store_of_get_field (pre post : heap) (array : bool) (seen todo : obj)
    (k : string) (x : value) :
  get_field (store_of pre array (seen ++ (k, x) :: todo) post)
    (addr_of pre (seen ++ (k, x) :: todo)) (length seen)
  = Some (build (addr_of pre seen) x).1.
Proof.
  unfold get_field. rewrite store_of_lookup. simpl.
  rewrite build_props_middle. simpl.
  rewrite list_lookup_middle by (by rewrite build_props_roots_length). done.
Qed.

Lemma store_of_set_string (pre post : heap) (array : bool) (seen todo : obj)
    (k s s' : string) :
  set_field (store_of pre array (seen ++ (k, VStr s) :: todo) post)
    (addr_of pre (seen ++ (k, VStr s) :: todo)) (length seen) (HStr s')
  = store_of pre array (seen ++ (k, VStr s') :: todo) post.
Proof.
  unfold set_field, store_of, addr_of. rewrite !build_props_middle. simpl.
  rewrite (app_assoc pre).
  rewrite <- (Nat.add_0_r (length pre + _)), <- length_app, alter_app_r. simpl.
  rewrite <- app_assoc. do 3 f_equal.
  rewrite <- (Nat.add_0_r (length seen)), <- (build_props_roots_length (length pre) seen).
  by rewrite alter_app_r.
Qed.

(** The objects of one member, with the store split around them. *)
Lemma store_of_split (pre post : heap) (array : bool) (seen todo : obj)
    (k : string) (x : value) :
  let pre0 := pre ++ (build_props (length pre) seen).2 in
  let b2 := (length pre0 + length (build (length pre0) x).2)%nat in
  store_of pre array (seen ++ (k, x) :: todo) post
  = pre0 ++ (build (length pre0) x).2
         ++ ((build_props b2 todo).2
             ++ Node array
                  ((build_props (length pre) seen).1
                   ++ (k, (build (length pre0) x).1) :: (build_props b2 todo).1)
                :: post).
Proof.
  intros pre0 b2. subst b2 pre0. unfold store_of. rewrite build_props_middle. simpl.
  rewrite !length_app, <- !app_assoc. done.
Qed.

Lemma store_of_visited (pre post : heap) (array : bool) (seen todo : obj)
    (k : string) (x x' : value) :
  let pre0 := pre ++ (build_props (length pre) seen).2 in
  let b2 := (length pre0 + length (build (length pre0) x).2)%nat in
  objects x' = objects x →
  (build (length pre0) x').1 = (build (length pre0) x).1 →
  pre0 ++ (build (length pre0) x').2
       ++ ((build_props b2 todo).2
           ++ Node array
                ((build_props (length pre) seen).1
                 ++ (k, (build (length pre0) x).1) :: (build_props b2 todo).1)
              :: post)
  = store_of pre array (seen ++ (k, x') :: todo) post.
Proof.
  intros pre0 b2 Hobjects Hroot.
  rewrite (store_of_split pre post array seen todo k x'). fold pre0.
  rewrite Hroot. subst b2. by rewrite !build_length, Hobjects.
Qed.

Lemma build_root_visited vars (base : nat) (v v' : value) (l : nat) :
  visit vars v = Returns v' →
  (build base v).1 = HRef l →
  (build base v').1 = HRef l.
Proof.
  induction v as [| | | | s | array props Hk _] using node_induction; try done.
  rewrite visit_node by done.
  intros (props' & Hp%visited_props & ->)%omap_outcome_Returns.
  rewrite !build_node by eauto using visited_well_keyed. simpl.
  by rewrite (build_props_visited _ _ _ _ Hp).
Qed.

Lemma addr_of_length (pre : heap) (props : obj) :
  addr_of pre props = length (pre ++ (build_props (length pre) props).2).
Proof. unfold addr_of. by rewrite length_app. Qed.

(** The loop: with [seen] already visited, visiting the keys of [todo] in
    place amounts to visiting [todo]. *)
Lemma walk_keys_store vars (fuel : nat) (pre post : heap) (array : bool)
    (seen todo : obj) :
  Forall (λ kv, walk_correct vars fuel kv.2) todo →
  walk_keys (replaceVariablesH fuel vars) vars (addr_of pre (seen ++ todo))
    (seq (length seen) (length todo)) (store_of pre array (seen ++ todo) post)
  = omap_outcome (λ todo', store_of pre array (seen ++ todo') post)
      (for_each (λ '(k, x), omap_outcome (pair k) (visit vars x)) todo).
Proof.
  revert seen. induction todo as [|[k x] todo IH]; intros seen Hc; [done |].
  apply Forall_cons in Hc as [Hx Hc]. simpl in Hx.
  assert (∀ x', objects x' = objects x →
            walk_keys (replaceVariablesH fuel vars) vars
              (addr_of pre (seen ++ (k, x) :: todo))
              (seq (S (length seen)) (length todo))
              (store_of pre array (seen ++ (k, x') :: todo) post)
            = omap_outcome (λ todo', store_of pre array (seen ++ (k, x') :: todo') post)
                (for_each (λ '(k, x), omap_outcome (pair k) (visit vars x)) todo))
    as Hnext.
  { intros x' Hobjects. specialize (IH (seen ++ [(k, x')]) Hc).
    rewrite length_app, <- app_assoc in IH. simpl in IH.
    rewrite Nat.add_1_r, (addr_of_visited _ _ _ _ _ _ Hobjects) in IH.
    rewrite IH. destruct (for_each _ todo) as [todo'|]; [|done].
    simpl. by rewrite <- app_assoc. }
  cbn [length seq walk_keys for_each]. rewrite store_of_get_field.
  destruct x as [| | b | n | s | elems | props].
  - cbn [build fst visit obind omap_outcome]. rewrite Hnext by done.
    by destruct (for_each _ todo).
  - cbn [build fst visit obind omap_outcome]. rewrite Hnext by done.
    by destruct (for_each _ todo).
  - cbn [build fst visit obind omap_outcome]. rewrite Hnext by done.
    by destruct (for_each _ todo).
  - cbn [build fst visit obind omap_outcome]. rewrite Hnext by done.
    by destruct (for_each _ todo).
  - cbn [build fst visit]. destruct (replaceStringVariables s vars) as [s'|e]; [|done].
    cbn [obind omap_outcome]. rewrite store_of_set_string, Hnext by done.
    by destruct (for_each _ todo).
  - rewrite build_arr. cbn [fst].
    rewrite store_of_split, addr_of_length.
    rewrite Hx by (by rewrite build_arr).
    destruct (visit vars (VArr elems)) as [x'|e] eqn:Hv; [|done].
    cbn [obind omap_outcome].
    rewrite store_of_visited;
      [| by eapply visit_objects
       | rewrite (build_root_visited _ _ _ _ _ Hv (f_equal fst (build_arr _ _)));
         by rewrite build_arr].
    rewrite Hnext by (by eapply visit_objects).
    by destruct (for_each _ todo).
  - rewrite build_obj. cbn [fst].
    rewrite store_of_split, addr_of_length.
    rewrite Hx by (by rewrite build_obj).
    destruct (visit vars (VObj props)) as [x'|e] eqn:Hv; [|done].
    cbn [obind omap_outcome].
    rewrite store_of_visited;
      [| by eapply visit_objects
       | rewrite (build_root_visited _ _ _ _ _ Hv (f_equal fst (build_obj _ _)));
         by rewrite build_obj].
    rewrite Hnext by (by eapply visit_objects).
    by destruct (for_each _ todo).
Qed.

Lemma depth_member (props : obj) (kv : string * value) :
  kv ∈ props →
  (depth kv.2 ≤ foldr (λ kv d, Nat.max (depth kv.2) d) 0%nat props)%nat.
Proof.
  induction 1 as [|? ? ? _ IH]; simpl; lia.
Qed.

Lemma store_of_build (pre post : heap) (array : bool) (props : obj) :
  well_keyed array props →
  pre ++ (build (length pre) (node_value array props)).2 ++ post
  = store_of pre array props post.
Proof. intros Hk. rewrite build_node by done. unfold store_of. simpl. by rewrite <- app_assoc. Qed.

(** The in-place walk is the pure walk. *)
Lemma replaceVariablesH_correct vars (v : value) (fuel : nat) :
  (depth v ≤ fuel)%nat → walk_correct vars fuel v.
Proof.
  revert fuel. induction v as [| | | | s | array props Hk IH] using node_induction;
    intros fuel Hd pre post l Hroot; try done.
  rewrite depth_node in Hd. destruct fuel as [|fuel]; [lia |].
  rewrite store_of_build by done.
  rewrite build_node in Hroot by done. injection Hroot as <-.
  fold (addr_of pre props). cbn [replaceVariablesH].
  rewrite store_of_lookup. cbn [fmap option_fmap option_map default fields].
  unfold id. rewrite build_props_roots_length.
  pose proof (walk_keys_store vars fuel pre post array [] props) as Hw.
  cbn [app length] in Hw. rewrite Hw.
  - rewrite visit_node by done.
    destruct (for_each _ props) as [props'|] eqn:Hp; [|done]. simpl.
    rewrite store_of_build; [done |].
    eapply visited_well_keyed; [done |]. by apply visited_props.
  - rewrite Forall_forall in IH. apply Forall_forall. intros kv Hin.
    apply IH; [done |]. pose proof (depth_member _ _ Hin). lia.
Qed.

(** ** Reading the store *)

Lemma reify_member_Some (fuel : nat) (h : heap) (k : string) (y : hval)
    (kv : string * value) :
  pair k <$> reify fuel h y = Some kv ↔ kv.1 = k ∧ reify fuel h y = Some kv.2.
Proof.
  destruct kv as [k' v]. destruct (reify fuel h y) as [v'|]; simpl.
  - split; [by intros [= -> ->] | by intros [-> [= ->]]].
  - split; [done | by intros [_ ?]].
Qed.

(** More fuel and more objects do not change what is read. *)
Lemma reify_mono (fuel fuel' : nat) (h h2 : heap) (x : hval) (v : value) :
  reify fuel h x = Some v →
  (fuel ≤ fuel')%nat →
  (∀ l o, h !! l = Some o → h2 !! l = Some o) →
  reify fuel' h2 x = Some v.
Proof.
  intros Hr Hf Hh. revert fuel' x v Hr Hf.
  induction fuel as [|fuel IH]; intros fuel' x v Hr Hf.
  - destruct fuel', x; simpl in *; congruence.
  - destruct x as [| | | | |l]; try (destruct fuel'; simpl in *; congruence).
    destruct fuel' as [|fuel']; [lia |]. cbn [reify] in *.
    apply bind_Some in Hr as (o & Ho & Hr).
    apply bind_Some in Hr as (props & Hp & [= <-]).
    rewrite (Hh _ _ Ho). cbn [mbind option_bind].
    assert (mapM (λ '(key, y), pair key <$> reify fuel' h2 y) (fields o) = Some props)
      as ->; [|done].
    apply mapM_Some. apply mapM_Some in Hp.
    eapply Forall2_impl; [exact Hp |].
    intros [k y] kv. rewrite !reify_member_Some. intros [-> Hy].
    split; [done |]. apply IH; [done | lia].
Qed.

(** The members built after [seen] read back as they were built, whatever
    else the store holds after the objects of the members. *)
Lemma reify_members (fuel : nat) (pre rest : heap) (seen todo : obj) :
  Forall (λ kv, ∀ pre0 post0,
            reify fuel (pre0 ++ (build (length pre0) kv.2).2 ++ post0)
              (build (length pre0) kv.2).1 = Some kv.2) todo →
  mapM (λ '(key, y),
          pair key <$> reify fuel
            (pre ++ (build_props (length pre) (seen ++ todo)).2 ++ rest) y)
    (build_props (addr_of pre seen) todo).1
  = Some todo.
Proof.
  revert seen. induction todo as [|[k x] todo IH]; intros seen Hm; [done |].
  apply Forall_cons in Hm as [Hx Hm]. simpl in Hx.
  rewrite build_props_cons. cbn [fst mapM].
  assert (pre ++ (build_props (length pre) (seen ++ (k, x) :: todo)).2 ++ rest
          = (pre ++ (build_props (length pre) seen).2)
            ++ (build (addr_of pre seen) x).2
            ++ ((build_props (addr_of pre seen + length (build (addr_of pre seen) x).2)
                  todo).2 ++ rest)) as Hsplit.
  { rewrite build_props_middle. simpl. unfold addr_of. by rewrite <- !app_assoc. }
  assert (reify fuel
            (pre ++ (build_props (length pre) (seen ++ (k, x) :: todo)).2 ++ rest)
            (build (addr_of pre seen) x).1 = Some x) as ->.
  { rewrite Hsplit, addr_of_length. apply Hx. }
  cbn [fmap option_fmap option_map mbind option_bind].
  specialize (IH (seen ++ [(k, x)]) Hm).
  rewrite <- app_assoc in IH. simpl in IH.
  assert (addr_of pre (seen ++ [(k, x)])
          = (addr_of pre seen + length (build (addr_of pre seen) x).2)%nat) as Haddr.
  { unfold addr_of. rewrite build_props_app, build_props_cons. simpl.
    rewrite !length_app. simpl. lia. }
  rewrite Haddr in IH. rewrite IH. done.
Qed.

Lemma depth_le_objects (v : value) : (depth v ≤ objects v)%nat.
Proof.
  induction v as [| | | | | array props _ IH] using node_induction; try done.
  rewrite depth_node, objects_node. apply le_n_S.
  induction IH as [|kv props Hkv _ IHp]; simpl; lia.
Qed.

(** What was built reads back. *)
Lemma reify_build (v : value) (fuel : nat) (pre post : heap) :
  (depth v ≤ fuel)%nat →
  reify fuel (pre ++ (build (length pre) v).2 ++ post) (build (length pre) v).1
  = Some v.
Proof.
  revert fuel pre post.
  induction v as [| | | | | array props Hk IH] using node_induction;
    intros fuel pre post Hd; try (by destruct fuel).
  rewrite depth_node in Hd. destruct fuel as [|fuel]; [lia |].
  rewrite store_of_build by done. rewrite build_node by done. cbn [fst reify].
  fold (addr_of pre props). rewrite store_of_lookup. cbn [mbind option_bind fields is_array].
  pose proof (reify_members fuel pre (Node array (build_props (length pre) props).1 :: post)
                [] props) as Hm.
  cbn [app] in Hm. unfold addr_of in Hm at 1. simpl in Hm.
  rewrite Nat.add_0_r in Hm. unfold store_of. rewrite Hm; [done |].
  rewrite Forall_forall in IH. apply Forall_forall. intros kv Hin pre0 post0.
  apply IH; [done |]. pose proof (depth_member _ _ Hin). lia.
Qed.

Lemma mapM_fields_set (g : hval → option value) (fs : list (string * hval))
    (props : obj) (key : string) (y : hval) (v : value) :
  mapM (λ '(k, y), pair k <$> g y) fs = Some props →
  g y = Some v →
  mapM (λ '(k, y), pair k <$> g y) (fields_set fs key y)
  = Some (obj_set props key v).
Proof.
  intros Hfs Hy. apply mapM_Some. apply mapM_Some in Hfs.
  induction Hfs as [|[k x] [k' x'] fs props Hx Hrest IH]; simpl.
  - constructor; [by rewrite Hy | constructor].
  - simpl in Hx. destruct (g x) as [vx|] eqn:Hgx; [|done]. injection Hx as <- <-.
    destruct (String.eqb k key).
    + constructor; [by simpl; rewrite Hy | done].
    + constructor; [by simpl; rewrite Hgx | done].
Qed.

(** An allocated object with a freshly allocated member set on it reads as
    the object with that member set. *)
Lemma allocated_event_reads (h : heap) (props : obj) (key : string) (m : value) :
  let '(event, h1) := allocate (VObj props) h in
  let '(member, h2) := allocate m h1 in
  JSON_stringify (set_propertyH event key member h2) event
  = Returns (VObj (obj_set props key m)).
Proof.
  unfold allocate. rewrite build_obj.
  set (fs := (build_props (length h) props).1).
  set (N := (build_props (length h) props).2).
  set (h1 := h ++ N ++ [Node false fs]).
  destruct (build (length h1) m) as [rm Nm] eqn:Hm.
  cbn [set_propertyH].
  assert (alter (λ n, Node (is_array n) (fields_set (fields n) key rm))
            (length h + length N)%nat (h1 ++ Nm)
          = h ++ N ++ Node false (fields_set fs key rm) :: Nm) as ->.
  { subst h1. rewrite <- !app_assoc, <- length_app. rewrite (app_assoc h N).
    rewrite <- (Nat.add_0_r (length (h ++ N))), alter_app_r. simpl.
    by rewrite <- app_assoc. }
  set (Hf := h ++ N ++ Node false (fields_set fs key rm) :: Nm).
  assert (length h1 = length (h ++ N ++ [Node false (fields_set fs key rm)])) as Hlen.
  { subst h1. by rewrite !length_app. }
  assert (length Hf = length h + objects (VObj props) + objects m)%nat as HlenHf.
  { subst Hf N. rewrite objects_obj, <- (build_length (length h1) m), Hm.
    rewrite !length_app, build_props_objects. simpl. lia. }
  unfold JSON_stringify. cbn [reify].
  assert (Hf !! (length h + length N)%nat = Some (Node false (fields_set fs key rm)))
    as ->.
  { subst Hf. rewrite app_assoc. apply list_lookup_middle. by rewrite length_app. }
  cbn [mbind option_bind fields is_array].
  rewrite (mapM_fields_set (reify (length Hf) Hf) fs props key rm m); [done | |].
  - pose proof (reify_members (length Hf) h
                  (Node false (fields_set fs key rm) :: Nm) [] props) as Hmem.
    cbn [app] in Hmem. unfold addr_of in Hmem at 1. simpl in Hmem.
    rewrite Nat.add_0_r in Hmem. apply Hmem.
    apply Forall_forall. intros kv Hin pre0 post0. apply reify_build.
    pose proof (depth_member _ _ Hin). pose proof (depth_le_objects (VObj props)).
    simpl in *. lia.
  - pose proof (reify_build m (length Hf)
                  (h ++ N ++ [Node false (fields_set fs key rm)]) []) as Hr.
    rewrite <- Hlen, Hm in Hr. cbn [fst snd] in Hr.
    rewrite app_nil_r, <- !app_assoc in Hr. apply Hr.
    pose proof (depth_le_objects m). lia.
Qed.

(** Instantiating a stored template is instantiating the value it reads as,
    and allocating the result. *)
Lemma processTemplateH_refines vars (template : nat) (t : obj) (h : heap) :
  reify (S (length h)) h (HRef template) = Some (VObj t) →
  processTemplateH template vars h
  = omap_outcome (λ out, allocate out h) (processTemplate t vars).
Proof.
  intros Ht. unfold processTemplateH, JSON_stringify, processTemplate.
  rewrite Ht. cbn [obind].
  change (replaceVariables vars (json_clone (VObj t)))
    with (visit vars (json_clone (VObj t))).
  set (c := json_clone (VObj t)).
  assert (∃ l, (build (length h) c).1 = HRef l) as [l Hl].
  { subst c. cbn [json_clone]. rewrite build_obj. by eexists. }
  unfold allocate at 1.
  destruct (build (length h) c) as [x nodes] eqn:Hb. simpl in Hl. subst x.
  pose proof (replaceVariablesH_correct vars c (S (length (h ++ nodes)))) as Hw.
  assert (depth c ≤ S (length (h ++ nodes)))%nat as Hd.
  { pose proof (depth_le_objects c) as Hc.
    rewrite <- (build_length (length h) c), Hb in Hc.
    rewrite length_app. cbn [snd] in Hc. lia. }
  specialize (Hw Hd h [] l).
  rewrite Hb in Hw. cbn [fst snd] in Hw. rewrite app_nil_r in Hw.
  rewrite Hw by done.
  destruct (visit vars c) as [v'|e] eqn:Hv; [|done].
  cbn [omap_outcome obind]. unfold allocate.
  pose proof (build_root_visited vars (length h) c v' l Hv) as Hroot.
  rewrite Hb in Hroot. specialize (Hroot eq_refl).
  destruct (build (length h) v') as [x' nodes'] eqn:Hb'. simpl in Hroot. subst x'.
  by rewrite app_nil_r.
Qed.

(** ** The stored generation and the generation on values *)

Section Store_properties.
Variable Date_now : nat → Z.
Variable toISOString : Z → string.

(** Sessions do not depend on what the registry holds. *)
Lemma getSessionId_with_templates {T U} (clientId : option string)
    (a : UIAgent T) (m : gmap string U) :
  getSessionId Date_now toISOString clientId (with_templates a m)
  = ((getSessionId Date_now toISOString clientId a).1,
     with_templates (getSessionId Date_now toISOString clientId a).2 m).
Proof.
  destruct clientId as [[|c0 c]|]; try done.
  unfold getSessionId. cbn [with_templates activeSessions].
  by destruct (activeSessions a !! String c0 c).
Qed.

Lemma with_templates_own {T} (a : UIAgent T) (m : gmap string T) :
  eventTemplates a = m → with_templates a m = a.
Proof. intros <-. by destruct a. Qed.

(** A registered, stored template. *)
Lemma generateEventH_registered (templateId : string) vars
    (clientId : option string) (a : UIAgent nat) (h : heap) (template : nat) :
  eventTemplates a !! templateId = Some template →
  generateEventH Date_now toISOString templateId vars clientId (a, h)
  = let timestamp := toISOString (Date_now (clock a)) in
    let '(sessionId, a1) := getSessionId Date_now toISOString clientId (tick a) in
    let merged := mergedVariables (defaultVariables timestamp sessionId) vars in
    match processTemplateH template merged h with
    | Throws e => (Throws e, (a1, h))
    | Returns (event, h1) =>
        let '(metadata, h2) :=
          allocate (agui_metadata templateId (toISOString (Date_now (clock a1)))
                      clientId) h1 in
        (Returns event, (tick a1, set_propertyH event "agui_metadata" metadata h2))
    end.
Proof.
  intros Ht. unfold generateEventH. rewrite Ht.
  unfold new_Date_toISOString, now. simpl.
  destruct (getSessionId Date_now toISOString clientId (tick a)) as [sid a1].
  destruct (processTemplateH _ _ _) as [[event h1]|e]; [|done].
  by destruct (allocate _ h1).
Qed.

(** What a caller sees of a generation from a stored template is the
    generation from the value the template reads as. *)
Lemma generateEventH_observe (templateId : string) vars (clientId : option string)
    (a : UIAgent nat) (h : heap) (template : nat) (t : obj) :
  eventTemplates a !! templateId = Some template →
  reify (S (length h)) h (HRef template) = Some (VObj t) →
  observe (generateEventH Date_now toISOString templateId vars clientId (a, h))
  = ((generateEvent Date_now toISOString templateId vars clientId
        (with_templates a {[ templateId := t ]})).1,
     with_templates
       (generateEvent Date_now toISOString templateId vars clientId
          (with_templates a {[ templateId := t ]})).2
       (eventTemplates a)).
Proof.
  intros Hid Ht.
  rewrite (generateEventH_registered _ _ _ _ _ _ Hid).
  rewrite (generateEvent_registered Date_now toISOString templateId vars clientId
             (with_templates a {[ templateId := t ]}) t)
    by apply lookup_singleton_eq.
  cbn zeta.
  change (tick (with_templates a {[ templateId := t ]}))
    with (with_templates (tick a) ({[ templateId := t ]} : gmap string obj)).
  change (clock (with_templates a {[ templateId := t ]})) with (clock a).
  rewrite getSessionId_with_templates.
  pose proof (getSessionId_templates Date_now toISOString clientId (tick a)) as Hs.
  destruct (getSessionId Date_now toISOString clientId (tick a)) as [sid a1].
  cbn [fst snd] in *. cbn [tick eventTemplates] in Hs.
  rewrite processTemplateH_refines with (t := t) by done.
  destruct (processTemplate t _) as [out|e] eqn:Hp; cbn [omap_outcome obind].
  - destruct (processTemplate_obj _ _ _ Hp) as [props ->].
    cbn [with_templates clock].
    pose proof (allocated_event_reads h props "agui_metadata"
                  (agui_metadata templateId (toISOString (Date_now (clock a1)))
                     clientId)) as Hread.
    destruct (allocate (VObj props) h) as [event h1].
    destruct (allocate _ h1) as [metadata h2].
    unfold observe. cbn [fst snd set_property]. rewrite Hread.
    f_equal. destruct a1; simpl in *; by subst.
  - unfold observe. cbn [fst snd]. f_equal. destruct a1; simpl in *; by subst.
Qed.

End Store_properties.

(** ** Fresh objects refer to fresh objects only *)

Lemma refs_from_le (n m : nat) (o : node) :
  (n ≤ m)%nat → refs_from m o → refs_from n o.
Proof. intros Hnm Ho key l Hin. specialize (Ho key l Hin). lia. Qed.

Lemma refs_from_fields (n : nat) (array : bool) (fs : list (string * hval)) :
  Forall (λ kv, fresh_root n kv.2) fs → refs_from n (Node array fs).
Proof.
  intros Hfs key l Hin. rewrite Forall_forall in Hfs. apply (Hfs _ Hin).
Qed.

Lemma build_props_fresh (n base : nat) (props : obj) :
  Forall (λ kv, ∀ base, (n ≤ base)%nat →
            fresh_root n (build base kv.2).1
            ∧ Forall (refs_from n) (build base kv.2).2) props →
  (n ≤ base)%nat →
  Forall (λ kv, fresh_root n kv.2) (build_props base props).1
  ∧ Forall (refs_from n) (build_props base props).2.
Proof.
  revert base. induction props as [|[k x] props IH]; intros base Hm Hb.
  - split; constructor.
  - apply Forall_cons in Hm as [Hx Hm]. rewrite build_props_cons.
    destruct (Hx base Hb) as [Hroot Hnodes].
    destruct (IH (base + length (build base x).2)%nat Hm ltac:(lia)) as [Hr Hn].
    split; [by constructor | by apply Forall_app].
Qed.

Lemma build_fresh (n base : nat) (v : value) :
  (n ≤ base)%nat →
  fresh_root n (build base v).1 ∧ Forall (refs_from n) (build base v).2.
Proof.
  revert base. induction v as [| | | | | array props Hk IH] using node_induction;
    intros base Hb; try (split; [exact I | constructor]).
  rewrite build_node by done. cbn [fst snd].
  destruct (build_props_fresh n base props IH Hb) as [Hr Hn].
  split; [simpl; lia |].
  apply Forall_app. split; [done |].
  constructor; [by apply refs_from_fields | constructor].
Qed.

Lemma fields_set_fresh (n : nat) (fs : list (string * hval)) (key : string) (y : hval) :
  Forall (λ kv, fresh_root n kv.2) fs → fresh_root n y →
  Forall (λ kv, fresh_root n kv.2) (fields_set fs key y).
Proof.
  intros Hfs Hy. induction Hfs as [|[k x] fs Hx Hfs IH]; simpl.
  - by constructor.
  - destruct (String.eqb k key); constructor; done.
Qed.

(** From a fresh root in a store whose new objects refer to new objects
    only, nothing older can be reached. *)
Lemma reach_fresh (h rest : heap) (x : hval) (l : nat) :
  Forall (refs_from (length h)) rest →
  fresh_root (length h) x →
  reach (h ++ rest) x l → (length h ≤ l)%nat.
Proof.
  intros Hrest Hx Hreach. induction Hreach as [l|l0 o key y l Hl Hin _ IH]; [done |].
  apply IH. simpl in Hx.
  rewrite lookup_app_r in Hl by done.
  rewrite Forall_forall in Hrest.
  pose proof (Hrest o (list_elem_of_lookup_2 _ _ _ Hl)) as Ho.
  destruct y as [| | | | |l']; try exact I. simpl. by apply (Ho key).
Qed.

(** The stamped event is made of objects allocated after [h], which refer
    to one another only, and [h] is below them unchanged. *)
Lemma allocated_event_store (h : heap) (props : obj) (key : string) (m : value) :
  let '(event, h1) := allocate (VObj props) h in
  let '(member, h2) := allocate m h1 in
  fresh_root (length h) event
  ∧ ∃ rest, set_propertyH event key member h2 = h ++ rest
            ∧ Forall (refs_from (length h)) rest.
Proof.
  unfold allocate. rewrite build_obj.
  set (fs := (build_props (length h) props).1).
  set (N := (build_props (length h) props).2).
  set (h1 := h ++ N ++ [Node false fs]).
  destruct (build (length h1) m) as [rm Nm] eqn:Hm.
  cbn [set_propertyH].
  assert (alter (λ n, Node (is_array n) (fields_set (fields n) key rm))
            (length h + length N)%nat (h1 ++ Nm)
          = h ++ N ++ Node false (fields_set fs key rm) :: Nm) as ->.
  { subst h1. rewrite <- !app_assoc, <- length_app. rewrite (app_assoc h N).
    rewrite <- (Nat.add_0_r (length (h ++ N))), alter_app_r. simpl.
    by rewrite <- app_assoc. }
  split; [simpl; lia |]. eexists. split; [done |].
  destruct (build_props_fresh (length h) (length h) props) as [Hfs HN]; [|done|].
  { apply Forall_forall. intros kv _ base Hb. by apply build_fresh. }
  destruct (build_fresh (length h) (length h1) m) as [Hrm HNm].
  { subst h1. rewrite length_app. lia. }
  rewrite Hm in Hrm, HNm. cbn [fst snd] in Hrm, HNm.
  apply Forall_app. split; [done |]. constructor; [|done].
  apply refs_from_fields. by apply fields_set_fresh.
Qed.

(** ** Mutations of objects allocated later *)

Lemma mutated_below (n : nat) (h h' : heap) :
  mutated n h h' → (n ≤ length h)%nat →
  (length h ≤ length h')%nat ∧ ∀ l, (l < n)%nat → h' !! l = h !! l.
Proof.
  intros Hm Hn. induction Hm as [h|h h' l o _ IH Hl|h h' o _ IH].
  - done.
  - destruct (IH Hn) as [Hlen Hlow]. split; [by rewrite length_insert |].
    intros l' Hl'. rewrite list_lookup_insert_ne by lia. by apply Hlow.
  - destruct (IH Hn) as [Hlen Hlow]. split; [rewrite length_app; simpl; lia |].
    intros l' Hl'. rewrite lookup_app_l by lia. by apply Hlow.
Qed.

Section Isolation.
Variable Date_now : nat → Z.
Variable toISOString : Z → string.

(** A generation leaves the store it started from in place and puts the
    event after it. *)
Lemma generateEventH_store (templateId : string) vars (clientId : option string)
    (a a' : UIAgent nat) (h h' : heap) (template : nat) (t : obj) (event : hval) :
  eventTemplates a !! templateId = Some template →
  reify (S (length h)) h (HRef template) = Some (VObj t) →
  generateEventH Date_now toISOString templateId vars clientId (a, h)
  = (Returns event, (a', h')) →
  fresh_root (length h) event
  ∧ eventTemplates a' = eventTemplates a
  ∧ ∃ rest, h' = h ++ rest ∧ Forall (refs_from (length h)) rest.
Proof.
  intros Hid Ht. rewrite (generateEventH_registered _ _ _ _ _ _ _ _ Hid). cbn zeta.
  pose proof (getSessionId_templates Date_now toISOString clientId (tick a)) as Hs.
  destruct (getSessionId Date_now toISOString clientId (tick a)) as [sid a1].
  cbn [fst snd tick eventTemplates] in Hs.
  rewrite processTemplateH_refines with (t := t) by done.
  destruct (processTemplate t _) as [out|e] eqn:Hp; cbn [omap_outcome obind]; [|done].
  destruct (processTemplate_obj _ _ _ Hp) as [props ->].
  pose proof (allocated_event_store h props "agui_metadata"
                (agui_metadata templateId (toISOString (Date_now (clock a1)))
                   clientId)) as Hstore.
  destruct (allocate (VObj props) h) as [event0 h1].
  destruct (allocate _ h1) as [metadata h2].
  intros [= <- <- <-]. destruct Hstore as [Hroot Hrest]. done.
Qed.

(** C5.  Deep-copy isolation.  Let the registry hold under [templateId] a
    reference to a template that reads as [t] in the store [h], and let a
    generation from it return [event] and leave the store [h'].
    Every object that can be reached from [event] was allocated by this
    generation, after all of [h]: the event shares no object with the
    template or with anything older.  And whatever is then done to the
    objects allocated since, or allocated later, the registry still holds
    the same reference under [templateId], the template still reads as
    [t], and a later generation from [templateId] shows its caller the
    event and the agent it would have shown without the mutation. *)
Theorem generated_event_isolated (templateId : string) vars
    (clientId : option string) (a a' : UIAgent nat) (h h' : heap)
    (template : nat) (t : obj) (event : hval) :
  eventTemplates a !! templateId = Some template →
  reify (S (length h)) h (HRef template) = Some (VObj t) →
  generateEventH Date_now toISOString templateId vars clientId (a, h)
  = (Returns event, (a', h')) →
  (∀ l, reach h' event l → (length h ≤ l)%nat)
  ∧ ∀ h'', mutated (length h) h' h'' →
      eventTemplates a' !! templateId = Some template
      ∧ JSON_stringify h'' (HRef template) = Returns (VObj t)
      ∧ ∀ vars2 clientId2,
          observe (generateEventH Date_now toISOString templateId vars2 clientId2
                     (a', h''))
          = observe (generateEventH Date_now toISOString templateId vars2 clientId2
                       (a', h')).
Proof.
  intros Hid Ht Hgen.
  destruct (generateEventH_store _ _ _ _ _ _ _ _ _ _ Hid Ht Hgen)
    as (Hroot & Htpl & rest & -> & Hrest).
  split; [intros l; by apply reach_fresh |].
  intros h'' Hmut.
  destruct (mutated_below _ _ _ Hmut) as [Hlen Hlow]; [rewrite length_app; lia |].
  rewrite length_app in Hlen.
  assert (∀ l o, h !! l = Some o → (h ++ rest) !! l = Some o) as Hext
    by (intros l o Hl; by apply lookup_app_l_Some).
  assert (∀ l o, h !! l = Some o → h'' !! l = Some o) as Hext'.
  { intros l o Hl. rewrite Hlow; [by apply Hext | by apply lookup_lt_Some in Hl]. }
  assert (reify (S (length (h ++ rest))) (h ++ rest) (HRef template) = Some (VObj t))
    as Hr.
  { eapply reify_mono; [exact Ht | rewrite length_app; lia | done]. }
  assert (reify (S (length h'')) h'' (HRef template) = Some (VObj t)) as Hr'.
  { eapply reify_mono; [exact Ht | lia | done]. }
  rewrite Htpl. split_and!.
  - done.
  - unfold JSON_stringify. by rewrite Hr'.
  - intros vars2 clientId2.
    rewrite (generateEventH_observe Date_now toISOString templateId vars2 clientId2
               a' h'' template t) by (by rewrite ?Htpl).
    by rewrite (generateEventH_observe Date_now toISOString templateId vars2
                  clientId2 a' (h ++ rest) template t) by (by rewrite ?Htpl).
Qed.

End Isolation.

Lemma generated_event_isolated_witness :
  let res := generateEventH sample_clock sample_iso "greeting"
               {[ "nick" := VStr "Ann" ]} (Some "c1") stored_agent in
  let h'' := <[3%nat := Node false [("type", HStr "hacked")]]> res.2.2 in
  res.1 = Returns (HRef 3)
  ∧ (∀ l, reach res.2.2 (HRef 3) l → (2 ≤ l)%nat)
  ∧ JSON_stringify h'' (HRef 3) = Returns (VObj [("type", VStr "hacked")])
  ∧ eventTemplates res.2.1 !! "greeting" = Some 1%nat
  ∧ JSON_stringify h'' (HRef 1) = Returns (VObj greeting_template)
  ∧ ∀ vars2 clientId2,
      observe (generateEventH sample_clock sample_iso "greeting" vars2 clientId2
                 (res.2.1, h''))
      = observe (generateEventH sample_clock sample_iso "greeting" vars2 clientId2
                   (res.2.1, res.2.2)).
Proof.
  intros res h''.
  destruct (generated_event_isolated sample_clock sample_iso "greeting"
              {[ "nick" := VStr "Ann" ]} (Some "c1")
              stored_agent.1 res.2.1 stored_agent.2 res.2.2 1 greeting_template
              (HRef 3)) as [Hreach Hmut].
  - vm_compute; reflexivity.
  - vm_compute; reflexivity.
  - vm_compute; reflexivity.
  - destruct (Hmut h'') as (Hid & Ht & Hlater).
    + apply mutated_write; [apply mutated_refl | simpl; lia].
    + split_and!.
      * vm_compute; reflexivity.
      * exact Hreach.
      * vm_compute; reflexivity.
      * exact Hid.
      * exact Ht.
      * exact Hlater.
Defined.

(** The bound matters: a write to the template itself, which is older than
    the event, does show in the next event. *)
Example template_mutation_visible :
  let res := generateEventH sample_clock sample_iso "greeting"
               {[ "nick" := VStr "Ann" ]} (Some "c1") stored_agent in
  let h'' := <[1%nat := Node false [("type", HStr "hacked")]]> res.2.2 in
  (observe (generateEventH sample_clock sample_iso "greeting" ∅ (Some "c1")
              (res.2.1, h''))).1
  ≠ (observe (generateEventH sample_clock sample_iso "greeting" ∅ (Some "c1")
                (res.2.1, res.2.2))).1.
Proof. vm_compute. discriminate. Qed.

(** * Template management, UI state and life cycle *)

Section Registry_properties.
Variable Date_now : nat → Z.
Variable toISOString : Z → string.

(** X1.  [removeTemplate] answers [true] exactly when the id was
    registered.  An id that was not registered leaves the agent as it was,
    log included.  Afterwards the id is gone, every other id is held as
    before, and generating from the removed id throws the not-found error. *)
Theorem removeTemplate_then_generate (templateId : string) (a : UIAgent obj)
    vars (clientId : option string) :
  let removed := (removeTemplate templateId a).1 in
  let a' := (removeTemplate templateId a).2 in
  (removed = true ↔ is_Some (getTemplate templateId a))
  ∧ (removed = false → a' = a)
  ∧ getTemplate templateId a' = None
  ∧ (∀ other, other ≠ templateId → getTemplate other a' = getTemplate other a)
  ∧ generateEvent Date_now toISOString templateId vars clientId a'
    = (Throws (Error ("Template '" +:+ templateId +:+ "' not found")), a').
Proof.
  unfold removeTemplate, getTemplate.
  destruct (eventTemplates a !! templateId) as [t|] eqn:Ht; cbn [fst snd].
  - assert (eventTemplates
              (log Debug ("Template removed: " +:+ templateId)
                 (with_templates a (delete templateId (eventTemplates a))))
            !! templateId = None) as Hgone by apply lookup_delete_eq.
    split_and!.
    + split; [by eexists | done].
    + done.
    + done.
    + intros other Hne. by apply lookup_delete_ne.
    + unfold generateEvent. by rewrite Hgone.
  - split_and!.
    + split; [done | by intros [? ?]].
    + done.
    + done.
    + done.
    + unfold generateEvent. by rewrite Ht.
Qed.

(** X2.  [addCustomTemplate] registers the template under the id, in place
    of whatever the id held, built-in or not; every other id, the sessions
    and the UI states are as before; and the next generation from the id
    processes the new template. *)
Theorem addCustomTemplate_then_generate (templateId : string) (template : obj)
    (a : UIAgent obj) vars (clientId : option string) :
  let a1 := addCustomTemplate templateId template a in
  getTemplate templateId a1 = Some template
  ∧ (∀ other, other ≠ templateId → getTemplate other a1 = getTemplate other a)
  ∧ activeSessions a1 = activeSessions a
  ∧ uiStates a1 = uiStates a
  ∧ (generateEvent Date_now toISOString templateId vars clientId a1).1
    = let session := getSessionId Date_now toISOString clientId (tick a1) in
      omap_outcome
        (λ event,
           set_property event "agui_metadata"
             (agui_metadata templateId (toISOString (Date_now (clock session.2)))
                clientId))
        (processTemplate template
           (mergedVariables
              (defaultVariables (toISOString (Date_now (clock a))) session.1)
              vars)).
Proof.
  cbn zeta. unfold getTemplate.
  assert (eventTemplates (addCustomTemplate templateId template a) !! templateId
          = Some template) as Hreg by apply lookup_insert_eq.
  split_and!.
  - done.
  - intros other Hne. by apply lookup_insert_ne.
  - done.
  - done.
  - rewrite (generateEvent_registered _ _ _ _ _ _ _ Hreg). cbn zeta.
    destruct (getSessionId _ _ clientId _) as [sid a2]. cbn [fst snd].
    by destruct (processTemplate _ _).
Qed.

(** X3.  Registering under an id and then removing the id leaves the
    registry without the id: a fresh id is undone exactly, an overridden
    built-in is lost and not restored.  Registering twice under one id keeps
    the second template only. *)
Theorem addCustomTemplate_removeTemplate {T} (templateId : string)
    (template template2 : T) (a : UIAgent T) :
  (removeTemplate templateId (addCustomTemplate templateId template a)).1 = true
  ∧ eventTemplates
      (removeTemplate templateId (addCustomTemplate templateId template a)).2
    = delete templateId (eventTemplates a)
  ∧ (eventTemplates a !! templateId = None →
     eventTemplates
       (removeTemplate templateId (addCustomTemplate templateId template a)).2
     = eventTemplates a)
  ∧ eventTemplates
      (addCustomTemplate templateId template2
         (addCustomTemplate templateId template a))
    = eventTemplates (addCustomTemplate templateId template2 a).
Proof.
  unfold removeTemplate.
  assert (eventTemplates (addCustomTemplate templateId template a) !! templateId
          = Some template) as -> by apply lookup_insert_eq.
  cbn [fst snd addCustomTemplate log with_templates eventTemplates].
  split_and!.
  - done.
  - apply delete_insert_eq.
  - intros Hfresh. rewrite delete_insert_eq. by apply delete_id.
  - apply insert_insert_eq.
Qed.

(** X4.  [updateUIState] stores the value before it logs it: whether the
    log line can be printed or not, [getUIState] then answers with the
    value for that client and key, and with what it answered before for
    every other client or key.  The call throws exactly when the value
    cannot be printed, and it leaves the registry and the sessions alone. *)
Theorem updateUIState_getUIState {T} (clientId stateKey : string)
    (stateValue : value) (a : UIAgent T) :
  let r := (updateUIState clientId stateKey stateValue a).1 in
  let a' := (updateUIState clientId stateKey stateValue a).2 in
  getUIState clientId stateKey a' = stateValue
  ∧ (∀ c k, (c, k) ≠ (clientId, stateKey) → getUIState c k a' = getUIState c k a)
  ∧ (∀ e, r = Throws e ↔ ToString stateValue = Throws e)
  ∧ eventTemplates a' = eventTemplates a
  ∧ activeSessions a' = activeSessions a.
Proof.
  cbn zeta. unfold updateUIState, getUIState.
  destruct (ToString stateValue) as [shown|e0]; cbn [fst snd log with_uiStates
    uiStates eventTemplates activeSessions].
  all: split_and!.
  all: try done.
  all: try (rewrite lookup_insert_eq; simpl; by rewrite lookup_insert_eq).
  all: try (intros c k Hne; destruct (decide (c = clientId)) as [->|Hc];
            [ rewrite lookup_insert_eq; simpl;
              rewrite lookup_insert_ne by congruence;
              by destruct (uiStates a !! clientId)
            | by rewrite lookup_insert_ne ]).
  all: intros e; split; by intros [= ->].
Qed.

(** X5.  Life cycle.  [initialize] loads no template and starts no
    session: apart from three log lines the agent is as the constructor
    left it.  [shutdown] forgets every session and every UI state and keeps
    the registry.  So afterwards every UI state reads [undefined], and a
    client that had a session is given a new one, named after the clock
    reading of its next request. *)
Theorem shutdown_forgets {T} (a : UIAgent T) :
  eventTemplates (initialize a) = eventTemplates a
  ∧ activeSessions (initialize a) = activeSessions a
  ∧ uiStates (initialize a) = uiStates a
  ∧ eventTemplates (shutdown a) = eventTemplates a
  ∧ activeSessions (shutdown a) = ∅
  ∧ (∀ c k, getUIState c k (shutdown a) = VUndef)
  ∧ clock (shutdown a) = clock a
  ∧ (∀ c, c ≠ "" →
       (getSessionId Date_now toISOString (Some c) (shutdown a)).1
       = "session-" +:+ c +:+ "-" +:+ pretty (Date_now (clock a))).
Proof.
  split_and!; try done.
  intros c Hc. rewrite getSessionId_tracked by done. done.
Qed.

End Registry_properties.

(** * Analytics *)

Lemma count_prefixed_cons (p k : string) (keys : list string) :
  count_prefixed p (k :: keys)
  = ((if startsWith k p then 1 else 0) + count_prefixed p keys)%nat.
Proof. unfold count_prefixed. simpl. by destruct (startsWith k p). Qed.

Lemma count_prefixed_perm (p : string) (l1 l2 : list string) :
  l1 ≡ₚ l2 → count_prefixed p l1 = count_prefixed p l2.
Proof.
  induction 1 as [|k l1 l2 _ IH|k1 k2 l|l1 l2 l3 _ IH1 _ IH2].
  - done.
  - by rewrite !count_prefixed_cons, IH.
  - rewrite !count_prefixed_cons. lia.
  - congruence.
Qed.

(** The four prefixes exclude one another: they differ in their first
    character. *)
Lemma startsWith_one_type (k : string) :
  ((if startsWith k "chat-" then 1 else 0)
   + (if startsWith k "display-" then 1 else 0)
   + (if startsWith k "input-" then 1 else 0)
   + (if startsWith k "status-" then 1 else 0) ≤ 1)%nat.
Proof.
  destruct k as [|c k]; [simpl; lia |].
  unfold startsWith. cbn [String.prefix].
  destruct (Ascii.ascii_dec "c" c) as [<-|?];
    [|destruct (Ascii.ascii_dec "d" c) as [<-|?];
      [|destruct (Ascii.ascii_dec "i" c) as [<-|?];
        [|destruct (Ascii.ascii_dec "s" c) as [<-|?]]]];
    repeat match goal with
           | |- context [Ascii.ascii_dec ?x ?y] =>
               destruct (Ascii.ascii_dec x y); [discriminate |]
           end;
    repeat match goal with
           | |- context [if ?b then 1%nat else 0%nat] => destruct b
           end; lia.
Qed.

Lemma count_types_le (keys : list string) :
  (count_prefixed "chat-" keys + count_prefixed "display-" keys
   + count_prefixed "input-" keys + count_prefixed "status-" keys
   ≤ length keys)%nat.
Proof.
  induction keys as [|k keys IH]; [done |].
  rewrite !count_prefixed_cons. pose proof (startsWith_one_type k). simpl. lia.
Qed.

Lemma template_keys_length {T} (a : UIAgent T) :
  length (template_keys a) = size (eventTemplates a).
Proof. unfold template_keys. by rewrite length_fmap, length_map_to_list. Qed.

Lemma template_keys_fresh {T} (templateId : string) (template : T) (a : UIAgent T) :
  eventTemplates a !! templateId = None →
  template_keys (addCustomTemplate templateId template a)
  ≡ₚ templateId :: template_keys a.
Proof.
  intros Hfresh. unfold template_keys.
  cbn [addCustomTemplate log with_templates eventTemplates].
  by rewrite map_to_list_insert.
Qed.

Lemma template_keys_override {T} (templateId : string) (template t0 : T)
    (a : UIAgent T) :
  eventTemplates a !! templateId = Some t0 →
  template_keys (addCustomTemplate templateId template a) ≡ₚ template_keys a.
Proof.
  intros Hreg. unfold template_keys.
  cbn [addCustomTemplate log with_templates eventTemplates].
  rewrite <- (insert_delete_id (eventTemplates a) templateId t0 Hreg) at 2.
  rewrite <- insert_delete_eq.
  rewrite !map_to_list_insert by apply lookup_delete_eq. done.
Qed.

(** X6.  In the statistics the four per-type counts never add up to more
    than [templates_available]: a template id is counted under at most one
    of [chat], [display], [input] and [status], and an id with none of the
    four prefixes (a custom one, say) is counted in the total only.  For a
    new agent the counts are 3, 5, 2 and 1 of 11 templates, with no session
    and no UI state. *)
Theorem getEventGenerationStats_bounded :
  (∀ T (a : UIAgent T),
     let s := getEventGenerationStats a in
     (Stats.chat (Stats.types s) + Stats.display (Stats.types s)
      + Stats.input (Stats.types s) + Stats.status (Stats.types s)
      ≤ Stats.templates_available s)%nat)
  ∧ getEventGenerationStats UIAgent_new
    = {| Stats.templates_available := 11;
         Stats.active_sessions := 0;
         Stats.ui_states := 0;
         Stats.types := {| Stats.chat := 3; Stats.display := 5;
                           Stats.input := 2; Stats.status := 1 |} |}
  ∧ (∀ (a : UIAgent obj) (template : obj),
       eventTemplates a !! "custom" = None →
       let s := getEventGenerationStats a in
       let s1 := getEventGenerationStats (addCustomTemplate "custom" template a) in
       Stats.templates_available s1 = S (Stats.templates_available s)
       ∧ Stats.types s1 = Stats.types s).
Proof.
  split_and!.
  - intros T a. cbn zeta. cbn [getEventGenerationStats Stats.types Stats.chat
      Stats.display Stats.input Stats.status Stats.templates_available].
    rewrite <- template_keys_length. apply count_types_le.
  - vm_compute. reflexivity.
  - intros a template Hfresh. cbn zeta.
    unfold getEventGenerationStats. cbn [Stats.templates_available Stats.types].
    rewrite !(count_prefixed_perm _ _ _ (template_keys_fresh "custom" template a Hfresh)).
    rewrite !count_prefixed_cons. split.
    + cbn [addCustomTemplate log with_templates eventTemplates].
      by apply map_size_insert_None.
    + done.
Qed.

(** X7.  Registering a template under a fresh id raises
    [templates_available] by one and raises a per-type count by one exactly
    when the id starts with that type's prefix; registering under an id
    that is already held changes no statistic. *)
Theorem getEventGenerationStats_addCustomTemplate {T} (templateId : string)
    (template : T) (a : UIAgent T) :
  let s := getEventGenerationStats a in
  let s1 := getEventGenerationStats (addCustomTemplate templateId template a) in
  let one (p : string) := if startsWith templateId p then 1%nat else 0%nat in
  (eventTemplates a !! templateId = None →
     Stats.templates_available s1 = S (Stats.templates_available s)
     ∧ Stats.chat (Stats.types s1) = (one "chat-" + Stats.chat (Stats.types s))%nat
     ∧ Stats.display (Stats.types s1)
       = (one "display-" + Stats.display (Stats.types s))%nat
     ∧ Stats.input (Stats.types s1) = (one "input-" + Stats.input (Stats.types s))%nat
     ∧ Stats.status (Stats.types s1)
       = (one "status-" + Stats.status (Stats.types s))%nat)
  ∧ (is_Some (eventTemplates a !! templateId) → s1 = s).
Proof.
  cbn zeta. unfold getEventGenerationStats.
  cbn [Stats.templates_available Stats.types Stats.chat Stats.display Stats.input
         Stats.status].
  split.
  - intros Hfresh.
    rewrite !(count_prefixed_perm _ _ _
                (template_keys_fresh templateId template a Hfresh)).
    rewrite !count_prefixed_cons. split_and!; try done.
    cbn [addCustomTemplate log with_templates eventTemplates].
    by apply map_size_insert_None.
  - intros [t0 Hreg].
    rewrite !(count_prefixed_perm _ _ _
                (template_keys_override templateId template t0 a Hreg)).
    cbn [addCustomTemplate log with_templates eventTemplates activeSessions uiStates].
    by rewrite map_size_insert_Some.
Qed.

(** * What a generation does to the agent *)

Section Generation_effects.
Variable Date_now : nat → Z.
Variable toISOString : Z → string.

Lemma getSessionId_absent {T} (clientId : option string) (a : UIAgent T) :
  absent clientId = true →
  getSessionId Date_now toISOString clientId a
  = ("session-" +:+ pretty (Date_now (clock a)), tick a).
Proof. by destruct clientId as [[|c0 c]|]. Qed.

Lemma absent_false (clientId : option string) :
  absent clientId = false → ∃ c, clientId = Some c ∧ c ≠ "".
Proof. destruct clientId as [[|c0 c]|]; try done. by eexists. Qed.

(** A request keeps every session it finds: the id and the creation time
    stay, and only the requesting client's record is touched. *)
Lemma getSessionId_keeps {T} (clientId : option string) (a : UIAgent T)
    (c : string) (s : session) :
  activeSessions a !! c = Some s →
  ∃ s', activeSessions (getSessionId Date_now toISOString clientId a).2 !! c = Some s'
        ∧ session_id s' = session_id s
        ∧ created_at s' = created_at s
        ∧ (clientId ≠ Some c → s' = s).
Proof.
  intros Hs. destruct (absent clientId) eqn:Habs.
  - rewrite getSessionId_absent by done. by exists s.
  - apply absent_false in Habs as (c' & -> & Hc').
    rewrite getSessionId_tracked by done.
    destruct (decide (c' = c)) as [->|Hne].
    + rewrite Hs. cbn [snd with_sessions activeSessions].
      rewrite lookup_insert_eq. eexists. split_and!; try done.
    + exists s. split_and!; try done.
      destruct (activeSessions a !! c'); cbn [snd with_sessions activeSessions];
        by rewrite lookup_insert_ne.
Qed.

Lemma getSessionId_uiStates {T} (clientId : option string) (a : UIAgent T) :
  uiStates (getSessionId Date_now toISOString clientId a).2 = uiStates a.
Proof.
  destruct (absent clientId) eqn:Habs.
  - by rewrite getSessionId_absent.
  - apply absent_false in Habs as (c' & -> & Hc').
    rewrite getSessionId_tracked by done. by destruct (activeSessions a !! c').
Qed.

Lemma getSessionId_size {T} (c : string) (a : UIAgent T) :
  c ≠ "" →
  size (activeSessions (getSessionId Date_now toISOString (Some c) a).2)
  = match activeSessions a !! c with
    | Some _ => size (activeSessions a)
    | None => S (size (activeSessions a))
    end.
Proof.
  intros Hc. rewrite getSessionId_tracked by done.
  destruct (activeSessions a !! c) as [s|] eqn:Hs;
    cbn [snd with_sessions activeSessions tick].
  - by rewrite map_size_insert_Some.
  - by rewrite map_size_insert_None.
Qed.

(** The agent after a generation from a registered template. *)
Lemma generateEvent_agent (templateId : string) vars (clientId : option string)
    (a : UIAgent obj) (template : obj) :
  eventTemplates a !! templateId = Some template →
  let a1 := (getSessionId Date_now toISOString clientId (tick a)).2 in
  (generateEvent Date_now toISOString templateId vars clientId a).2 = a1
  ∨ (generateEvent Date_now toISOString templateId vars clientId a).2 = tick a1.
Proof.
  intros Hreg. rewrite (generateEvent_registered _ _ _ _ _ _ _ Hreg). cbn zeta.
  destruct (getSessionId _ _ clientId (tick a)) as [sid a1].
  destruct (processTemplate _ _); [by right | by left].
Qed.

(** X8.  Whatever its outcome, [generateEvent] leaves the registry and the
    UI states as they were and drops no session: every session found is
    still there with the same id and creation time, and apart from the
    requesting client's it is unchanged altogether. *)
Theorem generateEvent_keeps (templateId : string) vars (clientId : option string)
    (a : UIAgent obj) :
  let a' := (generateEvent Date_now toISOString templateId vars clientId a).2 in
  eventTemplates a' = eventTemplates a
  ∧ uiStates a' = uiStates a
  ∧ ∀ c s, activeSessions a !! c = Some s →
      ∃ s', activeSessions a' !! c = Some s'
            ∧ session_id s' = session_id s
            ∧ created_at s' = created_at s
            ∧ (clientId ≠ Some c → s' = s).
Proof.
  cbn zeta. split; [apply generateEvent_templates |].
  destruct (eventTemplates a !! templateId) as [template|] eqn:Hreg.
  - pose proof (getSessionId_uiStates clientId (tick a)) as Hui.
    pose proof (λ c s, getSessionId_keeps clientId (tick a) c s) as Hkeep.
    destruct (generateEvent_agent templateId vars clientId a template Hreg)
      as [-> | ->]; split; try done; by apply Hkeep.
  - rewrite generateEvent_not_registered by done. split; [done |].
    intros c s Hs. by exists s.
Qed.

(** X9.  A generation from a registered template for a named client
    records the client's session before the template is processed: when
    processing throws, because a variable cannot be printed, the session is
    in the agent all the same, under the id the failed generation used. *)
Theorem generateEvent_session_recorded (templateId : string) vars (c : string)
    (a : UIAgent obj) (template : obj) :
  eventTemplates a !! templateId = Some template →
  c ≠ "" →
  let r := generateEvent Date_now toISOString templateId vars (Some c) a in
  ∃ s, activeSessions r.2 !! c = Some s
       ∧ session_id s = (getSessionId Date_now toISOString (Some c) (tick a)).1
       ∧ (∀ e, r.1 = Throws e →
            processTemplate template
              (mergedVariables
                 (defaultVariables (toISOString (Date_now (clock a))) (session_id s))
                 vars)
            = Throws e).
Proof.
  intros Hreg Hc. cbn zeta.
  rewrite (generateEvent_registered _ _ _ _ _ _ _ Hreg). cbn zeta.
  destruct (getSessionId_stored Date_now toISOString c (tick a) Hc) as (s & Hs & Hid).
  destruct (getSessionId _ _ (Some c) (tick a)) as [sid a1]. cbn [fst snd] in *.
  exists s. subst sid.
  by destruct (processTemplate _ _) as [out|e] eqn:Hp; cbn [fst snd].
Qed.

(** X10.  The event of a successful generation carries the stamp under
    [agui_metadata], in place of anything the template held under that key:
    the generator's name, the template id, the client id as given, and a
    generation time read from the clock after the [timestamp] default was
    read. *)
Theorem generateEvent_stamp (templateId : string) vars (clientId : option string)
    (a a' : UIAgent obj) (template : obj) (event : value) :
  eventTemplates a !! templateId = Some template →
  generateEvent Date_now toISOString templateId vars clientId a = (Returns event, a') →
  ∃ k, (clock a < k)%nat ∧ clock a' = S k
       ∧ get_path event [Key "agui_metadata"]
         = Some (VObj [ ("generated_by", VStr "ui-agent");
                        ("template_id", VStr templateId);
                        ("generated_at", VStr (toISOString (Date_now k)));
                        ("client_id", client_value clientId) ]).
Proof.
  intros Hreg. rewrite (generateEvent_registered _ _ _ _ _ _ _ Hreg). cbn zeta.
  assert (clock a < clock (getSessionId Date_now toISOString clientId (tick a)).2)%nat
    as Hclock.
  { destruct (absent clientId) eqn:Habs.
    - rewrite getSessionId_absent by done. simpl. lia.
    - apply absent_false in Habs as (c' & -> & Hc').
      rewrite getSessionId_tracked by done.
      destruct (activeSessions (tick a) !! c'); simpl; lia. }
  destruct (getSessionId _ _ clientId (tick a)) as [sid a1]. cbn [snd] in Hclock.
  destruct (processTemplate _ _) as [out|e] eqn:Hp; [|done].
  intros [= <- <-]. exists (clock a1). split_and!; try done.
  destruct (processTemplate_obj _ _ _ Hp) as [props ->].
  cbn [set_property get_path]. rewrite obj_get_set_eq. done.
Qed.

(** X11.  [active_sessions] counts the named clients seen: a generation
    from a registered template leaves the count alone for an absent client
    id ([null] or the empty string) and for a client that has a session,
    and raises it by one for a named client that has none; a generation
    from an unknown id never changes it. *)
Theorem active_sessions_after_generateEvent (templateId : string) vars
    (clientId : option string) (a : UIAgent obj) :
  let count (a : UIAgent obj) := Stats.active_sessions (getEventGenerationStats a) in
  let a' := (generateEvent Date_now toISOString templateId vars clientId a).2 in
  let tracked :=
    match clientId with
    | Some c => bool_decide (is_Some (activeSessions a !! c))
    | None => false
    end in
  (eventTemplates a !! templateId = None → count a' = count a)
  ∧ (is_Some (eventTemplates a !! templateId) →
     count a' = if absent clientId || tracked then count a else S (count a)).
Proof.
  cbn zeta. cbn [getEventGenerationStats Stats.active_sessions]. split.
  - intros Hnone. by rewrite generateEvent_not_registered.
  - intros [template Hreg].
    assert (activeSessions
              (generateEvent Date_now toISOString templateId vars clientId a).2
            = activeSessions (getSessionId Date_now toISOString clientId (tick a)).2)
      as ->.
    { by destruct (generateEvent_agent templateId vars clientId a template Hreg)
        as [-> | ->]. }
    destruct (absent clientId) eqn:Habs; cbn [orb].
    + by rewrite getSessionId_absent.
    + apply absent_false in Habs as (c & -> & Hc).
      rewrite getSessionId_size by done. cbn [tick activeSessions].
      destruct (activeSessions a !! c) as [s|] eqn:Hs.
      * by rewrite bool_decide_eq_true_2.
      * by rewrite bool_decide_eq_false_2 by (by intros [? ?]).
Qed.

End Generation_effects.

(** * Templates without placeholders, and events as JSON data *)

Lemma for_each_id {A} (f : A → outcome A) (l : list A) :
  Forall (λ x, f x = Returns x) l → for_each f l = Returns l.
Proof.
  induction 1 as [|x l Hx _ IH]; [done |]. cbn [for_each] in *. by rewrite Hx, IH.
Qed.

Lemma replaceStringVariables_no_open vars (s : string) :
  has_char "{" s = false → replaceStringVariables s vars = Returns s.
Proof.
  intros Hs. unfold replaceStringVariables.
  rewrite <- (app_empty_r s) at 1. rewrite replace_scan_no_open by done.
  simpl. by rewrite app_empty_r.
Qed.

Lemma visit_no_open vars (v : value) :
  no_open_brace v = true → visit vars v = Returns v.
Proof.
  induction v as [| | | | s | elems IH | props IH] using value_induction;
    intros Hv; try done.
  - simpl in *. apply negb_true_iff in Hv.
    by rewrite replaceStringVariables_no_open.
  - cbn [visit]. rewrite replaceVariables_arr.
    cbn [no_open_brace] in Hv. rewrite forallb_forall in Hv.
    rewrite (for_each_id (visit vars) elems); [done |].
    rewrite Forall_forall in IH |- *. intros x Hx. apply IH; [done |].
    apply Hv. by apply list_elem_of_In.
  - cbn [visit]. rewrite replaceVariables_obj.
    cbn [no_open_brace] in Hv. rewrite forallb_forall in Hv.
    rewrite (for_each_id _ props); [done |].
    rewrite Forall_forall in IH |- *. intros [k x] Hx.
    specialize (IH _ Hx). cbn [snd] in IH.
    rewrite IH; [done |]. apply (Hv (k, x)). by apply list_elem_of_In.
Qed.

Lemma json_clone_no_open (v : value) :
  no_open_brace v = true → no_open_brace (json_clone v) = true.
Proof.
  induction v as [| | | | s | elems IH | props IH] using value_induction;
    intros Hv; try done.
  - cbn [json_clone no_open_brace] in *. rewrite forallb_forall in Hv.
    apply forallb_forall. intros y Hy. apply in_map_iff in Hy as (x & <- & Hx).
    rewrite Forall_forall in IH.
    destruct x; try done; apply IH; try (by apply list_elem_of_In); by apply Hv.
  - cbn [json_clone no_open_brace] in *. rewrite forallb_forall in Hv.
    apply forallb_forall. intros [k y] Hy.
    apply list_elem_of_In, list_elem_of_omap in Hy as ([k' x] & Hx & Hkx).
    rewrite Forall_forall in IH.
    specialize (IH _ Hx). specialize (Hv _ (proj1 (list_elem_of_In _ _) Hx)).
    destruct x; try done; injection Hkx as <- <-; by apply IH.
Qed.

(** X12.  A template in which no string holds an opening brace comes out of
    [processTemplate] as its JSON copy, whatever the variables are: they
    are not read, so even a variable that cannot be printed does no harm.
    The event generated from such a template is that copy with the stamp. *)
Theorem processTemplate_without_placeholders (template : obj) vars :
  no_open_brace (VObj template) = true →
  processTemplate template vars = Returns (json_clone (VObj template))
  ∧ ∀ Date_now toISOString templateId clientId (a : UIAgent obj),
      eventTemplates a !! templateId = Some template →
      ∃ generated_at,
        (generateEvent Date_now toISOString templateId vars clientId a).1
        = Returns (set_property (json_clone (VObj template)) "agui_metadata"
                     (agui_metadata templateId generated_at clientId)).
Proof.
  intros Hv.
  assert (∀ vars, processTemplate template vars = Returns (json_clone (VObj template)))
    as Hp.
  { intros vars'. rewrite processTemplate_visit.
    by apply visit_no_open, json_clone_no_open. }
  split; [apply Hp |].
  intros Date_now toISOString templateId clientId a Hreg.
  rewrite (generateEvent_registered _ _ _ _ _ _ _ Hreg). cbn zeta.
  destruct (getSessionId _ _ clientId (tick a)) as [sid a1].
  rewrite Hp. by eexists.
Qed.

Lemma json_clone_fixed (v : value) : no_undefined v = true → json_clone v = v.
Proof.
  induction v as [| | | | s | elems IH | props IH] using value_induction;
    intros Hv; try done.
  - cbn [json_clone no_undefined] in *. f_equal.
    induction IH as [|x elems Hx _ IHl]; [done |].
    cbn [forallb map] in *. apply andb_prop in Hv as [Hvx Hv].
    rewrite IHl by done. f_equal. destruct x; try done; by apply Hx.
  - cbn [json_clone no_undefined] in *. f_equal.
    induction IH as [|[k x] props Hx _ IHl]; [done |].
    cbn [forallb omap list_omap snd] in *. apply andb_prop in Hv as [Hvx Hv].
    rewrite IHl by done. destruct x; try done; by rewrite Hx.
Qed.

Lemma json_clone_no_undefined (v : value) :
  v ≠ VUndef → no_undefined (json_clone v) = true.
Proof.
  induction v as [| | | | s | elems IH | props IH] using value_induction;
    intros Hv; try done.
  - cbn [json_clone no_undefined]. clear Hv.
    induction IH as [|x elems Hx _ IHl]; [done |].
    cbn [forallb map]. rewrite IHl, andb_true_r. destruct x; try done; by apply Hx.
  - cbn [json_clone no_undefined]. clear Hv.
    induction IH as [|[k x] props Hx _ IHl]; [done |].
    cbn [omap list_omap snd] in *.
    destruct x; try done; cbn [forallb snd]; rewrite IHl, andb_true_r; by apply Hx.
Qed.

Lemma visit_no_undefined vars (v v' : value) :
  no_undefined v = true → visit vars v = Returns v' → no_undefined v' = true.
Proof.
  revert v'. induction v as [| | | | s | elems IH | props IH] using value_induction;
    intros v' Hv; try (by intros [= <-]).
  - simpl. by intros (s' & _ & ->)%omap_outcome_Returns.
  - cbn [visit]. rewrite replaceVariables_arr.
    intros (l' & Hl%for_each_Returns & ->)%omap_outcome_Returns.
    cbn [no_undefined] in *. revert Hv.
    induction Hl as [|x y elems l' Hx _ IHl]; [done |].
    apply Forall_cons in IH as [IHx IH]. cbn [forallb].
    intros [Hvx Hv]%andb_prop. rewrite (IHx y), IHl; done.
  - cbn [visit]. rewrite replaceVariables_obj.
    intros (l' & Hl%for_each_Returns & ->)%omap_outcome_Returns.
    cbn [no_undefined] in *. revert Hv.
    induction Hl as [|[k x] [k' y] props l' Hx _ IHl]; [done |].
    apply Forall_cons in IH as [IHx IH]. cbn [forallb snd] in *.
    intros [Hvx Hv]%andb_prop.
    apply omap_outcome_Returns in Hx as (y' & Hy & [= -> ->]).
    rewrite (IHx y'), IHl; done.
Qed.

Lemma obj_set_no_undefined (props : obj) (key : string) (v : value) :
  forallb (λ kv, no_undefined kv.2) props = true →
  no_undefined v = true →
  forallb (λ kv, no_undefined kv.2) (obj_set props key v) = true.
Proof.
  intros Hp Hv. induction props as [|[k x] props IH]; simpl in *.
  - by rewrite Hv.
  - apply andb_prop in Hp as [Hx Hp]. destruct (String.eqb k key); simpl.
    + by rewrite Hv, Hp.
    + by rewrite Hx, IH.
Qed.

(** X13.  A generated event is JSON data: no [undefined] sits anywhere
    inside it, whatever the template and the variables held, so a trip
    through [JSON.stringify] and [JSON.parse] gives back the same event. *)
Theorem generated_event_is_json Date_now toISOString (templateId : string) vars
    (clientId : option string) (a a' : UIAgent obj) (template : obj)
    (event : value) :
  eventTemplates a !! templateId = Some template →
  generateEvent Date_now toISOString templateId vars clientId a = (Returns event, a') →
  no_undefined event = true ∧ json_clone event = event.
Proof.
  intros Hreg. rewrite (generateEvent_registered _ _ _ _ _ _ _ Hreg). cbn zeta.
  destruct (getSessionId _ _ clientId (tick a)) as [sid a1].
  destruct (processTemplate _ _) as [out|e] eqn:Hp; [|done].
  intros [= <- <-].
  assert (no_undefined out = true) as Hout.
  { rewrite processTemplate_visit in Hp.
    eapply visit_no_undefined; [|exact Hp]. by apply json_clone_no_undefined. }
  destruct (processTemplate_obj _ _ _ Hp) as [props ->].
  assert (no_undefined
            (set_property (VObj props) "agui_metadata"
               (agui_metadata templateId (toISOString (Date_now (clock a1))) clientId))
          = true) as Hev.
  { cbn [set_property no_undefined]. apply obj_set_no_undefined; [done |].
    by destruct clientId. }
  split; [done | by apply json_clone_fixed].
Qed.

(** * What the flows return *)

(** ** Fields of a processed template *)

Lemma processed_string_field (template : obj) vars (p : list step) (s : string)
    (out : value) :
  processTemplate template vars = Returns out →
  get_path (VObj template) p = Some (VStr s) →
  ∃ s', replaceStringVariables s vars = Returns s' ∧ get_path out p = Some (VStr s').
Proof.
  intros Hout Hp. rewrite processTemplate_visit in Hout.
  apply json_clone_path in Hp. by apply (visit_path _ _ _ _ _ Hout Hp).
Qed.

Lemma processed_literal_field (template : obj) vars (p : list step) (s : string)
    (out : value) :
  processTemplate template vars = Returns out →
  get_path (VObj template) p = Some (VStr s) →
  has_char "{" s = false →
  get_path out p = Some (VStr s).
Proof.
  intros Hout Hp Hs.
  destruct (processed_string_field _ _ _ _ _ Hout Hp) as (s' & Hs' & Hfield).
  rewrite replaceStringVariables_no_open in Hs' by done. by injection Hs' as <-.
Qed.

Lemma processed_placeholder_field (template : obj) vars (p : list step)
    (name : string) (out : value) :
  processTemplate template vars = Returns out →
  get_path (VObj template) p = Some (VStr ("{{" +:+ name +:+ "}}")) →
  is_identifier name = true →
  ∃ r, replacer vars name = Returns r ∧ get_path out p = Some (VStr r).
Proof.
  intros Hout Hp Hid.
  destruct (processed_string_field _ _ _ _ _ Hout Hp) as (s' & Hs' & Hfield).
  pose proof (replaceStringVariables_placeholder vars name "" Hid) as Hph.
  rewrite app_empty_r in Hph. rewrite Hph in Hs'.
  destruct (replacer vars name) as [r|]; [|done].
  cbv in Hs'. injection Hs' as <-. exists r. by rewrite app_empty_r in Hfield.
Qed.

Lemma processed_bound_field (template : obj) vars (p : list step)
    (name : string) (v : value) (out : value) :
  processTemplate template vars = Returns out →
  get_path (VObj template) p = Some (VStr ("{{" +:+ name +:+ "}}")) →
  is_identifier name = true →
  vars !! name = Some v →
  v ≠ VUndef →
  ∃ r, ToString v = Returns r ∧ get_path out p = Some (VStr r).
Proof.
  intros Hout Hp Hid Hv Hne.
  destruct (processed_placeholder_field _ _ _ _ _ Hout Hp Hid) as (r & Hr & Hfield).
  rewrite (replacer_bound _ _ _ Hv Hne) in Hr. eauto.
Qed.

Lemma processed_kept_field (template : obj) vars (p : list step)
    (name : string) (out : value) :
  processTemplate template vars = Returns out →
  get_path (VObj template) p = Some (VStr ("{{" +:+ name +:+ "}}")) →
  is_identifier name = true →
  vars !! name = Some VUndef
  ∨ (vars !! name = None ∧ Object_prototype_lookup name = None) →
  get_path out p = Some (VStr ("{{" +:+ name +:+ "}}")).
Proof.
  intros Hout Hp Hid Hv.
  destruct (processed_placeholder_field _ _ _ _ _ Hout Hp Hid) as (r & Hr & Hfield).
  destruct Hv as [Hv | [Hv Hproto]].
  - rewrite (replacer_undefined _ _ Hv) in Hr. by injection Hr as <-.
  - rewrite (replacer_unbound _ _ Hv Hproto) in Hr. by injection Hr as <-.
Qed.

(** The stamp sits beside the fields of the processed template. *)
Lemma get_path_stamped (props : obj) (m : value) (key : string) (p : list step) :
  key ≠ "agui_metadata" →
  get_path (set_property (VObj props) "agui_metadata" m) (Key key :: p)
  = get_path (VObj props) (Key key :: p).
Proof. intros Hne. simpl. by rewrite obj_get_set_ne. Qed.

Lemma merged_caller (timestamp sessionId : string) vars (name : string) (v : value) :
  vars !! name = Some v →
  mergedVariables (defaultVariables timestamp sessionId) vars !! name = Some v.
Proof. intros Hv. unfold mergedVariables. by apply lookup_union_Some_l. Qed.

Lemma merged_neither (timestamp sessionId : string) vars (name : string) :
  vars !! name = None →
  name ≠ "timestamp" → name ≠ "agent_name" → name ≠ "session_id" →
  mergedVariables (defaultVariables timestamp sessionId) vars !! name = None.
Proof.
  intros Hv H1 H2 H3. unfold mergedVariables, defaultVariables.
  apply lookup_union_None. split; [done |].
  rewrite !lookup_insert_ne by done. by apply lookup_singleton_ne.
Qed.

(** ** Steps of a flow *)

Section Flow_results.
Variable Date_now : nat → Z.
Variable toISOString : Z → string.
Context {W : Type}.
Variable autoweaveInstance : option (AutoWeave W).

Lemma bind_returns {A B} (m : flow A) (k : A → flow B) (st st' : UIAgent obj * W)
    (x : A) :
  m st = (Returns x, st') → bind m k st = k x st'.
Proof. unfold bind. by intros ->. Qed.

Lemma stamped_member (props : obj) (m : value) (type : string) :
  get_path (VObj props) [Key "type"] = Some (VStr type) →
  member (set_property (VObj props) "agui_metadata" m) "type" = Returns (VStr type).
Proof.
  simpl. rewrite obj_get_set_ne by done.
  destruct (obj_get props "type") as [x|]; [|done]. simpl. by intros [= ->].
Qed.

(** A delivery that the sink accepts, or that no sink is there for, returns
    and touches only the log and the world. *)
Lemma sendEvent_accepted (event : value) (type : string) (clientId : option string)
    (a : UIAgent obj) (w : W) :
  sink_accepts autoweaveInstance →
  member event "type" = Returns (VStr type) →
  ∃ a' w',
    sendEvent autoweaveInstance event clientId (a, w) = (Returns (), (a', w'))
    ∧ eventTemplates a' = eventTemplates a
    ∧ activeSessions a' = activeSessions a
    ∧ uiStates a' = uiStates a
    ∧ clock a' = clock a
    ∧ (∀ send, autoweaveInstance ≫= sendAGUIEvent = Some send →
         send event clientId w = (Returns (), w')
         ∧ logger a'
           = logger a ++ [(Debug, "Event sent to " +:+ show_client clientId
                                    +:+ ": " +:+ type)])
    ∧ (autoweaveInstance ≫= sendAGUIEvent = None →
         w' = w
         ∧ logger a'
           = logger a ++ [(Warn, "AutoWeave instance not available for sending events")]).
Proof.
  intros Hsink Hm. unfold sendEvent.
  destruct (autoweaveInstance ≫= sendAGUIEvent) as [send|] eqn:Hsend.
  - destruct (Hsink send event clientId w Hsend) as [w' Hw].
    unfold bind, pure_try, logging. rewrite Hw, Hm. cbn [ToString].
    eexists _, w'. split_and!; try done.
    intros send' [= <-]. done.
  - unfold logging. eexists _, w. split_and!; try done.
Qed.

(** A generation inside a flow, from a registered template and variables
    that print. *)
Lemma generateEvent_in_flow (templateId : string) vars (clientId : option string)
    (a : UIAgent obj) (w : W) (template : obj) :
  eventTemplates a !! templateId = Some template →
  printable vars →
  ∃ props timestamp generated_at,
    let session := getSessionId Date_now toISOString clientId (tick a) in
    on_agent_try (generateEvent Date_now toISOString templateId vars clientId) (a, w)
    = (Returns (set_property (VObj props) "agui_metadata"
                  (agui_metadata templateId generated_at clientId)),
       (tick session.2, w))
    ∧ processTemplate template
        (mergedVariables (defaultVariables timestamp session.1) vars)
      = Returns (VObj props).
Proof.
  intros Hreg Hpr. unfold on_agent_try.
  rewrite (generateEvent_registered _ _ _ _ _ _ _ Hreg). cbn zeta.
  destruct (getSessionId _ _ clientId (tick a)) as [sid a1]. cbn [fst snd].
  set (merged := mergedVariables _ vars).
  destruct (visit_total merged (json_clone (VObj template))) as [out Hout].
  { by apply printable_merged. }
  rewrite <- processTemplate_visit in Hout. rewrite Hout.
  destruct (processTemplate_obj _ _ _ Hout) as [props ->].
  by exists props, (toISOString (Date_now (clock a))),
    (toISOString (Date_now (clock a1))).
Qed.

(** X14.  The operation status: with the built-in [status-update]
    template and a sink that accepts (or none), the flow returns one event
    of type [status].  Its progress is the printed progress, and the text
    [0] whenever the progress given is falsy ([null], [undefined], [0],
    [false] or the empty string); status and operation id arrive printed;
    a message given as [undefined] leaves its placeholder in the event. *)
Theorem generateOperationStatus_event (clientId : option string)
    (operationId status message progress : value) (a : UIAgent obj) (w : W)
    (shown_status shown_message shown_progress shown_id : string) :
  eventTemplates a !! "status-update" = Some status_update →
  sink_accepts autoweaveInstance →
  ToString status = Returns shown_status →
  ToString message = Returns shown_message →
  ToString (if truthy progress then progress else VNum 0) = Returns shown_progress →
  ToString operationId = Returns shown_id →
  ∃ event st',
    generateOperationStatus Date_now toISOString autoweaveInstance clientId
      operationId status message progress (a, w)
    = (Returns event, st')
    ∧ get_path event [Key "type"] = Some (VStr "status")
    ∧ get_path event [Key "template"; Key "progress"] = Some (VStr shown_progress)
    ∧ (truthy progress = false → shown_progress = "0")
    ∧ (status ≠ VUndef →
       get_path event [Key "template"; Key "status"] = Some (VStr shown_status))
    ∧ (operationId ≠ VUndef →
       get_path event [Key "template"; Key "metadata"; Key "operation_id"]
       = Some (VStr shown_id))
    ∧ (message = VUndef →
       get_path event [Key "template"; Key "message"] = Some (VStr "{{message}}")).
Proof.
  intros Hreg Hsink Hstatus Hmessage Hprogress Hid.
  set (vars := ({[ "status" := status;
                   "message" := message;
                   "progress" := (if truthy progress then progress else VNum 0);
                   "operation_id" := operationId ]} : gmap string value)).
  assert (printable vars) as Hpr.
  { subst vars.
    apply (printable_insert _ _ _ shown_status); [done |].
    apply (printable_insert _ _ _ shown_message); [done |].
    apply (printable_insert _ _ _ shown_progress); [done |].
    intros k x [_ <-]%lookup_singleton_Some. by eexists. }
  destruct (generateEvent_in_flow "status-update" vars clientId a w status_update
              Hreg Hpr) as (props & ts & gen & Hgen & Hout).
  cbn zeta in Hgen, Hout.
  set (a1 := tick (getSessionId Date_now toISOString clientId (tick a)).2) in *.
  set (merged := mergedVariables _ vars) in Hout.
  pose proof (processed_literal_field _ _ [Key "type"] "status" _ Hout eq_refl eq_refl)
    as Htype.
  destruct (sendEvent_accepted _ "status" clientId a1 w Hsink
              (stamped_member props (agui_metadata "status-update" gen clientId)
                 "status" Htype))
    as (a2 & w2 & Hsend & _).
  eexists _, (a2, w2). split.
  { unfold generateOperationStatus, generateStatusEvent.
    fold vars. rewrite (bind_returns _ _ _ _ _ Hgen).
    by rewrite (bind_returns _ _ _ _ _ Hsend). }
  rewrite !get_path_stamped by done. split_and!.
  - done.
  - destruct (processed_bound_field _ merged [Key "template"; Key "progress"]
                "progress" (if truthy progress then progress else VNum 0) _
                Hout eq_refl eq_refl) as (r & Hr & Hfield).
    + subst merged. by apply merged_caller.
    + clear. by destruct progress as [| |[]|[]|[]| |].
    + rewrite Hprogress in Hr. by injection Hr as <-.
  - intros Hfalsy. rewrite Hfalsy in Hprogress. by injection Hprogress as <-.
  - intros Hne.
    destruct (processed_bound_field _ merged [Key "template"; Key "status"]
                "status" status _ Hout eq_refl eq_refl) as (r & Hr & Hfield);
      [subst merged; by apply merged_caller | done |].
    rewrite Hstatus in Hr. by injection Hr as <-.
  - intros Hne.
    destruct (processed_bound_field _ merged
                [Key "template"; Key "metadata"; Key "operation_id"]
                "operation_id" operationId _ Hout eq_refl eq_refl)
      as (r & Hr & Hfield); [subst merged; by apply merged_caller | done |].
    rewrite Hid in Hr. by injection Hr as <-.
  - intros ->.
    apply (processed_kept_field _ merged [Key "template"; Key "message"] "message" _
             Hout eq_refl eq_refl).
    left. subst merged. by apply merged_caller.
Qed.

(** The welcome sequence and the agent-creation flow have one shape: a
    session id is taken, a first event is generated with it, the clock is
    read, a form is generated, and both events are sent in that order. *)
Lemma two_events_flow (templateId : string) (template : obj) (type : string)
    (vars1 : string → gmap string value) (vars2 : Z → gmap string value)
    (clientId : option string) (a : UIAgent obj) (w : W) :
  eventTemplates a !! templateId = Some template →
  eventTemplates a !! "display-form" = Some display_form →
  get_path (VObj template) [Key "type"] = Some (VStr type) →
  has_char "{" type = false →
  (∀ sessionId, printable (vars1 sessionId)) →
  (∀ t, printable (vars2 t)) →
  sink_accepts autoweaveInstance →
  ∃ props1 props2 ts1 ts2 sid1 sid2 gen1 gen2 k a' w',
    let first := set_property (VObj props1) "agui_metadata"
                   (agui_metadata templateId gen1 clientId) in
    let form := set_property (VObj props2) "agui_metadata"
                  (agui_metadata "display-form" gen2 clientId) in
    bind (on_agent (getSessionId Date_now toISOString clientId)) (λ sessionId,
    bind (on_agent_try
            (generateEvent Date_now toISOString templateId (vars1 sessionId) clientId))
      (λ e1,
    bind (on_agent (now Date_now)) (λ t,
    bind (on_agent_try
            (generateEvent Date_now toISOString "display-form" (vars2 t) clientId))
      (λ e2,
    bind (sendEvents autoweaveInstance [e1; e2] clientId) (λ _,
    ret [e1; e2]))))) (a, w)
    = (Returns [first; form], (a', w'))
    ∧ processTemplate template
        (mergedVariables (defaultVariables ts1 sid1)
           (vars1 (getSessionId Date_now toISOString clientId a).1))
      = Returns (VObj props1)
    ∧ processTemplate display_form
        (mergedVariables (defaultVariables ts2 sid2) (vars2 (Date_now k)))
      = Returns (VObj props2)
    ∧ (clock a < k)%nat
    ∧ eventTemplates a' = eventTemplates a
    ∧ (∀ send, autoweaveInstance ≫= sendAGUIEvent = Some send →
         ∃ w1, send first clientId w = (Returns (), w1)
               ∧ send form clientId w1 = (Returns (), w'))
    ∧ (autoweaveInstance ≫= sendAGUIEvent = None → w' = w).
Proof.
  intros Hreg1 Hreg2 Htype Hlit Hpr1 Hpr2 Hsink.
  destruct (getSessionId Date_now toISOString clientId a) as [sid0 a0] eqn:Hs0.
  pose proof (getSessionId_templates Date_now toISOString clientId a) as Ht0.
  assert (clock a < clock a0)%nat as Hc0.
  { pose proof (f_equal snd Hs0) as Ha0. cbn [snd] in Ha0. subst a0.
    destruct (absent clientId) eqn:Habs.
    - rewrite getSessionId_absent by done. simpl. lia.
    - apply absent_false in Habs as (c' & -> & Hc').
      rewrite getSessionId_tracked by done.
      destruct (activeSessions a !! c'); simpl; lia. }
  rewrite Hs0 in Ht0. cbn [fst snd] in *.
  assert (on_agent (getSessionId Date_now toISOString clientId) (a, w)
          = (Returns sid0, (a0, w))) as Hstep0
    by (unfold on_agent; by rewrite Hs0).
  rewrite (bind_returns _ _ _ _ _ Hstep0).
  destruct (generateEvent_in_flow templateId (vars1 sid0) clientId a0 w template)
    as (props1 & ts1 & gen1 & Hgen1 & Hout1); [by rewrite Ht0 | done |].
  cbn zeta in Hgen1, Hout1.
  pose proof (getSessionId_templates Date_now toISOString clientId (tick a0)) as Ht1.
  assert (clock a0 < clock (getSessionId Date_now toISOString clientId (tick a0)).2)%nat
    as Hc1.
  { destruct (absent clientId) eqn:Habs.
    - rewrite getSessionId_absent by done. simpl. lia.
    - apply absent_false in Habs as (c' & -> & Hc').
      rewrite getSessionId_tracked by done.
      destruct (activeSessions (tick a0) !! c'); simpl; lia. }
  destruct (getSessionId Date_now toISOString clientId (tick a0)) as [sid1 a1].
  cbn [fst snd tick eventTemplates] in *.
  rewrite (bind_returns _ _ _ _ _ Hgen1).
  assert (on_agent (now Date_now) (tick a1, w)
          = (Returns (Date_now (S (clock a1))), (tick (tick a1), w))) as Hnow by done.
  rewrite (bind_returns _ _ _ _ _ Hnow).
  destruct (generateEvent_in_flow "display-form" (vars2 (Date_now (S (clock a1))))
              clientId (tick (tick a1)) w display_form)
    as (props2 & ts2 & gen2 & Hgen2 & Hout2);
    [cbn [tick eventTemplates]; congruence | done |].
  cbn zeta in Hgen2, Hout2.
  pose proof (getSessionId_templates Date_now toISOString clientId
                (tick (tick (tick a1)))) as Ht2.
  destruct (getSessionId Date_now toISOString clientId (tick (tick (tick a1))))
    as [sid2 a2].
  cbn [fst snd tick eventTemplates] in *.
  rewrite (bind_returns _ _ _ _ _ Hgen2).
  pose proof (processed_literal_field _ _ [Key "type"] type _ Hout1 Htype Hlit)
    as Htype1.
  pose proof (processed_literal_field _ _ [Key "type"] "display" _ Hout2 eq_refl eq_refl)
    as Htype2.
  destruct (sendEvent_accepted _ type clientId (tick a2) w Hsink
              (stamped_member props1 (agui_metadata templateId gen1 clientId)
                 type Htype1))
    as (a3 & w3 & Hsend1 & Htpl3 & _ & _ & _ & Hsink1 & Hnone1).
  destruct (sendEvent_accepted _ "display" clientId a3 w3 Hsink
              (stamped_member props2 (agui_metadata "display-form" gen2 clientId)
                 "display" Htype2))
    as (a4 & w4 & Hsend2 & Htpl4 & _ & _ & _ & Hsink2 & Hnone2).
  exists props1, props2, ts1, ts2, sid1, sid2, gen1, gen2, (S (clock a1)), a4, w4.
  cbn zeta. split_and!.
  - cbn [sendEvents].
    rewrite (bind_returns _ _ _ _ _
               (eq_trans (bind_returns _ _ _ _ _ Hsend1)
                  (bind_returns _ _ _ _ _ Hsend2))).
    done.
  - done.
  - done.
  - lia.
  - rewrite Htpl4, Htpl3. cbn [tick eventTemplates]. congruence.
  - intros send Hs. destruct (Hsink1 send Hs) as [H1 _].
    destruct (Hsink2 send Hs) as [H2 _]. eauto.
  - intros Hs. destruct (Hnone1 Hs) as [-> _]. by destruct (Hnone2 Hs) as [-> _].
Qed.

Lemma printable_strings (vars : gmap string value) :
  (∀ key v, vars !! key = Some v →
     (∃ s, v = VStr s) ∨ (∃ props, v = VObj props ∧ hasOwnProperty props "toString" = false)) →
  printable vars.
Proof.
  intros Hv key v Hkey. destruct (Hv key v Hkey) as [[s ->] | (props & -> & Hown)].
  - by eexists.
  - simpl. rewrite Hown. by eexists.
Qed.

(** X15.  The welcome sequence: with the built-in [chat-welcome] and
    [display-form] templates and a sink that accepts (or none), the flow
    returns two events, the welcome chat message and then the quick-actions
    form, and has sent them in that order.  The message names the agent and
    the capabilities and carries the session id taken at the start of the
    flow.  The form carries a form id made from a clock reading, and in
    place of its schema the text [[object Object]]: the schema object is
    printed into the placeholder. *)
Theorem generateWelcomeSequence_events (clientId : option string)
    (a : UIAgent obj) (w : W) :
  eventTemplates a !! "chat-welcome" = Some chat_welcome →
  eventTemplates a !! "display-form" = Some display_form →
  sink_accepts autoweaveInstance →
  ∃ welcome actions st',
    generateWelcomeSequence Date_now toISOString autoweaveInstance clientId (a, w)
    = (Returns [welcome; actions], st')
    ∧ get_path welcome [Key "type"] = Some (VStr "chat")
    ∧ get_path welcome [Key "template"; Key "text"]
      = Some (VStr "Welcome to AutoWeave! I'm ready to help you with agent creation, system monitoring, and workflow orchestration.")
    ∧ get_path welcome [Key "template"; Key "metadata"; Key "session_id"]
      = Some (VStr (getSessionId Date_now toISOString clientId a).1)
    ∧ get_path actions [Key "type"] = Some (VStr "display")
    ∧ get_path actions [Key "template"; Key "title"] = Some (VStr "Quick Actions")
    ∧ get_path actions [Key "template"; Key "action"] = Some (VStr "quick-action")
    ∧ get_path actions [Key "template"; Key "schema"] = Some (VStr "[object Object]")
    ∧ (∃ k, (clock a < k)%nat
            ∧ get_path actions [Key "template"; Key "metadata"; Key "form_id"]
              = Some (VStr ("welcome-actions-" +:+ pretty (Date_now k))))
    ∧ eventTemplates st'.1 = eventTemplates a
    ∧ (∀ send, autoweaveInstance ≫= sendAGUIEvent = Some send →
         ∃ w1, send welcome clientId w = (Returns (), w1)
               ∧ send actions clientId w1 = (Returns (), st'.2))
    ∧ (autoweaveInstance ≫= sendAGUIEvent = None → st'.2 = w).
Proof.
  intros Hreg1 Hreg2 Hsink.
  destruct (two_events_flow "chat-welcome" chat_welcome "chat"
              (λ sessionId,
                 {[ "capabilities" :=
                      VStr "agent creation, system monitoring, and workflow orchestration";
                    "session_id" := VStr sessionId ]})
              (λ t,
                 {[ "form_title" := VStr "Quick Actions";
                    "form_description" := VStr "What would you like to do?";
                    "form_schema" := welcome_form_schema;
                    "form_action" := VStr "quick-action";
                    "form_id" := VStr ("welcome-actions-" +:+ pretty t) ]})
              clientId a w Hreg1 Hreg2 eq_refl eq_refl)
    as (props1 & props2 & ts1 & ts2 & sid1 & sid2 & gen1 & gen2 & k & a' & w'
        & Hflow & Hout1 & Hout2 & Hk & Htpl & Hsent & Hnone).
  { intros sessionId. apply printable_strings. intros key v Hv.
    apply lookup_insert_Some in Hv as [[_ <-] | [_ Hv]]; [left; by eexists |].
    apply lookup_singleton_Some in Hv as [_ <-]. left. by eexists. }
  { intros t. apply printable_strings. intros key v Hv.
    repeat (apply lookup_insert_Some in Hv as [[_ <-] | [_ Hv]];
            [first [left; by eexists | right; by eexists] |]).
    apply lookup_singleton_Some in Hv as [_ <-]. left. by eexists. }
  { done. }
  cbn zeta in Hflow, Hsent.
  remember (getSessionId Date_now toISOString clientId a).1 as sid0 eqn:Hsid0.
  remember (Date_now k) as t eqn:Ht.
  eexists _, _, (a', w'). split; [exact Hflow |].
  rewrite !get_path_stamped by done. split_and!.
  - by apply (processed_literal_field _ _ [Key "type"] "chat" _ Hout1).
  - destruct (processed_string_field _ _ [Key "template"; Key "text"] _ _ Hout1 eq_refl)
      as (s' & Hs' & Hfield).
    vm_compute in Hs'. injection Hs' as <-. exact Hfield.
  - destruct (processed_bound_field _ _ [Key "template"; Key "metadata"; Key "session_id"]
                "session_id" (VStr sid0) _ Hout1 eq_refl eq_refl)
      as (r & Hr & Hfield); [| done |].
    + apply merged_caller. rewrite lookup_insert_ne by done. apply lookup_singleton_eq.
    + by injection Hr as <-.
  - by apply (processed_literal_field _ _ [Key "type"] "display" _ Hout2).
  - destruct (processed_bound_field _ _ [Key "template"; Key "title"]
                "form_title" (VStr "Quick Actions") _ Hout2 eq_refl eq_refl)
      as (r & Hr & Hfield); [| done |].
    + apply merged_caller. apply lookup_insert_eq.
    + by injection Hr as <-.
  - destruct (processed_bound_field _ _ [Key "template"; Key "action"]
                "form_action" (VStr "quick-action") _ Hout2 eq_refl eq_refl)
      as (r & Hr & Hfield); [| done |].
    + apply merged_caller. rewrite !lookup_insert_ne by done. apply lookup_insert_eq.
    + by injection Hr as <-.
  - destruct (processed_bound_field _ _ [Key "template"; Key "schema"]
                "form_schema" welcome_form_schema _ Hout2 eq_refl eq_refl)
      as (r & Hr & Hfield); [| done |].
    + apply merged_caller. rewrite !lookup_insert_ne by done. apply lookup_insert_eq.
    + vm_compute in Hr. by injection Hr as <-.
  - exists k. split; [done |]. rewrite <- Ht.
    destruct (processed_bound_field _ _ [Key "template"; Key "metadata"; Key "form_id"]
                "form_id" (VStr ("welcome-actions-" +:+ pretty t)) _ Hout2
                eq_refl eq_refl)
      as (r & Hr & Hfield); [| done |].
    + apply merged_caller. rewrite !lookup_insert_ne by done. apply lookup_singleton_eq.
    + by injection Hr as <-.
  - done.
  - done.
  - done.
Qed.

(** X16.  The agent-creation flow: with the built-in [chat-response] and
    [display-form] templates and a sink that accepts (or none), the flow
    returns two events, the processing message and then the configuration
    form, and has sent them in that order.  The message quotes the
    description as it was given, placeholders in it included, since
    substituted text is not scanned again; its [tokens] field still holds
    the placeholder [{{tokens}}], which this flow never fills.  The form
    carries [[object Object]] in place of its schema. *)
Theorem generateAgentCreationFlow_events (clientId : option string)
    (agentDescription : string) (a : UIAgent obj) (w : W) :
  eventTemplates a !! "chat-response" = Some chat_response →
  eventTemplates a !! "display-form" = Some display_form →
  sink_accepts autoweaveInstance →
  ∃ processing form st',
    generateAgentCreationFlow Date_now toISOString autoweaveInstance clientId
      agentDescription (a, w)
    = (Returns [processing; form], st')
    ∧ get_path processing [Key "type"] = Some (VStr "chat")
    ∧ get_path processing [Key "template"; Key "text"]
      = Some (VStr ("ðŸ¤– Creating agent: " +:+ dquote +:+ agentDescription
                    +:+ dquote))
    ∧ get_path processing [Key "template"; Key "metadata"; Key "tokens"]
      = Some (VStr "{{tokens}}")
    ∧ get_path processing [Key "template"; Key "metadata"; Key "session_id"]
      = Some (VStr (getSessionId Date_now toISOString clientId a).1)
    ∧ get_path form [Key "type"] = Some (VStr "display")
    ∧ get_path form [Key "template"; Key "title"] = Some (VStr "Agent Configuration")
    ∧ get_path form [Key "template"; Key "action"]
      = Some (VStr "create-agent-confirm")
    ∧ get_path form [Key "template"; Key "schema"] = Some (VStr "[object Object]")
    ∧ (∃ k, (clock a < k)%nat
            ∧ get_path form [Key "template"; Key "metadata"; Key "form_id"]
              = Some (VStr ("agent-form-" +:+ pretty (Date_now k))))
    ∧ eventTemplates st'.1 = eventTemplates a
    ∧ (∀ send, autoweaveInstance ≫= sendAGUIEvent = Some send →
         ∃ w1, send processing clientId w = (Returns (), w1)
               ∧ send form clientId w1 = (Returns (), st'.2))
    ∧ (autoweaveInstance ≫= sendAGUIEvent = None → st'.2 = w).
Proof.
  intros Hreg1 Hreg2 Hsink.
  remember ("ðŸ¤– Creating agent: " +:+ dquote +:+ agentDescription +:+ dquote)
    as message eqn:Hmessage.
  destruct (two_events_flow "chat-response" chat_response "chat"
              (λ sessionId,
                 {[ "message" := VStr message; "session_id" := VStr sessionId ]})
              (λ t,
                 {[ "form_title" := VStr "Agent Configuration";
                    "form_description" := VStr "Provide additional details for your agent";
                    "form_schema" := agent_form_schema;
                    "form_action" := VStr "create-agent-confirm";
                    "form_id" := VStr ("agent-form-" +:+ pretty t) ]})
              clientId a w Hreg1 Hreg2 eq_refl eq_refl)
    as (props1 & props2 & ts1 & ts2 & sid1 & sid2 & gen1 & gen2 & k & a' & w'
        & Hflow & Hout1 & Hout2 & Hk & Htpl & Hsent & Hnone).
  { intros sessionId. apply printable_strings. intros key v Hv.
    apply lookup_insert_Some in Hv as [[_ <-] | [_ Hv]]; [left; by eexists |].
    apply lookup_singleton_Some in Hv as [_ <-]. left. by eexists. }
  { intros t. apply printable_strings. intros key v Hv.
    repeat (apply lookup_insert_Some in Hv as [[_ <-] | [_ Hv]];
            [first [left; by eexists | right; by eexists] |]).
    apply lookup_singleton_Some in Hv as [_ <-]. left. by eexists. }
  { done. }
  cbn zeta in Hflow, Hsent.
  remember (getSessionId Date_now toISOString clientId a).1 as sid0 eqn:Hsid0.
  remember (Date_now k) as t eqn:Ht.
  eexists _, _, (a', w'). split.
  { unfold generateAgentCreationFlow. rewrite <- Hmessage. exact Hflow. }
  rewrite !get_path_stamped by done. split_and!.
  - by apply (processed_literal_field _ _ [Key "type"] "chat" _ Hout1).
  - destruct (processed_bound_field _ _ [Key "template"; Key "text"]
                "message" (VStr message) _ Hout1 eq_refl eq_refl)
      as (r & Hr & Hfield); [| done |].
    + apply merged_caller. apply lookup_insert_eq.
    + by injection Hr as <-.
  - apply (processed_kept_field _ _ [Key "template"; Key "metadata"; Key "tokens"]
             "tokens" _ Hout1 eq_refl eq_refl).
    right. split; [|reflexivity].
    apply merged_neither; [|done..].
    rewrite lookup_insert_ne by done. by apply lookup_singleton_ne.
  - destruct (processed_bound_field _ _ [Key "template"; Key "metadata"; Key "session_id"]
                "session_id" (VStr sid0) _ Hout1 eq_refl eq_refl)
      as (r & Hr & Hfield); [| done |].
    + apply merged_caller. rewrite lookup_insert_ne by done. apply lookup_singleton_eq.
    + by injection Hr as <-.
  - by apply (processed_literal_field _ _ [Key "type"] "display" _ Hout2).
  - destruct (processed_bound_field _ _ [Key "template"; Key "title"]
                "form_title" (VStr "Agent Configuration") _ Hout2 eq_refl eq_refl)
      as (r & Hr & Hfield); [| done |].
    + apply merged_caller. apply lookup_insert_eq.
    + by injection Hr as <-.
  - destruct (processed_bound_field _ _ [Key "template"; Key "action"]
                "form_action" (VStr "create-agent-confirm") _ Hout2 eq_refl eq_refl)
      as (r & Hr & Hfield); [| done |].
    + apply merged_caller. rewrite !lookup_insert_ne by done. apply lookup_insert_eq.
    + by injection Hr as <-.
  - destruct (processed_bound_field _ _ [Key "template"; Key "schema"]
                "form_schema" agent_form_schema _ Hout2 eq_refl eq_refl)
      as (r & Hr & Hfield); [| done |].
    + apply merged_caller. rewrite !lookup_insert_ne by done. apply lookup_insert_eq.
    + vm_compute in Hr. by injection Hr as <-.
  - exists k. split; [done |]. rewrite <- Ht.
    destruct (processed_bound_field _ _ [Key "template"; Key "metadata"; Key "form_id"]
                "form_id" (VStr ("agent-form-" +:+ pretty t)) _ Hout2
                eq_refl eq_refl)
      as (r & Hr & Hfield); [| done |].
    + apply merged_caller. rewrite !lookup_insert_ne by done. apply lookup_singleton_eq.
    + by injection Hr as <-.
  - done.
  - done.
  - done.
Qed.

Lemma try_catch_returns {A} (body : flow A) (handler : exn → flow A)
    (st st' : UIAgent obj * W) (x : A) :
  body st = (Returns x, st') → try_catch body handler st = (Returns x, st').
Proof. unfold try_catch. by intros ->. Qed.

(** The [catch] block of the display flows, for a thrown value whose
    [message] reads as [undefined]. *)
Lemma error_display_without_message (title message code : string)
    (clientId : option string) (error : exn) (a : UIAgent obj) (w : W) :
  eventTemplates a !! "display-error" = Some display_error →
  sink_accepts autoweaveInstance →
  error_message error = Returns VUndef →
  ∃ event st',
    bind (pure_try (error_message error)) (λ details,
    bind (on_agent_try
            (generateDisplayEvent Date_now toISOString "display-error"
               {[ "error_title" := VStr title;
                  "error_message" := VStr message;
                  "error_details" := details;
                  "error_code" := VStr code ]} clientId)) (λ errorEvent,
    bind (sendEvent autoweaveInstance errorEvent clientId) (λ _,
    ret errorEvent))) (a, w)
    = (Returns event, st')
    ∧ get_path event [Key "template"; Key "details"]
      = Some (VStr "{{error_details}}")
    ∧ get_path event [Key "template"; Key "message"] = Some (VStr message)
    ∧ get_path event [Key "template"; Key "metadata"; Key "error_code"]
      = Some (VStr code).
Proof.
  intros Hreg Hsink Hmsg.
  assert (pure_try (error_message error) (a, w) = (Returns VUndef, (a, w))) as Hstep
    by (unfold pure_try; by rewrite Hmsg).
  rewrite (bind_returns _ _ _ _ _ Hstep).
  set (vars := ({[ "error_title" := VStr title;
                   "error_message" := VStr message;
                   "error_details" := VUndef;
                   "error_code" := VStr code ]} : gmap string value)).
  assert (printable vars) as Hpr.
  { subst vars.
    apply (printable_insert _ _ _ title); [done |].
    apply (printable_insert _ _ _ message); [done |].
    apply (printable_insert _ _ _ "undefined"); [done |].
    intros k x [_ <-]%lookup_singleton_Some. by eexists. }
  destruct (generateEvent_in_flow "display-error" vars clientId a w display_error
              Hreg Hpr) as (props & ts & gen & Hgen & Hout).
  cbn zeta in Hgen, Hout.
  set (a1 := tick (getSessionId Date_now toISOString clientId (tick a)).2) in *.
  pose proof (processed_literal_field _ _ [Key "type"] "display" _ Hout eq_refl eq_refl)
    as Htype.
  destruct (sendEvent_accepted _ "display" clientId a1 w Hsink
              (stamped_member props (agui_metadata "display-error" gen clientId)
                 "display" Htype))
    as (a2 & w2 & Hsend & _).
  eexists _, (a2, w2). split.
  { unfold generateDisplayEvent. rewrite (bind_returns _ _ _ _ _ Hgen).
    by rewrite (bind_returns _ _ _ _ _ Hsend). }
  rewrite !get_path_stamped by done. split_and!.
  - apply (processed_kept_field _ _ [Key "template"; Key "details"] "error_details" _
             Hout eq_refl eq_refl).
    left. apply merged_caller. subst vars.
    rewrite !lookup_insert_ne by done. apply lookup_insert_eq.
  - destruct (processed_bound_field _ _ [Key "template"; Key "message"]
                "error_message" (VStr message) _ Hout eq_refl eq_refl)
      as (r & Hr & Hfield); [| done |].
    + apply merged_caller. subst vars.
      rewrite lookup_insert_ne by done. apply lookup_insert_eq.
    + by injection Hr as <-.
  - destruct (processed_bound_field _ _
                [Key "template"; Key "metadata"; Key "error_code"]
                "error_code" (VStr code) _ Hout eq_refl eq_refl)
      as (r & Hr & Hfield); [| done |].
    + apply merged_caller. subst vars.
      rewrite !lookup_insert_ne by done. apply lookup_singleton_eq.
    + by injection Hr as <-.
Qed.

(** X17.  When a provider throws something whose [message] reads as
    [undefined] (a string, a number, an object without that property), the
    display flows still return the error display, but its details are the
    unfilled placeholder [{{error_details}}]: the handler binds the details
    to [undefined], and a variable bound to [undefined] is not substituted. *)
Theorem display_flows_error_without_message (clientId : option string)
    (a : UIAgent obj) (w w1 : W) (i : AutoWeave W) (thrown : value) :
  autoweaveInstance = Some i →
  eventTemplates a !! "display-error" = Some display_error →
  sink_accepts autoweaveInstance →
  member thrown "message" = Returns VUndef →
  (∀ f, getSystemHealth i = Some f → f w = (Throws (Thrown thrown), w1) →
     ∃ event st',
       generateSystemHealthDisplay Date_now toISOString autoweaveInstance clientId
         (a, w) = (Returns event, st')
       ∧ get_path event [Key "template"; Key "details"]
         = Some (VStr "{{error_details}}")
       ∧ get_path event [Key "template"; Key "message"]
         = Some (VStr "Unable to retrieve system health")
       ∧ get_path event [Key "template"; Key "metadata"; Key "error_code"]
         = Some (VStr "HEALTH_CHECK_ERROR"))
  ∧ (∀ f, listAgents i = Some f → f w = (Throws (Thrown thrown), w1) →
       ∃ event st',
         generateAgentListDisplay Date_now toISOString autoweaveInstance clientId
           (a, w) = (Returns event, st')
         ∧ get_path event [Key "template"; Key "details"]
           = Some (VStr "{{error_details}}")
         ∧ get_path event [Key "template"; Key "message"]
           = Some (VStr "Unable to retrieve agent list")
         ∧ get_path event [Key "template"; Key "metadata"; Key "error_code"]
           = Some (VStr "AGENT_LIST_ERROR")).
Proof.
  intros Hi Hreg Hsink Hmsg. split.
  - intros f Hf Hthrow. unfold generateSystemHealthDisplay.
    erewrite try_catch_throws; last first.
    { unfold bind, call. by rewrite Hi, Hf, Hthrow. }
    by apply error_display_without_message.
  - intros f Hf Hthrow. unfold generateAgentListDisplay.
    erewrite try_catch_throws; last first.
    { unfold bind, call. by rewrite Hi, Hf, Hthrow. }
    by apply error_display_without_message.
Qed.

(** X18.  The agent list: when the provider's answer has agents, the
    display carries them printed, as one text, and their number; when it
    has none (no [agents] property, or a falsy one) the data is the empty
    text, which is how an empty array prints, and the total is [0]. *)
Theorem generateAgentListDisplay_listed (clientId : option string)
    (a : UIAgent obj) (w w1 : W) (i : AutoWeave W)
    (f : W → outcome value * W) (agents listed : value) (shown total : string) :
  autoweaveInstance = Some i →
  listAgents i = Some f →
  f w = (Returns agents, w1) →
  member agents "agents" = Returns listed →
  eventTemplates a !! "display-agent-list" = Some display_agent_list →
  sink_accepts autoweaveInstance →
  ToString (if truthy listed then listed else VArr []) = Returns shown →
  ToString (if truthy listed then length_of listed else VNum 0) = Returns total →
  ∃ event st',
    generateAgentListDisplay Date_now toISOString autoweaveInstance clientId (a, w)
    = (Returns event, st')
    ∧ get_path event [Key "type"] = Some (VStr "display")
    ∧ get_path event [Key "template"; Key "data"] = Some (VStr shown)
    ∧ (truthy listed = false →
       shown = ""
       ∧ get_path event [Key "template"; Key "metadata"; Key "total_agents"]
         = Some (VStr "0"))
    ∧ (∀ elems, listed = VArr elems →
         get_path event [Key "template"; Key "metadata"; Key "total_agents"]
         = Some (VStr (pretty (Z.of_nat (length elems))))).
Proof.
  intros Hi Hf Hlist Hmember Hreg Hsink Hshown Htotal.
  set (vars := ({[ "agents_data" := (if truthy listed then listed else VArr []);
                   "total_agents" := (if truthy listed then length_of listed
                                      else VNum 0) ]} : gmap string value)).
  assert (printable vars) as Hpr.
  { subst vars. apply (printable_insert _ _ _ shown); [done |].
    intros k x [_ <-]%lookup_singleton_Some. by eexists. }
  destruct (generateEvent_in_flow "display-agent-list" vars clientId a w1
              display_agent_list Hreg Hpr) as (props & ts & gen & Hgen & Hout).
  cbn zeta in Hgen, Hout.
  set (a1 := tick (getSessionId Date_now toISOString clientId (tick a)).2) in *.
  pose proof (processed_literal_field _ _ [Key "type"] "display" _ Hout eq_refl eq_refl)
    as Htype.
  destruct (sendEvent_accepted _ "display" clientId a1 w1 Hsink
              (stamped_member props (agui_metadata "display-agent-list" gen clientId)
                 "display" Htype))
    as (a2 & w2 & Hsend & _).
  assert (vars !! "total_agents"
          = Some (if truthy listed then length_of listed else VNum 0)) as Hvt.
  { subst vars. rewrite lookup_insert_ne by done. apply lookup_singleton_eq. }
  eexists _, (a2, w2). split.
  { unfold generateAgentListDisplay. apply try_catch_returns.
    assert (call autoweaveInstance "listAgents" listAgents (a, w)
            = (Returns agents, (a, w1))) as Hcall
      by (unfold call; by rewrite Hi, Hf, Hlist).
    rewrite (bind_returns _ _ _ _ _ Hcall).
    assert (pure_try (member agents "agents") (a, w1) = (Returns listed, (a, w1)))
      as Hstep by (unfold pure_try; by rewrite Hmember).
    rewrite (bind_returns _ _ _ _ _ Hstep).
    unfold generateDisplayEvent. fold vars.
    rewrite (bind_returns _ _ _ _ _ Hgen).
    by rewrite (bind_returns _ _ _ _ _ Hsend). }
  rewrite !get_path_stamped by done. split_and!.
  - done.
  - destruct (processed_bound_field _ _ [Key "template"; Key "data"]
                "agents_data" (if truthy listed then listed else VArr []) _
                Hout eq_refl eq_refl) as (r & Hr & Hfield).
    + apply merged_caller. apply lookup_insert_eq.
    + clear. by destruct listed as [| |[]|[]|[]| |].
    + rewrite Hshown in Hr. by injection Hr as <-.
  - intros Hfalsy. rewrite Hfalsy in Hshown, Hvt. split.
    + by injection Hshown as <-.
    + destruct (processed_bound_field _ _
                  [Key "template"; Key "metadata"; Key "total_agents"]
                  "total_agents" (VNum 0) _ Hout eq_refl eq_refl)
        as (r & Hr & Hfield); [by apply merged_caller | done |].
      by injection Hr as <-.
  - intros elems ->. cbn [truthy length_of] in Hvt.
    destruct (processed_bound_field _ _
                [Key "template"; Key "metadata"; Key "total_agents"]
                "total_agents" (VNum (Z.of_nat (length elems))) _ Hout eq_refl eq_refl)
      as (r & Hr & Hfield); [by apply merged_caller | done |].
    by injection Hr as <-.
Qed.

End Flow_results.

(** ** What no flow touches *)

Section Flow_frame.
Variable Date_now : nat → Z.
Variable toISOString : Z → string.
Context {W : Type}.
Variable autoweaveInstance : option (AutoWeave W).













End Flow_frame.

(** * The registry holds the caller's object *)



(** * Instances *)

Lemma working_instance_accepts : sink_accepts (Some working_instance).
Proof. intros send event clientId w [= <-]. by eexists. Qed.

Lemma text_throwing_providers_accepts : sink_accepts (Some text_throwing_providers).
Proof. intros send event clientId w [= <-]. by eexists. Qed.

Lemma generateEvent_session_recorded_witness :
  (∃ e, (generateEvent sample_clock sample_iso "chat-response"
           {[ "message" := unprintable ]} (Some "c1") UIAgent_new).1 = Throws e)
  ∧ ∃ s, activeSessions
           (generateEvent sample_clock sample_iso "chat-response"
              {[ "message" := unprintable ]} (Some "c1") UIAgent_new).2 !! "c1"
         = Some s
         ∧ session_id s = "session-c1-1700000000001".
Proof.
  split; [vm_compute; by eexists |].
  destruct (generateEvent_session_recorded sample_clock sample_iso "chat-response"
              {[ "message" := unprintable ]} "c1" UIAgent_new chat_response)
    as (s & Hs & Hid & _).
  - vm_compute; reflexivity.
  - done.
  - exists s. split; [exact Hs |]. rewrite Hid. vm_compute; reflexivity.
Defined.

Lemma generateEvent_stamp_witness :
  ∃ event a' k,
    generateEvent sample_clock sample_iso "chat-welcome"
      {[ "capabilities" := VStr "everything" ]} None UIAgent_new
    = (Returns event, a')
    ∧ (clock UIAgent_new < k)%nat ∧ clock a' = S k
    ∧ get_path event [Key "agui_metadata"]
      = Some (VObj [ ("generated_by", VStr "ui-agent");
                     ("template_id", VStr "chat-welcome");
                     ("generated_at", VStr (sample_iso (sample_clock k)));
                     ("client_id", VNull) ]).
Proof.
  set (r := generateEvent sample_clock sample_iso "chat-welcome"
              {[ "capabilities" := VStr "everything" ]} None UIAgent_new).
  assert (∃ event, r = (Returns event, r.2)) as [event Hr]
    by (vm_compute; by eexists).
  destruct (generateEvent_stamp sample_clock sample_iso "chat-welcome"
              {[ "capabilities" := VStr "everything" ]} None UIAgent_new r.2
              chat_welcome event) as (k & Hk & Hclock & Hstamp).
  - vm_compute; reflexivity.
  - exact Hr.
  - exists event, r.2, k. split_and!; [exact Hr | exact Hk | exact Hclock | exact Hstamp].
Defined.

Lemma processTemplate_without_placeholders_witness :
  processTemplate notice_template {[ "text" := unprintable ]}
  = Returns (VObj [ ("type", VStr "chat");
                    ("template", VObj [ ("text", VStr "Maintenance at noon");
                                        ("tags", VArr [VStr "notice"; VNull]) ]) ]).
Proof.
  apply (processTemplate_without_placeholders notice_template
           {[ "text" := unprintable ]}).
  vm_compute; reflexivity.
Defined.

Lemma generated_event_is_json_witness :
  ∃ event,
    (generateEvent sample_clock sample_iso "notice" {[ "text" := VUndef ]}
       (Some "c1") (addCustomTemplate "notice" notice_template UIAgent_new)).1
    = Returns event
    ∧ no_undefined event = true ∧ json_clone event = event.
Proof.
  set (a := addCustomTemplate "notice" notice_template UIAgent_new).
  set (r := generateEvent sample_clock sample_iso "notice" {[ "text" := VUndef ]}
              (Some "c1") a).
  assert (∃ event, r = (Returns event, r.2)) as [event Hr]
    by (vm_compute; by eexists).
  exists event. split; [by rewrite Hr |].
  apply (generated_event_is_json sample_clock sample_iso "notice"
           {[ "text" := VUndef ]} (Some "c1") a r.2 notice_template event).
  - vm_compute; reflexivity.
  - exact Hr.
Defined.

Lemma generateOperationStatus_event_witness :
  ∃ event st',
    generateOperationStatus sample_clock sample_iso (Some working_instance)
      (Some "c1") (VStr "op-7") (VStr "running") VUndef VNull (UIAgent_new, [])
    = (Returns event, st')
    ∧ get_path event [Key "type"] = Some (VStr "status")
    ∧ get_path event [Key "template"; Key "progress"] = Some (VStr "0")
    ∧ get_path event [Key "template"; Key "status"] = Some (VStr "running")
    ∧ get_path event [Key "template"; Key "message"] = Some (VStr "{{message}}").
Proof.
  destruct (generateOperationStatus_event sample_clock sample_iso
              (Some working_instance) (Some "c1") (VStr "op-7") (VStr "running")
              VUndef VNull UIAgent_new [] "running" "undefined" "0" "op-7")
    as (event & st' & Hrun & Htype & Hprogress & _ & Hstatus & _ & Hmessage).
  - vm_compute; reflexivity.
  - apply working_instance_accepts.
  - reflexivity.
  - reflexivity.
  - reflexivity.
  - reflexivity.
  - exists event, st'. split_and!.
    + exact Hrun.
    + exact Htype.
    + exact Hprogress.
    + by apply Hstatus.
    + by apply Hmessage.
Defined.

Lemma generateWelcomeSequence_events_witness :
  ∃ welcome actions st',
    generateWelcomeSequence sample_clock sample_iso (Some working_instance)
      (Some "c1") (UIAgent_new, [])
    = (Returns [welcome; actions], st')
    ∧ st'.2 = [welcome; actions]
    ∧ get_path welcome [Key "template"; Key "metadata"; Key "session_id"]
      = Some (VStr "session-c1-1700000000000")
    ∧ get_path actions [Key "template"; Key "schema"] = Some (VStr "[object Object]").
Proof.
  destruct (generateWelcomeSequence_events sample_clock sample_iso
              (Some working_instance) (Some "c1") UIAgent_new [])
    as (welcome & actions & st' & Hrun & _ & _ & Hsid & _ & _ & _ & Hschema & _ & _
        & Hsent & _).
  - vm_compute; reflexivity.
  - vm_compute; reflexivity.
  - apply working_instance_accepts.
  - exists welcome, actions, st'. split_and!.
    + exact Hrun.
    + destruct (Hsent _ eq_refl) as (w1 & [= <-] & [= <-]). done.
    + rewrite Hsid. vm_compute; reflexivity.
    + exact Hschema.
Defined.

Lemma generateAgentCreationFlow_events_witness :
  ∃ processing form st',
    generateAgentCreationFlow sample_clock sample_iso (Some working_instance)
      (Some "c1") "a {{agent_name}} bot" (UIAgent_new, [])
    = (Returns [processing; form], st')
    ∧ get_path processing [Key "template"; Key "text"]
      = Some (VStr ("ðŸ¤– Creating agent: " +:+ dquote +:+ "a {{agent_name}} bot"
                    +:+ dquote))
    ∧ get_path processing [Key "template"; Key "metadata"; Key "tokens"]
      = Some (VStr "{{tokens}}")
    ∧ get_path form [Key "template"; Key "schema"] = Some (VStr "[object Object]").
Proof.
  destruct (generateAgentCreationFlow_events sample_clock sample_iso
              (Some working_instance) (Some "c1") "a {{agent_name}} bot"
              UIAgent_new [])
    as (processing & form & st' & Hrun & _ & Htext & Htokens & _ & _ & _ & _
        & Hschema & _).
  - vm_compute; reflexivity.
  - vm_compute; reflexivity.
  - apply working_instance_accepts.
  - by exists processing, form, st'.
Defined.

Lemma display_flows_error_without_message_witness :
  ∃ event st',
    generateSystemHealthDisplay sample_clock sample_iso
      (Some text_throwing_providers) (Some "c1") (UIAgent_new, [])
    = (Returns event, st')
    ∧ get_path event [Key "template"; Key "details"]
      = Some (VStr "{{error_details}}")
    ∧ get_path event [Key "template"; Key "metadata"; Key "error_code"]
      = Some (VStr "HEALTH_CHECK_ERROR").
Proof.
  destruct (display_flows_error_without_message sample_clock sample_iso
              (Some text_throwing_providers) (Some "c1") UIAgent_new [] []
              text_throwing_providers (VStr "backend down"))
    as [Hhealth _].
  - reflexivity.
  - vm_compute; reflexivity.
  - apply text_throwing_providers_accepts.
  - reflexivity.
  - destruct (Hhealth _ eq_refl eq_refl) as (event & st' & Hrun & Hdetails & _ & Hcode).
    by exists event, st'.
Defined.

Lemma generateAgentListDisplay_listed_witness :
  ∃ event st',
    generateAgentListDisplay sample_clock sample_iso (Some working_instance)
      (Some "c1") (UIAgent_new, [])
    = (Returns event, st')
    ∧ get_path event [Key "template"; Key "data"] = Some (VStr "[object Object]")
    ∧ get_path event [Key "template"; Key "metadata"; Key "total_agents"]
      = Some (VStr "1").
Proof.
  destruct (generateAgentListDisplay_listed sample_clock sample_iso
              (Some working_instance) (Some "c1") UIAgent_new [] []
              working_instance
              (λ w, (Returns (VObj [ ("agents", VArr [agent_record]) ]), w))
              (VObj [ ("agents", VArr [agent_record]) ]) (VArr [agent_record])
              "[object Object]" "1")
    as (event & st' & Hrun & _ & Hdata & _ & Htotal).
  - reflexivity.
  - reflexivity.
  - reflexivity.
  - reflexivity.
  - vm_compute; reflexivity.
  - apply working_instance_accepts.
  - reflexivity.
  - reflexivity.
  - exists event, st'. split_and!; [exact Hrun | exact Hdata |].
    by rewrite (Htotal _ eq_refl).
Defined.

(** * More on substitution *)


Section Defaults.
Variable Date_now : nat → Z.
Variable toISOString : Z → string.

(** X22.  A caller cannot unset a default by passing [undefined]: the
    property is merged over the default all the same, and a name bound to
    [undefined] is not substituted.  So every field that is the
    placeholder of such a name, [agent_name], [timestamp] and [session_id]
    included, holds the placeholder text in the event. *)
Theorem undefined_overrides_default (templateId : string) vars
    (clientId : option string) (a : UIAgent obj) (template : obj)
    (name key : string) (p : list step) :
  eventTemplates a !! templateId = Some template →
  printable vars →
  vars !! name = Some VUndef →
  is_identifier name = true →
  get_path (VObj template) (Key key :: p) = Some (VStr ("{{" +:+ name +:+ "}}")) →
  key ≠ "agui_metadata" →
  event_field (generateEvent Date_now toISOString templateId vars clientId a).1
    (Key key :: p)
  = Some (VStr ("{{" +:+ name +:+ "}}")).
Proof.
  intros Hreg Hpr Hv Hid Hp Hkey.
  destruct (generateEvent_returns Date_now toISOString templateId vars clientId a
              template Hreg Hpr) as (out & ts & sid & gen & -> & Hout).
  destruct (processTemplate_obj _ _ _ Hout) as [props ->].
  cbn [event_field]. rewrite get_path_stamped by done.
  apply (processed_kept_field _ _ _ name _ Hout Hp Hid).
  left. by apply merged_caller.
Qed.

End Defaults.

Lemma undefined_overrides_default_witness :
  event_field
    (generateEvent sample_clock sample_iso "chat-welcome"
       {[ "agent_name" := VUndef; "capabilities" := VStr "everything" ]}
       (Some "c1") UIAgent_new).1
    [Key "template"; Key "sender"]
  = Some (VStr "{{agent_name}}").
Proof.
  apply (undefined_overrides_default sample_clock sample_iso "chat-welcome"
           {[ "agent_name" := VUndef; "capabilities" := VStr "everything" ]}
           (Some "c1") UIAgent_new chat_welcome "agent_name" "template"
           [Key "sender"]).
  - vm_compute; reflexivity.
  - apply (printable_insert _ _ _ "undefined"); [done |].
    intros k x [_ <-]%lookup_singleton_Some. by eexists.
  - apply lookup_insert_eq.
  - reflexivity.
  - reflexivity.
  - done.
Defined.

Section Missing_error_template.
Variable Date_now : nat → Z.
Variable toISOString : Z → string.
Context {W : Type}.
Variable autoweaveInstance : option (AutoWeave W).

(** X23.  The error display needs its template.  Once [display-error] is
    not registered any more, a provider failure in a display flow is not
    turned into an event: the handler's own generation throws the
    not-found error, which leaves the flow, with nothing sent. *)
Theorem display_flows_without_error_template (clientId : option string)
    (a : UIAgent obj) (w w1 : W) (i : AutoWeave W) (e : exn) (details : value) :
  autoweaveInstance = Some i →
  eventTemplates a !! "display-error" = None →
  error_message e = Returns details →
  (∀ f, getSystemHealth i = Some f → f w = (Throws e, w1) →
     generateSystemHealthDisplay Date_now toISOString autoweaveInstance clientId (a, w)
     = (Throws (Error "Template 'display-error' not found"), (a, w1)))
  ∧ (∀ f, listAgents i = Some f → f w = (Throws e, w1) →
       generateAgentListDisplay Date_now toISOString autoweaveInstance clientId (a, w)
       = (Throws (Error "Template 'display-error' not found"), (a, w1))).
Proof.
  intros Hi Hnone Hmsg. split.
  - intros f Hf Hthrow. unfold generateSystemHealthDisplay.
    erewrite try_catch_throws; last first.
    { unfold bind, call. by rewrite Hi, Hf, Hthrow. }
    unfold bind, pure_try, on_agent_try, generateDisplayEvent. rewrite Hmsg.
    by rewrite generateEvent_not_registered.
  - intros f Hf Hthrow. unfold generateAgentListDisplay.
    erewrite try_catch_throws; last first.
    { unfold bind, call. by rewrite Hi, Hf, Hthrow. }
    unfold bind, pure_try, on_agent_try, generateDisplayEvent. rewrite Hmsg.
    by rewrite generateEvent_not_registered.
Qed.

End Missing_error_template.

Lemma display_flows_without_error_template_witness :
  let a := (removeTemplate "display-error" UIAgent_new).2 in
  generateSystemHealthDisplay sample_clock sample_iso (Some failing_providers)
    (Some "c1") (a, [])
  = (Throws (Error "Template 'display-error' not found"), (a, []))
  ∧ generateAgentListDisplay sample_clock sample_iso (Some failing_providers)
      (Some "c1") (a, [])
    = (Throws (Error "Template 'display-error' not found"), (a, [])).
Proof.
  cbn zeta.
  destruct (display_flows_without_error_template sample_clock sample_iso
              (Some failing_providers) (Some "c1")
              (removeTemplate "display-error" UIAgent_new).2 [] []
              failing_providers (Error "health service down")
              (VStr "health service down") eq_refl) as [Hhealth _];
    [vm_compute; reflexivity | reflexivity |].
  destruct (display_flows_without_error_template sample_clock sample_iso
              (Some failing_providers) (Some "c1")
              (removeTemplate "display-error" UIAgent_new).2 [] []
              failing_providers (Error "agent manager down")
              (VStr "agent manager down") eq_refl) as [_ Hagents];
    [vm_compute; reflexivity | reflexivity |].
  split; [apply (Hhealth _ eq_refl eq_refl) | apply (Hagents _ eq_refl eq_refl)].
Defined.

Lemma getEventGenerationStats_addCustomTemplate_witness :
  Stats.templates_available
    (getEventGenerationStats
       (addCustomTemplate "chat-notice" notice_template UIAgent_new)) = 12%nat
  ∧ Stats.chat
      (Stats.types
         (getEventGenerationStats
            (addCustomTemplate "chat-notice" notice_template UIAgent_new))) = 4%nat
  ∧ getEventGenerationStats
      (addCustomTemplate "chat-error" notice_template UIAgent_new)
    = getEventGenerationStats UIAgent_new.
Proof.
  destruct (getEventGenerationStats_addCustomTemplate "chat-notice" notice_template
              UIAgent_new) as [Hfresh _].
  destruct (getEventGenerationStats_addCustomTemplate "chat-error" notice_template
              UIAgent_new) as [_ Hheld].
  destruct Hfresh as (Htotal & Hchat & _); [vm_compute; reflexivity |].
  split_and!.
  - rewrite Htotal. vm_compute; reflexivity.
  - rewrite Hchat. vm_compute; reflexivity.
  - apply Hheld. vm_compute. by eexists.
Defined.

Lemma active_sessions_after_generateEvent_witness :
  Stats.active_sessions
    (getEventGenerationStats
       (generateEvent sample_clock sample_iso "chat-welcome" ∅ (Some "c1")
          UIAgent_new).2) = 1%nat
  ∧ Stats.active_sessions
      (getEventGenerationStats
         (generateEvent sample_clock sample_iso "chat-welcome" ∅ (Some "")
            UIAgent_new).2) = 0%nat.
Proof.
  destruct (active_sessions_after_generateEvent sample_clock sample_iso
              "chat-welcome" ∅ (Some "c1") UIAgent_new) as [_ Hnamed].
  destruct (active_sessions_after_generateEvent sample_clock sample_iso
              "chat-welcome" ∅ (Some "") UIAgent_new) as [_ Hempty].
  split.
  - rewrite Hnamed; [vm_compute; reflexivity | vm_compute; by eexists].
  - rewrite Hempty; [vm_compute; reflexivity | vm_compute; by eexists].
Defined.
